(** * medical-chatbot: retrieval-augmented chat pipeline

    Shallow embedding of the Python backend
    ([python_backend/services/perplexity.py],
    [python_backend/services/embedding_service.py],
    [python_backend/services/db_operations.py],
    [python_backend/routes/vector_search.py], [python_backend/routes/chat.py])
    and the properties of its specification.

    Conventions.
    - A Python [str] is a [string]; one [ascii] stands for one character.
    - A Python [dict] with a fixed set of keys is a record; a key that may be
      missing is an [option] field.
    - Numbers that are only compared (thresholds, counts, similarity scores)
      are modelled by their exact rational value in [Q].
    - The floats of an embedding are IEEE 754 doubles given by their bits,
      with [str] and [float] as Python computes them ([PyFloat]).
    - A list that the code grows with [append] and whose last element it
      updates in place is a [list] updated at its end.
    - Code that raises, catches, calls a collaborator or writes to the
      database runs in the monad [M] over an explicit [world]: the calls made
      so far, the database, the service singleton. *)

From Stdlib Require Import String Ascii List Bool Arith NArith ZArith QArith Sorted Lia.
From Stdlib Require Import DecimalString.
Import ListNotations.

Local Close Scope Q_scope.
Local Open Scope string_scope.
Local Open Scope list_scope.

(* ===================================================================== *)
(** * Python runtime *)
(* ===================================================================== *)

Module Py.

(** Exceptions, all of them subclasses of [Exception]: a handler
    [except Exception] catches every one. [Failure] stands for the errors
    of the collaborators (network, provider, database driver). *)
Inductive exn : Type :=
| ValueError (msg : string)
| RuntimeError (msg : string)
| ImportError (msg : string)
| IndexError
| Failure (msg : string).

(** The outcome of a call that may raise. *)
Definition result (A : Type) : Type := (exn + A)%type.

(** The line feed, written ["\n"] in the source. *)
Definition nl : string := String "010"%char EmptyString.

(** Truth value of a [str]: empty is false. *)
Definition truthy (s : string) : bool :=
  match s with EmptyString => false | String _ _ => true end.

(** The first [n] characters of [s], all of [s] when it is shorter. *)
Fixpoint take (n : nat) (s : string) : string :=
  match n, s with
  | O, _ => EmptyString
  | S _, EmptyString => EmptyString
  | S n', String c s' => String c (take n' s')
  end.

(** [s[:k]]: a negative [k] counts from the end. *)
Definition slice_to (k : Z) (s : string) : string :=
  if (k <? 0)%Z then take (String.length s - Z.abs_nat k) s
  else take (Z.to_nat k) s.

Definition char_in (c : ascii) (chars : list ascii) : bool :=
  existsb (Ascii.eqb c) chars.

Fixpoint lstrip (chars : list ascii) (s : string) : string :=
  match s with
  | EmptyString => EmptyString
  | String c s' => if char_in c chars then lstrip chars s' else s
  end.

Fixpoint rstrip (chars : list ascii) (s : string) : string :=
  match s with
  | EmptyString => EmptyString
  | String c s' =>
      match rstrip chars s' with
      | EmptyString => if char_in c chars then EmptyString
                       else String c EmptyString
      | r => String c r
      end
  end.

(** [s.strip(chars)]: leading and trailing characters of the set removed. *)
Definition strip_chars (chars : list ascii) (s : string) : string :=
  rstrip chars (lstrip chars s).

(** The characters [str.isspace] accepts, below code point 256. *)
Definition whitespace : list ascii :=
  [ "009"; "010"; "011"; "012"; "013"; "028"; "029"; "030"; "031";
    "032"; "133"; "160" ]%char.

(** [s.strip()] *)
Definition strip (s : string) : string := strip_chars whitespace s.

(** [s.split(sep)] for a one-character separator: never the empty list. *)
Fixpoint split (sep : ascii) (s : string) : list string :=
  match s with
  | EmptyString => [EmptyString]
  | String c s' =>
      if Ascii.eqb c sep then EmptyString :: split sep s'
      else match split sep s' with
           | h :: t => String c h :: t
           | [] => [String c EmptyString]
           end
  end.

(** [sep.join(parts)] *)
Definition join (sep : string) (parts : list string) : string :=
  String.concat sep parts.

(** [l[-1]] when [l] is not empty. *)
Fixpoint last_item {A : Type} (l : list A) : option A :=
  match l with
  | [] => None
  | [x] => Some x
  | _ :: t => last_item t
  end.

(** [l[-1] = x] *)
Definition set_last {A : Type} (l : list A) (x : A) : list A :=
  removelast l ++ [x].

(** [d.get(key, default)] on a key that may be missing. *)
Definition get {A : Type} (field : option A) (default : A) : A :=
  match field with Some v => v | None => default end.

(** [x < y] and [x <= y] on numbers. *)
Definition lt (x y : Q) : bool :=
  (Qnum x * QDen y <? Qnum y * QDen x)%Z.

Definition le (x y : Q) : bool :=
  (Qnum x * QDen y <=? Qnum y * QDen x)%Z.

(** The float literal [0.7]: the double nearest to seven tenths. *)
Definition float_0_7 : Q := 3152519739159347 # 4503599627370496.

(** [str(e)] of an exception. *)
Definition str_exn (e : exn) : string :=
  match e with
  | ValueError msg | RuntimeError msg | ImportError msg | Failure msg => msg
  | IndexError => "list index out of range"
  end.

(** A [dict] from [str] to [str]. *)
Definition dict : Type := list (string * string).

Fixpoint lookup (key : string) (d : dict) : option string :=
  match d with
  | [] => None
  | (k, v) :: d' => if String.eqb k key then Some v else lookup key d'
  end.

End Py.

(* ===================================================================== *)
(** * Python floats: the builtins [str] and [float] *)
(* ===================================================================== *)

Module PyFloat.
Import Py.

(** A Python [float] is an IEEE 754 binary64 number. A finite one is kept
    by its sign and by the 63 low bits of its encoding (the exponent field
    times [2 ^ 52] plus the fraction field), which are below [inf_bits];
    [-0.0] is [Finite true 0]. *)
Inductive pyfloat : Type :=
| Nan
| Inf (negative : bool)
| Finite (negative : bool) (bits : N).

Definition inf_bits : N := (2047 * 2 ^ 52)%N.

Definition is_double (x : pyfloat) : bool :=
  match x with
  | Finite _ bits => (bits <? inf_bits)%N
  | _ => true
  end.

Definition is_nan (x : pyfloat) : bool :=
  match x with Nan => true | _ => false end.

(** The float of a 64-bit pattern, as [struct.unpack('<d', ...)] gives it. *)
Definition of_bits64 (pattern : N) : pyfloat :=
  let negative := (2 ^ 63 <=? pattern mod 2 ^ 64)%N in
  let bits := (pattern mod 2 ^ 63)%N in
  if (bits <? inf_bits)%N then Finite negative bits
  else if (bits =? inf_bits)%N then Inf negative
  else Nan.

(** The [n]-th float above zero: small floats told apart by [n], for the
    answers of sample models. *)
Definition nth_float (n : nat) : pyfloat := Finite false (N.of_nat n).

(** [x == y] on floats: [nan] is equal to nothing, not even to itself, and
    the two zeros are equal. *)
Definition float_eq (x y : pyfloat) : bool :=
  match x, y with
  | Inf s, Inf s' => Bool.eqb s s'
  | Finite s bits, Finite s' bits' =>
      ((bits =? 0)%N && (bits' =? 0)%N) || (Bool.eqb s s' && (bits =? bits')%N)
  | _, _ => false
  end.

(** [v == w] on two lists of floats that share no element object: equal
    lengths and equal elements. *)
Fixpoint list_eq (v w : list pyfloat) : bool :=
  match v, w with
  | [], [] => true
  | x :: v', y :: w' => float_eq x y && list_eq v' w'
  | _, _ => false
  end.

(** The magnitude of the finite float with these bits, counted in units of
    [2 ^ -1074]: the fraction alone for a subnormal number, the fraction
    with its hidden bit, shifted by the exponent, for a normal one. *)
Definition units (bits : N) : N :=
  let e := (bits / 2 ^ 52)%N in
  let m := (bits mod 2 ^ 52)%N in
  if (e =? 0)%N then m else N.shiftl (2 ^ 52 + m) (e - 1).

(** ** Decimal numbers *)

(** The decimal number [D * 10 ^ p], counted in units of [2 ^ -1074], is
    the fraction [numerator D p / denominator p]. *)
Definition numerator (D : N) (p : Z) : Z :=
  Z.shiftl (Z.of_N D * 10 ^ Z.max p 0) 1074.

Definition denominator (p : Z) : Z := (10 ^ Z.max (- p) 0)%Z.

(** The fraction [num / den] compared with [u], exactly. *)
Definition compare_units (num den : Z) (u : N) : comparison :=
  (num ?= Z.of_N u * den)%Z.

(** The bits of the greatest float that is not above [num / den], found
    from the highest of [i] bits down. *)
Fixpoint greatest_below (num den : Z) (i : nat) (bits : N) : N :=
  match i with
  | O => bits
  | S j =>
      let raised := (bits + 2 ^ N.of_nat j)%N in
      match compare_units num den (units raised) with
      | Lt => greatest_below num den j bits
      | _ => greatest_below num den j raised
      end
  end.

(** Rounding to nearest, ties to the even fraction: the bits of the float
    nearest to [D * 10 ^ p]. The encoding goes on above the finite floats
    with the same spacing, so that a number that rounds up from the largest
    float gets [inf_bits]. *)
Definition nearest_bits (D : N) (p : Z) : N :=
  let num := numerator D p in
  let den := denominator p in
  let below := greatest_below num den 63 0 in
  match compare_units (2 * num) den (units below + units (below + 1)) with
  | Lt => below
  | Gt => (below + 1)%N
  | Eq => if N.even below then below else (below + 1)%N
  end.

(** The float that a decimal number is read as. *)
Definition round_decimal (negative : bool) (D : N) (p : Z) : pyfloat :=
  let bits := nearest_bits D p in
  if (bits <? inf_bits)%N then Finite negative bits else Inf negative.

(** ** Digits *)

Definition digit_char (d : N) : ascii := ascii_of_N (48 + d).

Definition is_digit (c : ascii) : bool :=
  let n := N_of_ascii c in ((48 <=? n) && (n <=? 57))%N.

Definition digit_of (c : ascii) : N := (N_of_ascii c - 48)%N.

Fixpoint digits_value_from (acc : N) (s : string) : N :=
  match s with
  | EmptyString => acc
  | String c rest => digits_value_from (acc * 10 + digit_of c) rest
  end.

(** The number written by a string of digits. *)
Definition digits_value (s : string) : N := digits_value_from 0 s.

Fixpoint digits_of_fuel (fuel : nat) (n : N) (acc : string) : string :=
  match fuel with
  | O => acc
  | S fuel' =>
      let acc' := String (digit_char (n mod 10)) acc in
      if (n / 10 =? 0)%N then acc' else digits_of_fuel fuel' (n / 10) acc'
  end.

(** The decimal digits of [n], without leading zeros; ["0"] for zero. *)
Definition digits_of (n : N) : string :=
  digits_of_fuel (S (N.to_nat (N.log2 n))) n EmptyString.

(** [s] without its trailing zeros. *)
Fixpoint trimmed (s : string) : string :=
  match s with
  | EmptyString => EmptyString
  | String c rest =>
      match trimmed rest with
      | EmptyString => if Ascii.eqb c "0" then EmptyString else String c EmptyString
      | rest' => String c rest'
      end
  end.

Fixpoint zeros (n : nat) : string :=
  match n with
  | O => EmptyString
  | S n' => String "0" (zeros n')
  end.

(** [s[n:]] *)
Fixpoint drop (n : nat) (s : string) : string :=
  match n, s with
  | O, _ => s
  | S _, EmptyString => EmptyString
  | S n', String _ rest => drop n' rest
  end.

(** ** [str(x)], which for a float is [repr(x)] *)

(** The magnitude as a whole number of units of [10 ^ -1074]: its decimal
    expansion ends there. *)
Definition exact_digits (bits : N) : N := (units bits * 5 ^ 1074)%N.

(** The shortest decimal number that [float] reads as the float with these
    bits: with [t] digits of the exact expansion [W] dropped, the nearer of
    the two neighbours that reads back (the even one when they are equally
    near), else the other one if that reads back, else one digit more. With
    no digit dropped the number is the float itself. *)
Fixpoint shortest (bits W : N) (t : nat) : N * Z :=
  match t with
  | O => (W, (- 1074)%Z)
  | S t' =>
      let scale := (10 ^ N.of_nat t)%N in
      let lo := (W / scale)%N in
      let hi := (lo + 1)%N in
      let near :=
        match (2 * (W mod scale) ?= scale)%N with
        | Lt => lo
        | Gt => hi
        | Eq => if N.even lo then lo else hi
        end in
      let far := if (near =? lo)%N then hi else lo in
      let texp := (Z.of_nat t - 1074)%Z in
      if (nearest_bits near texp =? bits)%N then (near, texp)
      else if (nearest_bits far texp =? bits)%N then (far, texp)
      else shortest bits W t'
  end.

(** The exponent of the scientific notation: a sign and two digits at
    least. *)
Definition exponent_text (e : Z) : string :=
  let digits := digits_of (Z.abs_N e) in
  ((if (e <? 0)%Z then "-" else "+")
   ++ (if (String.length digits <? 2)%nat then "0" ++ digits else digits))%string.

(** The digits [ds] with the decimal point after the first [decpt] of them
    (before them all when [decpt <= 0]), the way [repr] lays them out:
    scientific notation when [decpt] is above 16 or below -3, and [.0]
    after a whole number. *)
Definition format_digits (ds : string) (decpt : Z) : string :=
  let n := Z.of_nat (String.length ds) in
  if ((decpt <=? - 4) || (16 <? decpt))%Z then
    match ds with
    | EmptyString => EmptyString
    | String d EmptyString =>
        (String d EmptyString ++ "e" ++ exponent_text (decpt - 1))%string
    | String d rest =>
        (String d EmptyString ++ "." ++ rest ++ "e"
         ++ exponent_text (decpt - 1))%string
    end
  else if (decpt <=? 0)%Z then
    ("0." ++ zeros (Z.to_nat (- decpt)) ++ ds)%string
  else if (n <=? decpt)%Z then
    (ds ++ zeros (Z.to_nat (decpt - n)) ++ ".0")%string
  else
    (take (Z.to_nat decpt) ds ++ "." ++ drop (Z.to_nat decpt) ds)%string.

Fixpoint count_digits (fuel : nat) (n power : N) (count : nat) : nat :=
  match fuel with
  | O => count
  | S fuel' =>
      if (n <? power)%N then count
      else count_digits fuel' n (power * 10) (S count)
  end.

(** The number of decimal digits of [n]; 1 for zero. *)
Definition digit_count (n : N) : nat :=
  count_digits (N.to_nat (N.log2 n)) n 10 1.

(** The text of the magnitude of a finite float. *)
Definition magnitude_str (bits : N) : string :=
  if (bits =? 0)%N then "0.0"
  else
    let W := exact_digits bits in
    let '(c, texp) := shortest bits W (digit_count W - 1) in
    let all := digits_of c in
    format_digits (trimmed all) (Z.of_nat (String.length all) + texp).

(** [str(x)] *)
Definition float_str (x : pyfloat) : string :=
  match x with
  | Nan => "nan"
  | Inf negative => if negative then "-inf" else "inf"
  | Finite negative bits =>
      if negative then ("-" ++ magnitude_str bits)%string else magnitude_str bits
  end.

(** ** [float(s)] *)

(** The white space [float] strips: the ASCII one. *)
Definition float_spaces : list ascii :=
  [ "009"%char; "010"%char; "011"%char; "012"%char; "013"%char; " "%char ].

(** Before anything else, a space outside ASCII becomes a blank; of the
    characters a [string] holds these are U+0085 and U+00A0. *)
Definition to_ascii_space (c : ascii) : ascii :=
  if (N_of_ascii c =? 133)%N || (N_of_ascii c =? 160)%N then " "%char else c.

Fixpoint map_chars (f : ascii -> ascii) (s : string) : string :=
  match s with
  | EmptyString => EmptyString
  | String c rest => String (f c) (map_chars f rest)
  end.

(** Underscores may stand between two digits and nowhere else; they are
    removed. [None] where the text is refused. *)
Fixpoint without_underscores (prev : ascii) (s : string) : option string :=
  match s with
  | EmptyString => if Ascii.eqb prev "_" then None else Some EmptyString
  | String c rest =>
      if Ascii.eqb c "_" then
        if is_digit prev then without_underscores c rest else None
      else if Ascii.eqb prev "_" && negb (is_digit c) then None
      else
        match without_underscores c rest with
        | Some rest' => Some (String c rest')
        | None => None
        end
  end.

(** The longest prefix of digits, and what follows it. *)
Fixpoint read_digits (s : string) : string * string :=
  match s with
  | EmptyString => (EmptyString, EmptyString)
  | String c rest =>
      if is_digit c then
        let '(digits, after) := read_digits rest in (String c digits, after)
      else (EmptyString, s)
  end.

(** A decimal number without its sign: digits with at most one point and at
    least one digit, then perhaps an exponent, and nothing more. The number
    read is [D * 10 ^ p]. *)
Definition parse_number (body : string) : option (N * Z) :=
  let '(whole, after_whole) := read_digits body in
  let '(fraction, after_fraction) :=
    match after_whole with
    | String "." rest => read_digits rest
    | _ => (EmptyString, after_whole)
    end in
  let D := digits_value (whole ++ fraction) in
  let shift := Z.of_nat (String.length fraction) in
  match whole, fraction with
  | EmptyString, EmptyString => None
  | _, _ =>
      match after_fraction with
      | EmptyString => Some (D, (- shift)%Z)
      | String c rest =>
          if Ascii.eqb c "e" || Ascii.eqb c "E" then
            let '(negative, rest') :=
              match rest with
              | String "-" r => (true, r)
              | String "+" r => (false, r)
              | _ => (false, rest)
              end in
            match read_digits rest' with
            | (String d ds, EmptyString) =>
                let e := Z.of_N (digits_value (String d ds)) in
                Some (D, ((if negative then - e else e) - shift)%Z)
            | _ => None
            end
          else None
      end
  end.

Definition ascii_lower (c : ascii) : ascii :=
  let n := N_of_ascii c in
  if ((65 <=? n) && (n <=? 90))%N then ascii_of_N (n + 32) else c.

(** [float(s)]; [None] where it raises [ValueError]. *)
Definition float_parse (s : string) : option pyfloat :=
  let stripped := strip_chars float_spaces (map_chars to_ascii_space s) in
  match without_underscores "000"%char stripped with
  | None => None
  | Some text =>
      let '(negative, body) :=
        match text with
        | String "-" rest => (true, rest)
        | String "+" rest => (false, rest)
        | _ => (false, text)
        end in
      match parse_number body with
      | Some (D, p) => Some (round_decimal negative D p)
      | None =>
          let word := map_chars ascii_lower body in
          if String.eqb word "inf" || String.eqb word "infinity"
          then Some (Inf negative)
          else if String.eqb word "nan" then Some Nan
          else None
      end
  end.

End PyFloat.
(* ===================================================================== *)
(** * Data model: models.py, the provider libraries, the world *)
(* ===================================================================== *)

Module Types.
Import Py PyFloat.

(** An embedding vector, [List[float]]. *)
Definition vector : Type := list pyfloat.

Definition timestamp : Type := Z.

(** [input=] of an embedding call: one text or a batch. *)
Inductive embed_input : Type :=
| OneText (text : string)
| ManyTexts (texts : list string).

(** The [sentence_transformers] model: [encode] on a text and on a list. *)
Record SentenceTransformer : Type := {
  encode : string -> result vector;
  encode_all : list string -> result (list vector)
}.

(** The OpenAI client: [embeddings.create(model=, input=)]; the answer is
    the list of [item.embedding] for [item] in [response.data]. *)
Record OpenAI : Type := {
  embeddings_create : string -> embed_input -> result (list vector)
}.

Inductive mode : Type := LOCAL | OPENAI.

(** [EmbeddingService], the fields [__init__] sets. *)
Record EmbeddingService : Type := {
  svc_mode : mode;
  model_name : string;
  dimensions : Z;
  max_tokens : Z;
  model : option SentenceTransformer;
  client : option OpenAI
}.

(** One entry of [searchResults]; a missing key is [None]. *)
Record search_result : Type := {
  sr_title : option string;
  sr_url : option string;
  sr_snippet : option string;
  sr_date : option string
}.

(** One entry of [relationships]. *)
Record relationship : Type := {
  rel_type : option string;
  rel_relatedEntity : option string
}.

(** models.py, [Conversation], [Message], [PatientMemory]. *)
Record Conversation : Type := {
  conv_id : string;
  conv_user_id : option string;
  conv_title : string;
  conv_is_guest : bool;
  conv_created_at : timestamp;
  conv_updated_at : timestamp
}.

Record Message : Type := {
  msg_id : string;
  msg_conversation_id : string;
  msg_role : string;
  msg_content : string;
  msg_citations : option (list string);
  msg_search_results : option (list search_result);
  msg_content_embedding : option vector;
  msg_model : option string;
  msg_created_at : timestamp
}.

Record PatientMemory : Type := {
  mem_id : string;
  mem_user_id : string;
  mem_entity_type : string;
  mem_entity_name : string;
  mem_relationships : option (list relationship);
  mem_entity_metadata : option dict;
  mem_content_embedding : option vector;
  mem_conversation_id : option string;
  mem_created_at : timestamp;
  mem_updated_at : timestamp
}.

(** A row of the SQL function [search_similar_patient_memories]. *)
Record memory_row : Type := {
  mrow_id : string;
  mrow_user_id : string;
  mrow_entity_type : string;
  mrow_entity_name : string;
  mrow_relationships : option (list relationship);
  mrow_metadata : option dict;
  mrow_conversation_id : option string;
  mrow_similarity : Q
}.

(** A row of the SQL function [search_similar_messages]. *)
Record message_row : Type := {
  row_id : string;
  row_conversation_id : string;
  row_role : string;
  row_content : string;
  row_citations : option (list string);
  row_search_results : option (list search_result);
  row_model : option string;
  row_created_at : option timestamp;
  row_similarity : Q
}.

(** The dictionaries the similarity searches return. In a memory match the
    keys that [perplexity.py] reads with a default may be missing; the
    similarity is a float in [[0, 1]]. *)
Record memory_match : Type := {
  mm_id : string;
  mm_userId : string;
  mm_entityType : option string;
  mm_entityName : option string;
  mm_relationships : option (list relationship);
  mm_metadata : option dict;
  mm_conversationId : option string;
  mm_similarity : option Q
}.

Record message_match : Type := {
  mt_id : string;
  mt_conversationId : string;
  mt_role : string;
  mt_content : string;
  mt_citations : option (list string);
  mt_searchResults : option (list search_result);
  mt_model : option string;
  mt_createdAt : option string;
  mt_similarity : Q
}.

(** Calls that leave the process. *)
Inductive external_call : Type :=
| CallEncode (text : string)
| CallEncodeAll (texts : list string)
| CallEmbeddingsCreate (model_name : string) (input : embed_input)
| CallSearchMemories (query_embedding : option vector) (user_id : string)
    (match_threshold match_count : Q)
| CallSearchMessages (query_embedding : option vector)
    (conversation_id : option string) (match_threshold match_count : Q).

(** Writes of an open transaction. *)
Inductive db_write : Type :=
| AddMessage (m : Message)
| AddPatientMemory (p : PatientMemory)
| TouchConversation (conversation_id : string) (updated_at : timestamp).

Record database : Type := {
  conversations : list Conversation;
  messages : list Message;
  patient_memory : list PatientMemory
}.

(** Everything a call can change. *)
Record world : Type := {
  calls : list external_call;          (* oldest first *)
  instance : option EmbeddingService;  (* [_embedding_service_instance] *)
  db : database;                       (* committed rows *)
  pending : list db_write;             (* the session's open transaction *)
  ids_drawn : nat;                     (* random identifiers used so far *)
  clock_reads : nat                    (* readings of the clock so far *)
}.

(** What the collaborators answer. *)
Record externals : Type := {
  embedding_mode : string;   (* [os.getenv('EMBEDDING_MODE', 'LOCAL').upper()] *)
  openai_api_key : option string;          (* [os.getenv('OPENAI_API_KEY')] *)
  (* the two libraries, [None] when the import failed; the constructors
     [SentenceTransformer(model_name)] and [OpenAI(api_key=...)] *)
  sentence_transformers : option (string -> result SentenceTransformer);
  openai : option (string -> result OpenAI);
  sql_search_patient_memories :
    option vector -> string -> Q -> Q -> result (list memory_row);
  sql_search_messages :
    option vector -> option string -> Q -> Q -> result (list message_row);
  nanoid : nat -> nat -> string;           (* n-th draw, of a given size *)
  clock : nat -> timestamp;                (* n-th reading *)
  isoformat : timestamp -> string
}.

End Types.

(* ===================================================================== *)
(** * Computations over the world *)
(* ===================================================================== *)

Module Run.
Import Py Types.

(** A computation reads and changes the world and returns or raises.
    What it changed before raising stays changed. *)
Definition M (A : Type) : Type := world -> result A * world.

Definition ret {A : Type} (a : A) : M A := fun w => (inr a, w).

Definition raise {A : Type} (e : exn) : M A := fun w => (inl e, w).

Definition bind {A B : Type} (c : M A) (k : A -> M B) : M B :=
  fun w =>
    match c w with
    | (inr a, w') => k a w'
    | (inl e, w') => (inl e, w')
    end.

(** [try: c  except Exception as e: handler e] *)
Definition try_except {A : Type} (c : M A) (handler : exn -> M A) : M A :=
  fun w =>
    match c w with
    | (inr a, w') => (inr a, w')
    | (inl e, w') => handler e w'
    end.

(** The outcome of a pure call that may raise. *)
Definition lift {A : Type} (r : result A) : M A := fun w => (r, w).

Declare Scope run_scope.
Delimit Scope run_scope with run.
Notation "x <- c ;; k" := (bind c (fun x => k))
  (at level 61, c at next level, right associativity) : run_scope.
Notation "c ;;; k" := (bind c (fun _ => k))
  (at level 61, right associativity) : run_scope.

Definition record_call (c : external_call) : M unit :=
  fun w => (inr tt,
            {| calls := calls w ++ [c]; instance := instance w; db := db w;
               pending := pending w; ids_drawn := ids_drawn w;
               clock_reads := clock_reads w |}).

Definition set_instance (s : EmbeddingService) : M unit :=
  fun w => (inr tt,
            {| calls := calls w; instance := Some s; db := db w;
               pending := pending w; ids_drawn := ids_drawn w;
               clock_reads := clock_reads w |}).

Definition get_instance : M (option EmbeddingService) :=
  fun w => (inr (instance w), w).

(** The loops below build a list with [append]. *)
Definition append {A : Type} (l : list A) (x : A) : list A := l ++ [x].

End Run.

(* ===================================================================== *)
(** * services/embedding_service.py *)
(* ===================================================================== *)

Module Embedding.
Import Py PyFloat Types Run.
Local Open Scope run_scope.

Record mode_config : Type := {
  cfg_model : string;
  cfg_dimensions : Z;
  cfg_max_tokens : Z;
  cfg_requires_api_key : bool
}.

(** [EmbeddingService.MODES] *)
Definition MODES (m : mode) : mode_config :=
  match m with
  | LOCAL => {| cfg_model := "all-MiniLM-L6-v2"; cfg_dimensions := 384;
                cfg_max_tokens := 512; cfg_requires_api_key := false |}
  | OPENAI => {| cfg_model := "text-embedding-3-small"; cfg_dimensions := 1536;
                 cfg_max_tokens := 8191; cfg_requires_api_key := true |}
  end.

Definition mode_of_name (name : string) : option mode :=
  if String.eqb name "LOCAL" then Some LOCAL
  else if String.eqb name "OPENAI" then Some OPENAI
  else None.

Section Service.
Variable ext : externals.

(** [__init__], from the point where [self.mode] is known:
    [mode_name] is [mode or os.getenv('EMBEDDING_MODE', 'LOCAL').upper()]. *)
Definition init (mode_name : string) (api_key : option string)
  : result EmbeddingService :=
  match mode_of_name mode_name with
  | None => inl (ValueError "Invalid mode. Must be 'LOCAL' or 'OPENAI'")
  | Some LOCAL =>
      (* _init_local *)
      match sentence_transformers ext with
      | None => inl (ImportError "sentence-transformers not installed!")
      | Some load =>
          match load (cfg_model (MODES LOCAL)) with
          | inl _ => inl (RuntimeError "Failed to load local model")
          | inr m =>
              inr {| svc_mode := LOCAL;
                     model_name := cfg_model (MODES LOCAL);
                     dimensions := cfg_dimensions (MODES LOCAL);
                     max_tokens := cfg_max_tokens (MODES LOCAL);
                     model := Some m; client := None |}
          end
      end
  | Some OPENAI =>
      (* _init_openai *)
      match openai ext with
      | None => inl (ImportError "openai package not installed!")
      | Some connect =>
          let key := match api_key with
                     | Some k => if truthy k then Some k else openai_api_key ext
                     | None => openai_api_key ext
                     end in
          match key with
          | Some k =>
              if truthy k then
                match connect k with
                | inl _ => inl (RuntimeError "Failed to initialize OpenAI client")
                | inr c =>
                    inr {| svc_mode := OPENAI;
                           model_name := cfg_model (MODES OPENAI);
                           dimensions := cfg_dimensions (MODES OPENAI);
                           max_tokens := cfg_max_tokens (MODES OPENAI);
                           model := None; client := Some c |}
                end
              else inl (ValueError "OPENAI_API_KEY is required for OPENAI mode.")
          | None => inl (ValueError "OPENAI_API_KEY is required for OPENAI mode.")
          end
      end
  end.

(** [get_embedding_service]: the singleton, built on first use. *)
Definition get_embedding_service : M EmbeddingService :=
  current <- get_instance ;;
  match current with
  | Some s => ret s
  | None =>
      s <- lift (init (embedding_mode ext) None) ;;
      set_instance s ;;;
      ret s
  end.
End Service.

(** [_generate_local] *)
Definition _generate_local (self : EmbeddingService) (text : string) : M vector :=
  match model self with
  | None => raise (RuntimeError "Model not initialized")
  | Some m =>
      record_call (CallEncode text) ;;;
      lift (encode m text)
  end.

(** [_generate_openai] *)
Definition _generate_openai (self : EmbeddingService) (text : string) : M vector :=
  match client self with
  | None => raise (RuntimeError "OpenAI client not initialized")
  | Some c =>
      let truncated_text := slice_to (max_tokens self * 4) text in
      record_call (CallEmbeddingsCreate (model_name self) (OneText truncated_text)) ;;;
      data <- lift (embeddings_create c (model_name self) (OneText truncated_text)) ;;
      match data with
      | first :: _ => ret first
      | [] => raise IndexError
      end
  end.

(** [generate_embedding] *)
Definition generate_embedding (self : EmbeddingService) (text : string)
  : M (option vector) :=
  if negb (truthy text) || negb (truthy (strip text))
  then raise (ValueError "Text cannot be empty")
  else
    try_except
      (match svc_mode self with
       | LOCAL => v <- _generate_local self text ;; ret (Some v)
       | OPENAI => v <- _generate_openai self text ;; ret (Some v)
       end)
      (fun _ => ret None).

(** [_generate_batch_local] *)
Definition _generate_batch_local (self : EmbeddingService) (texts : list string)
  : M (list (option vector)) :=
  match model self with
  | None => raise (RuntimeError "Model not initialized")
  | Some m =>
      let valid_texts :=
        map (fun t => if truthy t then strip t else "") texts in
      record_call (CallEncodeAll valid_texts) ;;;
      embeddings <- lift (encode_all m valid_texts) ;;
      ret (map Some embeddings)
  end.

(** [_generate_batch_openai] *)
Definition _generate_batch_openai (self : EmbeddingService) (texts : list string)
  : M (list (option vector)) :=
  match client self with
  | None => raise (RuntimeError "OpenAI client not initialized")
  | Some c =>
      let valid_texts :=
        map (fun t => if truthy t && truthy (strip t)
                      then slice_to (max_tokens self * 4) (strip t)
                      else "empty") texts in
      record_call (CallEmbeddingsCreate (model_name self) (ManyTexts valid_texts)) ;;;
      data <- lift (embeddings_create c (model_name self) (ManyTexts valid_texts)) ;;
      ret (map Some data)
  end.

(** [generate_embeddings_batch] *)
Definition generate_embeddings_batch (self : EmbeddingService) (texts : list string)
  : M (list (option vector)) :=
  match texts with
  | [] => raise (ValueError "Texts list cannot be empty")
  | _ =>
      try_except
        (match svc_mode self with
         | LOCAL => _generate_batch_local self texts
         | OPENAI => _generate_batch_openai self texts
         end)
        (fun _ => ret (repeat None (List.length texts)))
  end.

(** The text [generate_patient_memory_embedding] embeds. *)
Definition patient_memory_text (entity_name entity_type : string)
    (relationships : option (list relationship)) (metadata : option dict)
  : string :=
  let text_parts := [(entity_type ++ ": " ++ entity_name)%string] in
  let text_parts :=
    match relationships with
    | Some (_ :: _ as rels) =>
        let rel_summaries :=
          fold_left
            (fun acc rel =>
               let rel_type := get (rel_type rel) "" in
               let related_entity := get (rel_relatedEntity rel) "" in
               if truthy rel_type && truthy related_entity
               then append acc (rel_type ++ " " ++ related_entity)%string
               else acc)
            rels [] in
        match rel_summaries with
        | [] => text_parts
        | _ => append text_parts ("Relationships: " ++ join ", " rel_summaries)%string
        end
    | _ => text_parts
    end in
  let text_parts :=
    match metadata with
    | Some (_ :: _ as md) =>
        let p1 := match lookup "description" md with
                  | Some d => append text_parts ("Description: " ++ d)%string
                  | None => text_parts
                  end in
        let p2 := match lookup "severity" md with
                  | Some v => append p1 ("Severity: " ++ v)%string
                  | None => p1
                  end in
        match lookup "status" md with
        | Some v => append p2 ("Status: " ++ v)%string
        | None => p2
        end
    | _ => text_parts
    end in
  join ". " text_parts.

(** [generate_patient_memory_embedding] *)
Definition generate_patient_memory_embedding (self : EmbeddingService)
    (entity_name entity_type : string)
    (relationships : option (list relationship)) (metadata : option dict)
  : M (option vector) :=
  generate_embedding self
    (patient_memory_text entity_name entity_type relationships metadata).

(** The text [generate_message_embedding] embeds. *)
Definition message_text (content : string)
    (search_results : option (list search_result)) : string :=
  let text_parts := [content] in
  let text_parts :=
    match search_results with
    | Some (_ :: _ as results) =>
        let snippets :=
          fold_left
            (fun acc result =>
               match sr_snippet result with
               | Some s => append acc s
               | None => acc
               end)
            (firstn 3 results) [] in
        match snippets with
        | [] => text_parts
        | _ => append text_parts ("Context: " ++ join " " snippets)%string
        end
    | _ => text_parts
    end in
  join ". " text_parts.

(** [generate_message_embedding]; [role] and [citations] are not used. *)
Definition generate_message_embedding (self : EmbeddingService)
    (content role : string) (citations : option (list string))
    (search_results : option (list search_result)) : M (option vector) :=
  generate_embedding self (message_text content search_results).

(** [vector_to_string] *)
Definition vector_to_string (embedding : vector) : string :=
  ("[" ++ join "," (map float_str embedding) ++ "]")%string.

(** [[float(x) for x in parts]] *)
Fixpoint floats_of (parts : list string) : result vector :=
  match parts with
  | [] => inr []
  | x :: rest =>
      match float_parse x with
      | None => inl (ValueError "could not convert string to float")
      | Some f =>
          match floats_of rest with
          | inl e => inl e
          | inr fs => inr (f :: fs)
          end
      end
  end.

(** [string_to_vector] *)
Definition string_to_vector (embedding_str : string) : result vector :=
  let cleaned := strip_chars [ "["%char; "]"%char ] embedding_str in
  floats_of (split ","%char cleaned).

End Embedding.

(* ===================================================================== *)
(** * services/db_operations.py *)
(* ===================================================================== *)

Module DbOperations.
Import Py Types Run Embedding.
Local Open Scope run_scope.

(** The session [db: Session] every function takes is the world's database
    together with its open transaction. *)
Section WithExternals.
Variable ext : externals.

(** utils/datetime_utils.py, [now_utc] *)
Definition now_utc : M timestamp :=
  fun w => (inr (clock ext (clock_reads w)),
            {| calls := calls w; instance := instance w; db := db w;
               pending := pending w; ids_drawn := ids_drawn w;
               clock_reads := S (clock_reads w) |}).

(** utils/auth.py, [generate_id] *)
Definition generate_id (prefix : string) : M string :=
  fun w =>
    let random_id := nanoid ext (ids_drawn w) 8 in
    (inr (if truthy prefix then (prefix ++ "_" ++ random_id)%string else random_id),
     {| calls := calls w; instance := instance w; db := db w;
        pending := pending w; ids_drawn := S (ids_drawn w);
        clock_reads := clock_reads w |}).

(** [db.add(...)] and [db.execute(update(...))]: a write of the open
    transaction. *)
Definition db_write_op (op : db_write) : M unit :=
  fun w => (inr tt,
            {| calls := calls w; instance := instance w; db := db w;
               pending := pending w ++ [op]; ids_drawn := ids_drawn w;
               clock_reads := clock_reads w |}).

Definition touch (conversation_id : string) (at_time : timestamp)
    (c : Conversation) : Conversation :=
  if String.eqb (conv_id c) conversation_id
  then {| conv_id := conv_id c; conv_user_id := conv_user_id c;
          conv_title := conv_title c; conv_is_guest := conv_is_guest c;
          conv_created_at := conv_created_at c; conv_updated_at := at_time |}
  else c.

Definition apply_write (d : database) (op : db_write) : database :=
  match op with
  | AddMessage m =>
      {| conversations := conversations d; messages := messages d ++ [m];
         patient_memory := patient_memory d |}
  | AddPatientMemory p =>
      {| conversations := conversations d; messages := messages d;
         patient_memory := patient_memory d ++ [p] |}
  | TouchConversation cid t =>
      {| conversations := map (touch cid t) (conversations d);
         messages := messages d; patient_memory := patient_memory d |}
  end.

(** models.py declares the two embedding columns [Vector(384)]: when a
    row is written, the driver refuses an embedding of any other dimension;
    [None] is stored as NULL. *)
Definition embedding_dimension : nat := 384.

Definition accepted (embedding : option vector) : bool :=
  match embedding with
  | Some v => Nat.eqb (List.length v) embedding_dimension
  | None => true
  end.

(** The write of a row's embedding at the flush that precedes a commit:
    it raises where the driver refuses the vector, and the transaction stays
    open. Rows added earlier in the transaction are taken as written. *)
Definition db_flush_embedding (embedding : option vector) : M unit :=
  if accepted embedding then ret tt
  else raise (Failure "expected 384 dimensions").

(** [db.commit()] is the flush above followed by this step, which makes the
    pending rows of a transaction that the store has taken part of the
    database. Losing the connection or a key that exists already are
    outside this model. *)
Definition db_commit : M unit :=
  fun w => (inr tt,
            {| calls := calls w; instance := instance w;
               db := fold_left apply_write (pending w) (db w);
               pending := []; ids_drawn := ids_drawn w;
               clock_reads := clock_reads w |}).

(** The attempt inside the [try] of [create_message]. *)
Definition message_embedding_attempt (role content : string)
    (citations : option (list string))
    (search_results : option (list search_result)) : M (option vector) :=
  embedding_service <- get_embedding_service ext ;;
  generate_message_embedding embedding_service content role citations
    search_results.

(** [create_message] *)
Definition create_message (conversation_id role content : string)
    (citations : option (list string))
    (search_results : option (list search_result))
    (model : option string) (generate_embedding : bool) : M Message :=
  content_embedding <-
    (if generate_embedding && truthy content && truthy (strip content)
     then try_except
            (message_embedding_attempt role content citations search_results)
            (fun _ => ret None)
     else ret None) ;;
  new_id <- generate_id "msg" ;;
  created <- now_utc ;;
  let message :=
    {| msg_id := new_id; msg_conversation_id := conversation_id;
       msg_role := role; msg_content := content;
       msg_citations := citations; msg_search_results := search_results;
       msg_content_embedding := content_embedding; msg_model := model;
       msg_created_at := created |} in
  db_write_op (AddMessage message) ;;;
  updated <- now_utc ;;
  db_write_op (TouchConversation conversation_id updated) ;;;
  db_flush_embedding content_embedding ;;;
  db_commit ;;;
  ret message.

(** The attempt inside the [try] of [create_patient_memory]. *)
Definition memory_embedding_attempt (entity_name entity_type : string)
    (relationships : option (list relationship)) (metadata : option dict)
  : M (option vector) :=
  embedding_service <- get_embedding_service ext ;;
  generate_patient_memory_embedding embedding_service entity_name entity_type
    relationships metadata.

(** [create_patient_memory] *)
Definition create_patient_memory (user_id entity_type entity_name : string)
    (relationships : option (list relationship)) (metadata : option dict)
    (conversation_id : option string) (generate_embedding : bool)
  : M PatientMemory :=
  content_embedding <-
    (if generate_embedding && truthy entity_name && truthy (strip entity_name)
     then try_except
            (memory_embedding_attempt entity_name entity_type relationships
               metadata)
            (fun _ => ret None)
     else ret None) ;;
  new_id <- generate_id "mem" ;;
  created <- now_utc ;;
  updated <- now_utc ;;
  let memory :=
    {| mem_id := new_id; mem_user_id := user_id;
       mem_entity_type := entity_type; mem_entity_name := entity_name;
       mem_relationships := relationships; mem_entity_metadata := metadata;
       mem_content_embedding := content_embedding;
       mem_conversation_id := conversation_id;
       mem_created_at := created; mem_updated_at := updated |} in
  db_write_op (AddPatientMemory memory) ;;;
  db_flush_embedding content_embedding ;;;
  db_commit ;;;
  ret memory.

(** The body of the [try] of [search_similar_patient_memories]. *)
Definition memory_search_attempt (query_text user_id : string)
    (match_threshold match_count : Q) : M (list memory_match) :=
  embedding_service <- get_embedding_service ext ;;
  query_embedding <- generate_embedding embedding_service query_text ;;
  record_call (CallSearchMemories query_embedding user_id match_threshold
                 match_count) ;;;
  result <- lift (sql_search_patient_memories ext query_embedding user_id
                    match_threshold match_count) ;;
  ret (fold_left
         (fun memories row =>
            append memories
              {| mm_id := mrow_id row;
                 mm_userId := mrow_user_id row;
                 mm_entityType := Some (mrow_entity_type row);
                 mm_entityName := Some (mrow_entity_name row);
                 mm_relationships := mrow_relationships row;
                 mm_metadata := mrow_metadata row;
                 mm_conversationId := mrow_conversation_id row;
                 mm_similarity := Some (mrow_similarity row) |})
         result []).

(** [search_similar_patient_memories] *)
Definition search_similar_patient_memories (query_text user_id : string)
    (match_threshold match_count : Q) : M (list memory_match) :=
  try_except
    (memory_search_attempt query_text user_id match_threshold match_count)
    (fun _ => ret []).

(** The body of the [try] of [search_similar_messages]. *)
Definition message_search_attempt (query_text : string)
    (conversation_id : option string) (match_threshold match_count : Q)
  : M (list message_match) :=
  embedding_service <- get_embedding_service ext ;;
  query_embedding <- generate_embedding embedding_service query_text ;;
  record_call (CallSearchMessages query_embedding conversation_id
                 match_threshold match_count) ;;;
  result <- lift (sql_search_messages ext query_embedding conversation_id
                    match_threshold match_count) ;;
  ret (fold_left
         (fun messages row =>
            append messages
              {| mt_id := row_id row;
                 mt_conversationId := row_conversation_id row;
                 mt_role := row_role row;
                 mt_content := row_content row;
                 mt_citations := row_citations row;
                 mt_searchResults := row_search_results row;
                 mt_model := row_model row;
                 mt_createdAt := option_map (isoformat ext) (row_created_at row);
                 mt_similarity := row_similarity row |})
         result []).

(** [search_similar_messages] *)
Definition search_similar_messages (query_text : string)
    (conversation_id : option string) (match_threshold match_count : Q)
  : M (list message_match) :=
  try_except
    (message_search_attempt query_text conversation_id match_threshold
       match_count)
    (fun _ => ret []).

End WithExternals.

End DbOperations.

(* ===================================================================== *)
(** * services/perplexity.py *)
(* ===================================================================== *)

Module Perplexity.
Import Types Run.
Local Open Scope run_scope.

(** A chat message, [{"role": ..., "content": ...}]. *)
Record message := mkMessage { role : string; content : string }.

Definition system_role : string := "system".

Definition is_system (m : message) : bool := String.eqb (role m) system_role.

(** [last['content'] += f"\n{extra}"] *)
Definition append_content (last : message) (extra : string) : message :=
  mkMessage (role last) (content last ++ Py.nl ++ extra).

(** [build_session_context]: the last [max_messages] turns, re-built as
    role/content pairs. [messages[-0:]] is the whole list. *)
Definition build_session_context (messages : list message) (max_messages : nat)
  : list message :=
  let recent :=
    if Nat.ltb max_messages (List.length messages)
    then match max_messages with
         | O => messages
         | _ => skipn (List.length messages - max_messages) messages
         end
    else messages in
  map (fun msg => mkMessage (role msg) (content msg)) recent.

(** routes/chat.py, [send_message]: the new user turn is appended to the
    session context, or merged into a trailing user turn. *)
Definition messages_for_api (session_context : list message) (text : string)
  : list message :=
  let new_user_message := mkMessage "user" text in
  match Py.last_item session_context with
  | Some last_msg =>
      if String.eqb (role last_msg) "user"
      then Py.set_last session_context
             (append_content last_msg (content new_user_message))
      else session_context ++ [new_user_message]
  | None => session_context ++ [new_user_message]
  end.

(** Body of the first loop of [call_perplexity]:
    merge consecutive turns of one non-system role. *)
Definition normalize_step (normalized : list message) (msg : message)
  : list message :=
  match Py.last_item normalized with
  | Some last =>
      if String.eqb (role last) (role msg) && negb (is_system msg)
      then Py.set_last normalized (append_content last (content msg))
      else normalized ++ [msg]
  | None => normalized ++ [msg]
  end.

Definition normalize (messages : list message) : list message :=
  fold_left normalize_step messages [].

(** The system prompt first, then every non-system turn. *)
Definition final_messages (system_prompt : string) (normalized : list message)
  : list message :=
  mkMessage system_role system_prompt
    :: filter (fun m => negb (is_system m)) normalized.

(** Body of the second loop: merge any two neighbours of one role. *)
Definition validate_step (validated : list message) (current : message)
  : list message :=
  match Py.last_item validated with
  | Some last =>
      if String.eqb (role last) (role current)
      then Py.set_last validated (append_content last (content current))
      else validated ++ [current]
  | None => validated ++ [current]
  end.

(** [validated_messages = [final[0]]], then the loop over [final[1:]].
    [final] always starts with the system entry, so [final[0]] exists. *)
Definition ensure_alternating (final : list message) : list message :=
  match final with
  | [] => []
  | first :: rest => fold_left validate_step rest [first]
  end.

(** The message list [call_perplexity] sends to the model. *)
Definition validated_messages (system_prompt : string) (messages : list message)
  : list message :=
  ensure_alternating (final_messages system_prompt (normalize messages)).

(** The request of one chat turn: history, new user text, system prompt. *)
Definition build_request (history : list message) (max_messages : nat)
    (text system_prompt : string) : list message :=
  validated_messages system_prompt
    (messages_for_api (build_session_context history max_messages) text).

(** No two neighbours of one role. *)
Fixpoint alternating (l : list message) : bool :=
  match l with
  | a :: (b :: _) as t => negb (String.eqb (role a) (role b)) && alternating t
  | _ => true
  end.

(** The normalized form: a leading system entry, no two neighbours of one
    role. *)
Definition normalized_form (l : list message) : Prop :=
  (exists first rest, l = first :: rest /\ role first = system_role)
  /\ alternating l = true.

(** [call_perplexity], the loop over [search_results_raw]: an entry is
    re-built with its four keys when its url and title are not blank. *)
Definition search_results_step (search_results : list search_result)
    (result : search_result) : list search_result :=
  let url := Py.get (sr_url result) "" in
  let title := Py.get (sr_title result) "" in
  let snippet := Py.get (sr_snippet result) "" in
  let date := sr_date result in
  if Py.truthy url && Py.truthy (Py.strip url)
     && Py.truthy title && Py.truthy (Py.strip title)
  then search_results
         ++ [ {| sr_title := Some title; sr_url := Some url;
                 sr_snippet := Some snippet; sr_date := date |} ]
  else search_results.

Definition extract_search_results (search_results_raw : list search_result)
  : list search_result :=
  fold_left search_results_step search_results_raw [].

(** [build_patient_memory_prompt_from_vector], the line of one match. *)
Definition memory_line (result : memory_match) : string :=
  let entity_name := Py.get (mm_entityName result) "" in
  let entity_type := Py.get (mm_entityType result) "" in
  let line := ("- " ++ entity_name ++ " (" ++ entity_type ++ ")")%string in
  let line :=
    match mm_relationships result with
    | Some (_ :: _ as relationships) =>
        let rel_parts :=
          fold_left
            (fun acc rel =>
               let rel_type := Py.get (rel_type rel) "" in
               let related_entity := Py.get (rel_relatedEntity rel) "" in
               if Py.truthy rel_type && Py.truthy related_entity
               then acc ++ [(rel_type ++ " " ++ related_entity)%string]
               else acc)
            relationships [] in
        match rel_parts with
        | [] => line
        | _ => (line ++ " | " ++ Py.join ", " rel_parts)%string
        end
    | _ => line
    end in
  match mm_metadata result with
  | Some (_ :: _ as metadata) =>
      match Py.lookup "description" metadata with
      | Some description => (line ++ " - " ++ description)%string
      | None => line
      end
  | _ => line
  end.

(** The loop: a match below 0.7 is skipped. *)
Definition memory_lines_step (memory_lines : list string) (result : memory_match)
  : list string :=
  let similarity := Py.get (mm_similarity result) 0%Q in
  if Py.lt similarity Py.float_0_7 then memory_lines
  else memory_lines ++ [memory_line result].

Definition memory_lines (search_results : list memory_match) : list string :=
  fold_left memory_lines_step search_results [].

Definition memory_header : string :=
  (Py.nl ++ Py.nl ++ "Relevant Patient History (from previous conversations):"
     ++ Py.nl)%string.

Definition memory_footer : string :=
  (Py.nl ++ Py.nl
     ++ "Use this context when relevant to the current question.")%string.

(** [build_patient_memory_prompt_from_vector] *)
Definition build_patient_memory_prompt_from_vector
    (search_results : list memory_match) : string :=
  match search_results with
  | [] => ""
  | _ =>
      match memory_lines search_results with
      | [] => ""
      | lines => (memory_header ++ Py.join Py.nl lines ++ memory_footer)%string
      end
  end.

(** The dictionary [get_relevant_context_with_vectors] returns. *)
Record relevant_context : Type := {
  memoryContext : string;
  relevantMemoriesCount : nat;
  tokensUsed : nat;
  searchMethod : string;
  error : option string
}.

(** [get_relevant_context_with_vectors] *)
Definition get_relevant_context_with_vectors (ext : externals)
    (user_id user_message : string) (match_count similarity_threshold : Q)
  : M relevant_context :=
  try_except
    (relevant_memories <-
       DbOperations.search_similar_patient_memories ext user_message user_id
         similarity_threshold match_count ;;
     let memory_context := build_patient_memory_prompt_from_vector relevant_memories in
     let tokens_used := List.length relevant_memories * 100 in
     ret {| memoryContext := memory_context;
            relevantMemoriesCount := List.length relevant_memories;
            tokensUsed := tokens_used;
            searchMethod := "vector_similarity";
            error := None |})
    (fun e =>
       ret {| memoryContext := "";
              relevantMemoriesCount := 0;
              tokensUsed := 0;
              searchMethod := "fallback_empty";
              error := Some (Py.str_exn e) |}).

End Perplexity.

(* ===================================================================== *)
(** * routes/vector_search.py *)
(* ===================================================================== *)

Module VectorSearch.
Import Py Types Run.
Local Open Scope run_scope.

(** The JSON body of a search request; a missing key is [None]. *)
Record search_request : Type := {
  query : option string;
  conversation_id : option string;
  match_threshold : option Q;
  match_count : option Q
}.

(** The authenticated user [require_auth] hands to the endpoint. *)
Record User : Type := { id : string }.

Inductive payload : Type :=
| Error (error : string)
| MemoryResults (query : string) (results : list memory_match) (count : nat)
| MessageResults (query : string) (conversationId : option string)
    (results : list message_match) (count : nat).

(** [jsonify(...), status] *)
Record response : Type := { body : payload; status : Z }.

Section WithExternals.
Variable ext : externals.

(** [search_memories]; [db = next(get_db())] opens the session, which is
    the world's. *)
Definition search_memories (user : User) (data : search_request) : M response :=
  try_except
    (match query data with
     | Some (String _ _ as query) =>
         let match_threshold := get (match_threshold data) float_0_7 in
         let match_count := get (match_count data) 5%Q in
         if negb (le 0 match_threshold && le match_threshold 1) then
           ret {| body := Error "match_threshold must be between 0 and 1";
                  status := 400 |}
         else if negb (le 1 match_count && le match_count 50) then
           ret {| body := Error "match_count must be between 1 and 50";
                  status := 400 |}
         else
           results <- DbOperations.search_similar_patient_memories ext
                        query (id user) match_threshold match_count ;;
           ret {| body := MemoryResults query results (List.length results);
                  status := 200 |}
     | _ => ret {| body := Error "Query text is required"; status := 400 |}
     end)
    (fun e => ret {| body := Error (str_exn e); status := 500 |}).

(** [search_messages_endpoint] *)
Definition search_messages_endpoint (user : User) (data : search_request)
  : M response :=
  try_except
    (match query data with
     | Some (String _ _ as query) =>
         let conversation_id := conversation_id data in
         let match_threshold := get (match_threshold data) float_0_7 in
         let match_count := get (match_count data) 10%Q in
         if negb (le 0 match_threshold && le match_threshold 1) then
           ret {| body := Error "match_threshold must be between 0 and 1";
                  status := 400 |}
         else if negb (le 1 match_count && le match_count 100) then
           ret {| body := Error "match_count must be between 1 and 100";
                  status := 400 |}
         else
           results <- DbOperations.search_similar_messages ext
                        query conversation_id match_threshold match_count ;;
           ret {| body := MessageResults query conversation_id results
                            (List.length results);
                  status := 200 |}
     | _ => ret {| body := Error "Query text is required"; status := 400 |}
     end)
    (fun e => ret {| body := Error (str_exn e); status := 500 |}).

End WithExternals.

End VectorSearch.

(* ===================================================================== *)
(** * The regular expressions of [is_medical_query] *)
(* ===================================================================== *)

Module Re.
Import Py.

(** The fragment of [re] the patterns use: literals, groups of
    alternatives, sequences and [$]. The leading [^] of every pattern holds
    where [re.match] starts. *)
Inductive regex : Type :=
| Lit (s : string)
| Or (one other : regex)
| Seq (first second : regex)
| Eos.

(** What is left of [s] after the literal [p], when [s] starts with it. *)
Fixpoint drop_prefix (p s : string) : option string :=
  match p, s with
  | EmptyString, _ => Some s
  | String a p', String b s' => if Ascii.eqb a b then drop_prefix p' s' else None
  | String _ _, EmptyString => None
  end.

(** Every way [r] matches at the start of [s]: what each leaves of [s], in
    the order the backtracking matcher tries them. [$] holds at the end and
    before a final line feed. *)
Fixpoint run (r : regex) (s : string) : list string :=
  match r with
  | Lit l =>
      match drop_prefix l s with
      | Some rest => [rest]
      | None => []
      end
  | Or one other => run one s ++ run other s
  | Seq first second => flat_map (run second) (run first s)
  | Eos => if String.eqb s "" || String.eqb s nl then [s] else []
  end.

(** The group [(first|...|last)] of literal alternatives. *)
Fixpoint one_of (first : string) (others : list string) : regex :=
  match others with
  | [] => Lit first
  | next :: others' => Or (Lit first) (one_of next others')
  end.

(** [re.match(pattern, s)] found a match. *)
Definition matches (pattern : regex) (s : string) : bool :=
  match run pattern s with
  | [] => false
  | _ :: _ => true
  end.

End Re.

(* ===================================================================== *)
(** * services/perplexity.py: the classifier, the prompt, the model call *)
(* ===================================================================== *)

Module PerplexityChat.
Import Py Types Perplexity.

(** [c.lower()] of a character below code point 256. *)
Definition lower_char (c : ascii) : ascii :=
  let n := nat_of_ascii c in
  if ((65 <=? n) && (n <=? 90) || (192 <=? n) && (n <=? 214)
      || (216 <=? n) && (n <=? 222))%nat
  then ascii_of_nat (n + 32)
  else c.

(** [s.lower()] *)
Fixpoint lower (s : string) : string :=
  match s with
  | EmptyString => EmptyString
  | String c s' => String (lower_char c) (lower s')
  end.

(** [casual_patterns] *)
Definition casual_patterns : list Re.regex :=
  [ Re.one_of "hi" [ "hello"; "hey"; "good morning"; "good afternoon";
                     "good evening"; "greetings" ];
    Re.one_of "how are you" [ "how're you"; "how r u"; "what's up"; "wassup";
                              "sup" ];
    Re.one_of "how is it going" [ "how's it going"; "how are things" ];
    Re.one_of "my name is" [ "i am"; "i'm"; "this is" ];
    Re.one_of "i'm called" [ "they call me"; "people call me" ];
    Re.one_of "who are you" [ "what are you"; "what is your name"; "your name" ];
    Re.Seq (Re.Lit "do you know ")
           (Re.one_of "me" [ "my name"; "who i am"; "where i" ]);
    Re.one_of "tell me about yourself" [ "what do you do" ];
    Re.one_of "thank you" [ "thanks"; "thx"; "ty"; "appreciate" ];
    Re.one_of "bye" [ "goodbye"; "see you"; "talk later"; "gotta go" ];
    Re.one_of "nice to meet you" [ "pleasure"; "good to" ];
    Re.one_of "sorry" [ "my bad"; "excuse me"; "pardon" ];
    Re.Seq (Re.one_of "ok" [ "okay"; "yes"; "no"; "yeah"; "yep"; "nope"; "sure";
                             "alright"; "cool" ])
           Re.Eos ].

(** The loop of [is_medical_query]: [False] at the first pattern that
    matches, [True] when none does. *)
Fixpoint no_pattern_matches (patterns : list Re.regex) (text : string) : bool :=
  match patterns with
  | [] => true
  | pattern :: patterns' =>
      if Re.matches pattern text then false
      else no_pattern_matches patterns' text
  end.

(** [is_medical_query] *)
Definition is_medical_query (question : string) : bool :=
  let lower_question := strip (lower question) in
  no_pattern_matches casual_patterns lower_question.

(** A value of a preferences or profile dictionary. *)
Inductive value : Type :=
| VNone
| VStr (s : string)
| VBool (b : bool).

Definition values : Type := list (string * value).

(** [d.get(key, default)] *)
Fixpoint lookup_or (key : string) (d : values) (default : value) : value :=
  match d with
  | [] => default
  | (k, v) :: d' => if String.eqb k key then v else lookup_or key d' default
  end.

Definition truthy_value (v : value) : bool :=
  match v with
  | VNone => false
  | VStr s => truthy s
  | VBool b => b
  end.

(** [v == s] for a string literal [s]. *)
Definition equals (v : value) (s : string) : bool :=
  match v with
  | VStr x => String.eqb x s
  | _ => false
  end.

(** [f"{v}"] *)
Definition format_value (v : value) : string :=
  match v with
  | VNone => "None"
  | VStr s => s
  | VBool true => "True"
  | VBool false => "False"
  end.

(** [user_context]: its two keys may be missing. *)
Record user_context : Type := {
  preferences : option values;
  profile : option values
}.

(** [build_system_prompt] *)
Definition build_system_prompt (context : option user_context) (is_medical : bool)
  : string :=
  let prefs := match context with
               | Some c => get (preferences c) []
               | None => []
               end in
  let profile := match context with
                 | Some c => get (profile c) []
                 | None => []
                 end in
  if negb is_medical then
    let casual_prompt :=
      "You are a friendly medical AI assistant having a casual conversation. " in
    let name := lookup_or "name" profile VNone in
    let casual_prompt :=
      if truthy_value name
      then (casual_prompt ++ "You are chatting with " ++ format_value name ++ ". ")%string
      else casual_prompt in
    let address := lookup_or "address" profile VNone in
    let casual_prompt :=
      if truthy_value address
      then (casual_prompt ++ "They are from " ++ format_value address ++ ". ")%string
      else casual_prompt in
    let bio := lookup_or "bio" profile VNone in
    let casual_prompt :=
      if truthy_value bio
      then (casual_prompt ++ "About them: " ++ format_value bio ++ ". ")%string
      else casual_prompt in
    let age_group := lookup_or "age_group" prefs (lookup_or "ageGroup" prefs VNone) in
    let casual_prompt :=
      if equals age_group "young"
      then (casual_prompt ++ (nl ++ "**TONE**: You're chatting with someone YOUNG (18-35). Be super casual, modern, and relatable. "))%string
      else if equals age_group "old"
      then (casual_prompt ++ (nl ++ "**TONE**: You're chatting with a SENIOR (60+). Be very patient, respectful, and warm. "))%string
      else casual_prompt in
    let response_length :=
      lookup_or "response_length" prefs (lookup_or "responseLength" prefs VNone) in
    let casual_prompt :=
      if equals response_length "brief"
      then (casual_prompt ++ (nl ++ nl ++ "**LENGTH**: Keep responses EXTREMELY brief - MAXIMUM 1-2 SHORT sentences. "))%string
      else if equals response_length "comprehensive"
      then (casual_prompt ++ (nl ++ nl ++ "**LENGTH**: Provide DETAILED responses. AT LEAST 4-5 sentences. "))%string
      else casual_prompt in
    (casual_prompt
     ++ (nl ++ nl ++ "**IMPORTANT**: This is CASUAL conversation - NOT medical consultation." ++ nl)
     ++ ("- DO NOT search the web or provide citations" ++ nl)
     ++ ("- Just chat naturally and warmly"))%string
  else
    let prompt := "You are a trusted medical AI assistant. " in
    let name := lookup_or "name" profile VNone in
    let prompt :=
      if truthy_value name
      then (prompt ++ "You are assisting " ++ format_value name ++ ". ")%string
      else prompt in
    let age_group := lookup_or "age_group" prefs (lookup_or "ageGroup" prefs VNone) in
    let prompt :=
      if equals age_group "young"
      then (prompt ++ (nl ++ nl ++ "**IMPORTANT**: User is YOUNG (18-35). Use modern, casual, relatable language. "))%string
      else if equals age_group "middle-aged"
      then (prompt ++ (nl ++ nl ++ "**IMPORTANT**: User is MIDDLE-AGED (36-60). Professional yet warm tone. "))%string
      else if equals age_group "old"
      then (prompt ++ (nl ++ nl ++ "**IMPORTANT**: User is SENIOR (60+). Be EXTRA patient. Use VERY simple language. "))%string
      else prompt in
    let response_style :=
      lookup_or "response_style" prefs (lookup_or "responseStyle" prefs VNone) in
    let prompt :=
      if equals response_style "simple"
      then (prompt ++ (nl ++ nl ++ "**CRITICAL**: Keep responses EXTREMELY simple. Use only everyday words. "))%string
      else if equals response_style "detailed"
      then (prompt ++ (nl ++ nl ++ "**CRITICAL**: Provide VERY detailed, comprehensive explanations. "))%string
      else prompt in
    let lang_complexity :=
      lookup_or "language_complexity" prefs
        (lookup_or "languageComplexity" prefs VNone) in
    let prompt :=
      if equals lang_complexity "simple"
      then (prompt ++ (nl ++ nl ++ "**MANDATORY**: Avoid ALL medical jargon. Use ONLY simple words. "))%string
      else if equals lang_complexity "technical"
      then (prompt ++ (nl ++ nl ++ "**MANDATORY**: Use proper medical terminology and technical language. "))%string
      else prompt in
    let include_terms :=
      lookup_or "include_medical_terms" prefs
        (lookup_or "includeMedicalTerms" prefs VNone) in
    let prompt :=
      match include_terms with
      | VBool false => (prompt ++ (nl ++ "Avoid formal medical terms unless necessary. "))%string
      | _ => prompt
      end in
    let response_length :=
      lookup_or "response_length" prefs (lookup_or "responseLength" prefs VNone) in
    let prompt :=
      if equals response_length "brief"
      then (prompt ++ (nl ++ nl ++ "**LENGTH**: EXTREMELY brief - maximum 1-2 SHORT paragraphs. "))%string
      else if equals response_length "concise"
      then (prompt ++ (nl ++ nl ++ "**LENGTH**: Concise - 2-3 paragraphs maximum. "))%string
      else if equals response_length "comprehensive"
      then (prompt ++ (nl ++ nl ++ "**LENGTH**: COMPREHENSIVE responses with full details. Multiple paragraphs. "))%string
      else (prompt ++ (nl ++ nl ++ "**LENGTH**: Keep responses CONCISE (2-4 paragraphs maximum). "))%string in
    (prompt
     ++ (nl ++ nl ++ "Guidelines:" ++ nl)
     ++ ("- Always cite reliable medical sources" ++ nl)
     ++ ("- AVOID social media, forums (Reddit, Quora)" ++ nl)
     ++ ("- Use clear, understandable language" ++ nl)
     ++ ("- Remind users to consult healthcare professionals" ++ nl)
     ++ ("- Format important points in **bold**"))%string.

(** The chat-completion call: what is sent and what comes back. *)
Record chat_request : Type := {
  req_model : string;
  req_messages : list message;
  req_temperature : Q;
  req_max_tokens : Z
}.

Record usage_counts : Type := {
  prompt_tokens : Z;
  completion_tokens : Z;
  total_tokens : Z
}.

(** The completion object: [choice.message.content] of each choice, and the
    attributes read with [getattr], which may be missing. *)
Record completion : Type := {
  choices : list (option string);
  completion_citations : option (list string);
  completion_search_results : option (list search_result);
  completion_usage : option usage_counts
}.

(** The dictionary [call_perplexity] returns. *)
Record chat_response : Type := {
  resp_content : string;
  resp_citations : list string;
  resp_searchResults : list search_result;
  resp_model : string;
  resp_usage : option usage_counts
}.

(** The float literal [0.3]. *)
Definition float_0_3 : Q := 5404319552844595 # 18014398509481984.

(** [call_perplexity]: the calls of [create] made, oldest first, and the
    outcome. [create] is [perplexity.chat.completions.create] of a client
    built with [max_retries=2]: within one call the client may send the
    request again. Every exception inside the [try] is replaced by one bare
    [Exception]. *)
Definition call_perplexity (create : chat_request -> result completion)
    (messages : list message) (model : string)
    (context : option user_context) (user_message : option string)
  : list chat_request * result chat_response :=
  let is_medical :=
    match user_message with
    | Some (String _ _ as text) => is_medical_query text
    | _ => true
    end in
  let system_prompt := build_system_prompt context is_medical in
  let request :=
    {| req_model := model;
       req_messages := validated_messages system_prompt messages;
       req_temperature := float_0_3;
       req_max_tokens := 1000 |} in
  let failed := inl (Failure "Failed to get response from Perplexity API") in
  ([request],
   match create request with
   | inl _ => failed
   | inr completion =>
       match choices completion with
       | [] => failed
       | first :: _ =>
           inr {| resp_content := get first "";
                  resp_citations := get (completion_citations completion) [];
                  resp_searchResults :=
                    extract_search_results
                      (get (completion_search_results completion) []);
                  resp_model := model;
                  resp_usage := completion_usage completion |}
       end
   end).

End PerplexityChat.

(* ===================================================================== *)
(** * services/db_operations.py: conversations and the embedding backfill *)
(* ===================================================================== *)

Module DbMaintenance.
Import Py Types Run Embedding DbOperations.
Local Open Scope run_scope.

Definition with_db (w : world) (d : database) : world :=
  {| calls := calls w; instance := instance w; db := d;
     pending := pending w; ids_drawn := ids_drawn w;
     clock_reads := clock_reads w |}.

(** [db.execute(statement)] for an [update] or a [delete], and [db.add] of a
    row of a table the transaction log above has no entry for: the rows are
    written at once. In the functions below nothing can raise between a
    statement and the [db.commit()] that ends the function. *)
Definition db_execute (statement : database -> database) : M unit :=
  fun w => (inr tt, with_db w (statement (db w))).

(** [db.rollback()] *)
Definition db_rollback : M unit :=
  fun w => (inr tt,
            {| calls := calls w; instance := instance w; db := db w;
               pending := []; ids_drawn := ids_drawn w;
               clock_reads := clock_reads w |}).

(** The flush of a commit that writes embeddings set on rows of the
    session: it raises when the driver refuses one of them, before anything
    is written. *)
Definition db_flush_embeddings (embeddings : list (option vector)) : M unit :=
  if forallb accepted embeddings then ret tt
  else raise (Failure "expected 384 dimensions").

(** The rows of the session, as a query of a store that answers sees them. *)
Definition db_rows : M database := fun w => (inr (db w), w).

Section WithExternals.
Variable ext : externals.

(** [create_conversation] *)
Definition create_conversation (user_id : option string) (title : string)
    (is_guest : bool) : M Conversation :=
  new_id <- generate_id ext "conv" ;;
  created <- now_utc ext ;;
  updated <- now_utc ext ;;
  let conversation :=
    {| conv_id := new_id; conv_user_id := user_id; conv_title := title;
       conv_is_guest := is_guest; conv_created_at := created;
       conv_updated_at := updated |} in
  db_execute (fun d =>
    {| conversations := conversations d ++ [conversation];
       messages := messages d; patient_memory := patient_memory d |}) ;;;
  db_commit ;;;
  ret conversation.

(** [get_conversation]: [.first()] of the rows with that id. *)
Definition get_conversation (conversation_id : string) : M (option Conversation) :=
  d <- db_rows ;;
  ret (find (fun c => String.eqb (conv_id c) conversation_id) (conversations d)).

(** [update_conversation_title] *)
Definition update_conversation_title (conversation_id title : string) : M unit :=
  updated <- now_utc ext ;;
  db_execute (fun d =>
    {| conversations :=
         map (fun c =>
                if String.eqb (conv_id c) conversation_id
                then {| conv_id := conv_id c; conv_user_id := conv_user_id c;
                        conv_title := title; conv_is_guest := conv_is_guest c;
                        conv_created_at := conv_created_at c;
                        conv_updated_at := updated |}
                else c)
             (conversations d);
       messages := messages d; patient_memory := patient_memory d |}) ;;;
  db_commit.

(** [delete_conversation]: the patient memory, the messages and the
    conversation, in that order. *)
Definition delete_conversation (conversation_id : string) : M unit :=
  db_execute (fun d =>
    {| conversations := conversations d; messages := messages d;
       patient_memory :=
         filter (fun p => negb match mem_conversation_id p with
                               | Some c => String.eqb c conversation_id
                               | None => false
                               end)
                (patient_memory d) |}) ;;;
  db_execute (fun d =>
    {| conversations := conversations d;
       messages :=
         filter (fun m => negb (String.eqb (msg_conversation_id m) conversation_id))
                (messages d);
       patient_memory := patient_memory d |}) ;;;
  db_execute (fun d =>
    {| conversations :=
         filter (fun c => negb (String.eqb (conv_id c) conversation_id))
                (conversations d);
       messages := messages d; patient_memory := patient_memory d |}) ;;;
  db_commit.

(** [delete_patient_memory] *)
Definition delete_patient_memory (memory_id : string) : M unit :=
  db_execute (fun d =>
    {| conversations := conversations d; messages := messages d;
       patient_memory :=
         filter (fun p => negb (String.eqb (mem_id p) memory_id))
                (patient_memory d) |}) ;;;
  db_commit.

(** The query of [backfill_message_embeddings]: the messages without an
    embedding, of one conversation when [conversation_id] is given and not
    empty, [batch_size] of them at most, in the order of the table. *)
Definition messages_to_backfill (batch_size : nat)
    (conversation_id : option string) (d : database) : list Message :=
  firstn batch_size
    (filter
       (fun m =>
          match msg_content_embedding m with
          | None =>
              match conversation_id with
              | Some (String _ _ as c) => String.eqb (msg_conversation_id m) c
              | _ => true
              end
          | Some _ => false
          end)
       (messages d)).

(** [message.content_embedding = embedding], written by primary key when
    the session is flushed. *)
Definition set_message_embedding (message_id : string)
    (embedding : option vector) (m : Message) : Message :=
  if String.eqb (msg_id m) message_id
  then {| msg_id := msg_id m; msg_conversation_id := msg_conversation_id m;
          msg_role := msg_role m; msg_content := msg_content m;
          msg_citations := msg_citations m;
          msg_search_results := msg_search_results m;
          msg_content_embedding := embedding; msg_model := msg_model m;
          msg_created_at := msg_created_at m |}
  else m.

(** The loop of [backfill_message_embeddings]: the count and the attributes
    set so far. *)
Fixpoint backfill_messages_loop (embedding_service : EmbeddingService)
    (selected : list Message) (updated_count : nat)
    (dirty : list (string * option vector))
  : M (nat * list (string * option vector)) :=
  match selected with
  | [] => ret (updated_count, dirty)
  | message :: rest =>
      if truthy (msg_content message) && truthy (strip (msg_content message))
      then
        attempt <-
          try_except
            (embedding <- generate_message_embedding embedding_service
                            (msg_content message) (msg_role message)
                            (msg_citations message) (msg_search_results message) ;;
             ret (Some embedding))
            (fun _ => ret None) ;;
        match attempt with
        | Some embedding =>
            backfill_messages_loop embedding_service rest (S updated_count)
              (dirty ++ [(msg_id message, embedding)])
        | None =>
            backfill_messages_loop embedding_service rest updated_count dirty
        end
      else backfill_messages_loop embedding_service rest updated_count dirty
  end.

Definition flush_message_embeddings (dirty : list (string * option vector))
    (d : database) : database :=
  {| conversations := conversations d;
     messages :=
       fold_left
         (fun rows change => map (set_message_embedding (fst change) (snd change)) rows)
         dirty (messages d);
     patient_memory := patient_memory d |}.

(** [backfill_message_embeddings] *)
Definition backfill_message_embeddings (batch_size : nat)
    (conversation_id : option string) : M nat :=
  d <- db_rows ;;
  match messages_to_backfill batch_size conversation_id d with
  | [] => ret 0
  | selected =>
      try_except
        (embedding_service <- get_embedding_service ext ;;
         outcome <- backfill_messages_loop embedding_service selected 0 [] ;;
         db_flush_embeddings (map snd (snd outcome)) ;;;
         db_execute (flush_message_embeddings (snd outcome)) ;;;
         db_commit ;;;
         ret (fst outcome))
        (fun _ => db_rollback ;;; ret 0)
  end.

(** The query of [backfill_patient_memory_embeddings]. *)
Definition memories_to_backfill (batch_size : nat) (user_id : option string)
    (d : database) : list PatientMemory :=
  firstn batch_size
    (filter
       (fun p =>
          match mem_content_embedding p with
          | None =>
              match user_id with
              | Some (String _ _ as u) => String.eqb (mem_user_id p) u
              | _ => true
              end
          | Some _ => false
          end)
       (patient_memory d)).

(** [memory.content_embedding = embedding; memory.updated_at = now_utc()] *)
Definition set_memory_embedding (memory_id : string)
    (embedding : option vector) (updated : timestamp) (p : PatientMemory)
  : PatientMemory :=
  if String.eqb (mem_id p) memory_id
  then {| mem_id := mem_id p; mem_user_id := mem_user_id p;
          mem_entity_type := mem_entity_type p;
          mem_entity_name := mem_entity_name p;
          mem_relationships := mem_relationships p;
          mem_entity_metadata := mem_entity_metadata p;
          mem_content_embedding := embedding;
          mem_conversation_id := mem_conversation_id p;
          mem_created_at := mem_created_at p; mem_updated_at := updated |}
  else p.

(** The loop of [backfill_patient_memory_embeddings]. *)
Fixpoint backfill_memories_loop (embedding_service : EmbeddingService)
    (selected : list PatientMemory) (updated_count : nat)
    (dirty : list (string * option vector * timestamp))
  : M (nat * list (string * option vector * timestamp)) :=
  match selected with
  | [] => ret (updated_count, dirty)
  | memory :: rest =>
      if truthy (mem_entity_name memory) && truthy (strip (mem_entity_name memory))
      then
        attempt <-
          try_except
            (embedding <- generate_patient_memory_embedding embedding_service
                            (mem_entity_name memory) (mem_entity_type memory)
                            (mem_relationships memory) (mem_entity_metadata memory) ;;
             updated <- now_utc ext ;;
             ret (Some (embedding, updated)))
            (fun _ => ret None) ;;
        match attempt with
        | Some (embedding, updated) =>
            backfill_memories_loop embedding_service rest (S updated_count)
              (dirty ++ [(mem_id memory, embedding, updated)])
        | None =>
            backfill_memories_loop embedding_service rest updated_count dirty
        end
      else backfill_memories_loop embedding_service rest updated_count dirty
  end.

Definition flush_memory_embeddings
    (dirty : list (string * option vector * timestamp)) (d : database)
  : database :=
  {| conversations := conversations d;
     messages := messages d;
     patient_memory :=
       fold_left
         (fun rows change =>
            map (set_memory_embedding (fst (fst change)) (snd (fst change))
                   (snd change)) rows)
         dirty (patient_memory d) |}.

(** [backfill_patient_memory_embeddings] *)
Definition backfill_patient_memory_embeddings (batch_size : nat)
    (user_id : option string) : M nat :=
  d <- db_rows ;;
  match memories_to_backfill batch_size user_id d with
  | [] => ret 0
  | selected =>
      try_except
        (embedding_service <- get_embedding_service ext ;;
         outcome <- backfill_memories_loop embedding_service selected 0 [] ;;
         db_flush_embeddings (map (fun change => snd (fst change)) (snd outcome)) ;;;
         db_execute (flush_memory_embeddings (snd outcome)) ;;;
         db_commit ;;;
         ret (fst outcome))
        (fun _ => db_rollback ;;; ret 0)
  end.

End WithExternals.

End DbMaintenance.

(* ===================================================================== *)
(** * routes/vector_search.py: the backfill endpoints *)
(* ===================================================================== *)

Module VectorSearchAdmin.
Import Py Types Run VectorSearch.
Local Open Scope run_scope.

(** The JSON body of a backfill request; no body at all is the empty one. *)
Record backfill_request : Type := {
  batch_size : option Z;
  backfill_conversation_id : option string
}.

(** [f"{n}"] of a count. *)
Definition format_count (n : nat) : string :=
  NilZero.string_of_uint (Nat.to_uint n).

Inductive backfill_payload : Type :=
| BackfillError (error : string)
| Backfilled (updatedCount : nat) (message : string).

Record backfill_response : Type := {
  backfill_body : backfill_payload;
  backfill_status : Z
}.

Section WithExternals.
Variable ext : externals.

(** [backfill_messages] *)
Definition backfill_messages (user : User) (data : backfill_request)
  : M backfill_response :=
  try_except
    (let batch_size := get (batch_size data) 100%Z in
     let conversation_id := backfill_conversation_id data in
     if negb ((1 <=? batch_size)%Z && (batch_size <=? 500)%Z) then
       ret {| backfill_body := BackfillError "batch_size must be between 1 and 500";
              backfill_status := 400 |}
     else
       updated_count <- DbMaintenance.backfill_message_embeddings ext
                          (Z.to_nat batch_size) conversation_id ;;
       ret {| backfill_body :=
                Backfilled updated_count
                  ("Successfully generated embeddings for "
                   ++ format_count updated_count ++ " messages")%string;
              backfill_status := 200 |})
    (fun e => ret {| backfill_body := BackfillError (str_exn e);
                     backfill_status := 500 |}).

(** [backfill_memories]: the memories of the current user. *)
Definition backfill_memories (user : User) (data : backfill_request)
  : M backfill_response :=
  try_except
    (let batch_size := get (batch_size data) 100%Z in
     if negb ((1 <=? batch_size)%Z && (batch_size <=? 500)%Z) then
       ret {| backfill_body := BackfillError "batch_size must be between 1 and 500";
              backfill_status := 400 |}
     else
       updated_count <- DbMaintenance.backfill_patient_memory_embeddings ext
                          (Z.to_nat batch_size) (Some (id user)) ;;
       ret {| backfill_body :=
                Backfilled updated_count
                  ("Successfully generated embeddings for "
                   ++ format_count updated_count ++ " patient memories")%string;
              backfill_status := 200 |})
    (fun e => ret {| backfill_body := BackfillError (str_exn e);
                     backfill_status := 500 |}).

End WithExternals.

End VectorSearchAdmin.

(* ===================================================================== *)
(** * Properties *)
(* ===================================================================== *)

Module PyFacts.
Import Py.

Lemma last_item_snoc {A} (l : list A) (x : A) : last_item (l ++ [x]) = Some x.
Proof.
  induction l as [|a l IH]; [reflexivity|].
  simpl. destruct (l ++ [x]) eqn:E; [destruct l; discriminate|exact IH].
Qed.

Lemma last_item_split {A} (l : list A) (x : A) :
  last_item l = Some x -> l = removelast l ++ [x].
Proof.
  induction l as [|a l IH]; [discriminate|].
  destruct l as [|b l].
  - simpl. intros [= ->]. reflexivity.
  - intros H. change (last_item (b :: l) = Some x) in H.
    specialize (IH H).
    change (a :: b :: l = a :: (removelast (b :: l) ++ [x])).
    now rewrite <- IH.
Qed.

Lemma last_item_none {A} (l : list A) : last_item l = None -> l = [].
Proof.
  induction l as [|a l IH]; [reflexivity|].
  destruct l; [discriminate|]. intros H. specialize (IH H). discriminate.
Qed.

(** ** Strings without a set of characters *)

(** No character of [s] is in [chars]. *)
Fixpoint avoids (chars : list ascii) (s : string) : bool :=
  match s with
  | EmptyString => true
  | String c s' => negb (char_in c chars) && avoids chars s'
  end.

Lemma avoids_app chars s1 s2 :
  avoids chars (s1 ++ s2) = avoids chars s1 && avoids chars s2.
Proof.
  induction s1 as [|c s1 IH]; [reflexivity|].
  simpl. now rewrite IH, andb_assoc.
Qed.

Lemma rstrip_closing chars closing body :
  char_in closing chars = true -> avoids chars body = true ->
  rstrip chars (body ++ String closing "") = body.
Proof.
  intros Hc. induction body as [|c body IH]; intros Hb.
  - simpl. now rewrite Hc.
  - simpl in Hb. apply andb_true_iff in Hb. destruct Hb as [Hcb Hb].
    apply negb_true_iff in Hcb.
    change (rstrip chars (String c (body ++ String closing "")) = String c body).
    cbn [rstrip]. rewrite (IH Hb).
    destruct body; [now rewrite Hcb|reflexivity].
Qed.

Lemma strip_chars_enclosed chars opening closing body :
  char_in opening chars = true -> char_in closing chars = true ->
  avoids chars body = true ->
  strip_chars chars (String opening (body ++ String closing "")) = body.
Proof.
  intros Ho Hc Hb. unfold strip_chars. cbn [lstrip]. rewrite Ho.
  destruct body as [|c body].
  - simpl. now rewrite Hc.
  - pose proof Hb as Hb'. simpl in Hb'. apply andb_true_iff in Hb'.
    destruct Hb' as [Hcb _]. apply negb_true_iff in Hcb.
    change (String c body ++ String closing "")%string
      with (String c (body ++ String closing "")).
    cbn [lstrip]. rewrite Hcb.
    now apply (rstrip_closing chars closing (String c body)).
Qed.

Lemma split_avoids sep s : avoids [sep] s = true -> split sep s = [s].
Proof.
  induction s as [|c s IH]; [reflexivity|].
  simpl. rewrite orb_false_r. intros H. apply andb_true_iff in H.
  destruct H as [Hc Hs]. apply negb_true_iff in Hc.
  now rewrite Hc, (IH Hs).
Qed.

Lemma split_app sep s rest :
  avoids [sep] s = true ->
  split sep (s ++ String sep rest) = s :: split sep rest.
Proof.
  induction s as [|c s IH].
  - intros _. simpl. now rewrite Ascii.eqb_refl.
  - simpl. rewrite orb_false_r. intros H. apply andb_true_iff in H.
    destruct H as [Hc Hs]. apply negb_true_iff in Hc.
    now rewrite Hc, (IH Hs).
Qed.

Lemma split_join sep parts :
  parts <> [] -> Forall (fun s => avoids [sep] s = true) parts ->
  split sep (join (String sep "") parts) = parts.
Proof.
  induction parts as [|s parts IH]; [congruence|].
  intros _ H. inversion H as [|? ? Hs Hparts]; subst.
  destruct parts as [|s' parts].
  - now apply split_avoids.
  - change (join (String sep "") (s :: s' :: parts))
      with (s ++ String sep (join (String sep "") (s' :: parts)))%string.
    rewrite (split_app sep s _ Hs). f_equal. now apply IH.
Qed.

Lemma avoids_join chars sep parts :
  char_in sep chars = false ->
  Forall (fun s => avoids chars s = true) parts ->
  avoids chars (join (String sep "") parts) = true.
Proof.
  intros Hsep. induction parts as [|s parts IH]; [reflexivity|].
  intros H. inversion H as [|? ? Hs Hparts]; subst.
  destruct parts as [|s' parts]; [exact Hs|].
  change (join (String sep "") (s :: s' :: parts))
    with (s ++ String sep (join (String sep "") (s' :: parts)))%string.
  rewrite avoids_app, Hs. simpl. rewrite Hsep. now apply IH.
Qed.

Lemma avoids_subset small big s :
  (forall c, char_in c small = true -> char_in c big = true) ->
  avoids big s = true -> avoids small s = true.
Proof.
  intros Hsub. induction s as [|c s IH]; [reflexivity|].
  simpl. rewrite !andb_true_iff, !negb_true_iff. intros [Hc Hs].
  split; [|now apply IH].
  destruct (char_in c small) eqn:E; [|reflexivity].
  rewrite (Hsub c E) in Hc. discriminate.
Qed.

End PyFacts.

Module PerplexityFacts.
Import Py PyFacts Types Perplexity.

Definition roles (l : list message) : list string := map role l.

Lemma roles_set_last l last extra :
  last_item l = Some last ->
  roles (set_last l (append_content last extra)) = roles l.
Proof.
  intros H. unfold set_last, roles.
  rewrite (last_item_split l last H) at 2.
  now rewrite !map_app.
Qed.

Lemma alternating_roles l : forall l',
  roles l = roles l' -> alternating l = alternating l'.
Proof.
  induction l as [|a l IH]; intros [|a' l'] H; try discriminate; [reflexivity|].
  injection H as Ha Hl.
  destruct l as [|b l], l' as [|b' l']; try discriminate; [reflexivity|].
  assert (Hb : role b = role b') by (now injection Hl).
  change (negb (role a =? role b)%string && alternating (b :: l)
          = negb (role a' =? role b')%string && alternating (b' :: l')).
  rewrite Ha, Hb. f_equal. now apply IH.
Qed.

Lemma alternating_snoc l x :
  alternating (l ++ [x]) =
  alternating l &&
  match last_item l with
  | Some y => negb (role y =? role x)%string
  | None => true
  end.
Proof.
  induction l as [|a l IH]; [reflexivity|].
  destruct l as [|b l].
  - simpl. now rewrite !andb_true_r.
  - change (negb (role a =? role b)%string && alternating ((b :: l) ++ [x])
            = negb (role a =? role b)%string && alternating (b :: l)
              && match last_item (b :: l) with
                 | Some y => negb (role y =? role x)%string
                 | None => true
                 end).
    rewrite IH. now rewrite andb_assoc.
Qed.

Lemma alternating_app_l l1 l2 :
  alternating (l1 ++ l2) = true -> alternating l1 = true.
Proof.
  induction l1 as [|a l1 IH]; [reflexivity|].
  destruct l1 as [|b l1]; [reflexivity|].
  change (negb (role a =? role b)%string && alternating ((b :: l1) ++ l2) = true
          -> negb (role a =? role b)%string && alternating (b :: l1) = true).
  rewrite !andb_true_iff. intros [H1 H2]. split; [exact H1|now apply IH].
Qed.

(** The head of a list the loops only extend or update at the end. *)
Lemma hd_roles_set_last l last extra :
  last_item l = Some last ->
  hd_error (roles (set_last l (append_content last extra))) = hd_error (roles l).
Proof. intros H. now rewrite roles_set_last. Qed.

Lemma hd_roles_snoc l x :
  l <> [] -> hd_error (roles (l ++ [x])) = hd_error (roles l).
Proof. destruct l; [congruence|reflexivity]. Qed.

(** What the second loop maintains. *)
Definition validated_inv (v : list message) : Prop :=
  hd_error (roles v) = Some system_role /\ alternating v = true.

Lemma validate_step_inv v current :
  validated_inv v -> validated_inv (validate_step v current).
Proof.
  intros [Hhd Halt]. unfold validate_step.
  destruct (last_item v) as [last|] eqn:Hlast.
  - destruct (role last =? role current)%string eqn:E.
    + split.
      * now rewrite hd_roles_set_last.
      * rewrite (alternating_roles _ v); [exact Halt|now apply roles_set_last].
    + split.
      * rewrite hd_roles_snoc; [exact Hhd|]. intros ->. discriminate.
      * rewrite alternating_snoc, Hlast, E, Halt. reflexivity.
  - apply last_item_none in Hlast. subst v. discriminate.
Qed.

Lemma validate_loop_inv rest : forall v,
  validated_inv v -> validated_inv (fold_left validate_step rest v).
Proof.
  induction rest as [|m rest IH]; intros v Hv; [exact Hv|].
  simpl. apply IH. now apply validate_step_inv.
Qed.

Lemma validated_inv_form v : validated_inv v -> normalized_form v.
Proof.
  intros [Hhd Halt]. split; [|exact Halt].
  destruct v as [|first rest]; [discriminate|].
  exists first, rest. split; [reflexivity|]. now injection Hhd.
Qed.

Lemma validated_messages_inv system_prompt messages :
  validated_inv (validated_messages system_prompt messages).
Proof.
  unfold validated_messages, final_messages, ensure_alternating.
  apply validate_loop_inv. split; reflexivity.
Qed.

(** ** C1 *)

(** C1. For every message list and system prompt, and so for every history,
    new user text and system prompt of a chat turn, the message sequence
    [call_perplexity] builds before the model call has a first entry of role
    [system] and no two adjacent entries of one role. *)
Theorem validated_messages_normalized_form :
  (forall system_prompt messages,
      normalized_form (validated_messages system_prompt messages))
  /\ (forall history max_messages text system_prompt,
      normalized_form (build_request history max_messages text system_prompt)).
Proof.
  split; intros; apply validated_inv_form, validated_messages_inv.
Qed.

(** ** C3 *)

Lemma alternating_mid l1 a b l2 :
  alternating (l1 ++ a :: b :: l2) = true -> (role a =? role b)%string = false.
Proof.
  induction l1 as [|c l1 IH].
  - simpl. rewrite andb_true_iff, negb_true_iff. tauto.
  - destruct l1 as [|d l1].
    + change (negb (role c =? role a)%string && alternating (a :: b :: l2) = true
              -> (role a =? role b)%string = false).
      rewrite andb_true_iff. intros [_ H]. now apply IH.
    + change (negb (role c =? role d)%string
              && alternating ((d :: l1) ++ a :: b :: l2) = true
              -> (role a =? role b)%string = false).
      rewrite andb_true_iff. intros [_ H]. now apply IH.
Qed.

Lemma last_then_next acc last x l :
  last_item acc = Some last ->
  alternating (acc ++ x :: l) = true ->
  (role last =? role x)%string = false.
Proof.
  intros Hlast. rewrite (last_item_split acc last Hlast), <- app_assoc.
  apply alternating_mid.
Qed.

(** Neither loop changes a list without equal neighbours. *)
Lemma normalize_loop_fixed l : forall acc,
  alternating (acc ++ l) = true -> fold_left normalize_step l acc = acc ++ l.
Proof.
  induction l as [|x l IH]; intros acc H; [now rewrite app_nil_r|].
  simpl. assert (Hstep : normalize_step acc x = acc ++ [x]).
  { unfold normalize_step. destruct (last_item acc) as [last|] eqn:E; [|reflexivity].
    now rewrite (last_then_next acc last x l E H). }
  rewrite Hstep, IH; rewrite <- app_assoc; [reflexivity|exact H].
Qed.

Lemma validate_loop_fixed l : forall acc,
  alternating (acc ++ l) = true -> fold_left validate_step l acc = acc ++ l.
Proof.
  induction l as [|x l IH]; intros acc H; [now rewrite app_nil_r|].
  simpl. assert (Hstep : validate_step acc x = acc ++ [x]).
  { unfold validate_step. destruct (last_item acc) as [last|] eqn:E; [|reflexivity].
    now rewrite (last_then_next acc last x l E H). }
  rewrite Hstep, IH; rewrite <- app_assoc; [reflexivity|exact H].
Qed.

Definition no_system (l : list message) : bool :=
  forallb (fun m => negb (is_system m)) l.

Lemma filter_no_system l :
  no_system l = true -> filter (fun m => negb (is_system m)) l = l.
Proof.
  induction l as [|m l IH]; [reflexivity|].
  simpl. rewrite andb_true_iff. intros [Hm Hl]. now rewrite Hm, IH.
Qed.

(** The form [call_perplexity] produces: the system prompt, then non-system
    turns, no two neighbours of one role. *)
Definition produced_form (system_prompt : string) (l : list message) : Prop :=
  exists rest,
    l = mkMessage system_role system_prompt :: rest
    /\ no_system rest = true
    /\ alternating l = true.

Lemma validated_messages_fixed system_prompt l :
  produced_form system_prompt l -> validated_messages system_prompt l = l.
Proof.
  intros (rest & -> & Hns & Halt).
  unfold validated_messages, normalize.
  rewrite (normalize_loop_fixed _ [] Halt). simpl app.
  unfold final_messages. cbn [filter is_system role].
  change (negb ("system" =? system_role)%string) with false. cbn iota.
  rewrite (filter_no_system rest Hns).
  unfold ensure_alternating. now rewrite validate_loop_fixed.
Qed.

Lemma no_system_app l1 l2 :
  no_system (l1 ++ l2) = no_system l1 && no_system l2.
Proof. apply forallb_app. Qed.

Lemma validate_step_head first tail m :
  is_system first = true -> no_system tail = true -> is_system m = false ->
  exists tail', validate_step (first :: tail) m = first :: tail'
                /\ no_system tail' = true.
Proof.
  intros Hf Ht Hm. unfold validate_step.
  destruct tail as [|b tail].
  - cbn [last_item]. unfold is_system in Hf, Hm.
    apply String.eqb_eq in Hf.
    assert (E : (role first =? role m)%string = false).
    { rewrite Hf. rewrite String.eqb_sym. exact Hm. }
    rewrite E. exists [m]. split; [reflexivity|].
    simpl. unfold is_system. now rewrite Hm.
  - change (last_item (first :: b :: tail)) with (last_item (b :: tail)).
    destruct (last_item (b :: tail)) as [last|] eqn:Hlast.
    + pose proof (last_item_split _ _ Hlast) as Hsplit.
      assert (Hinit : no_system (removelast (b :: tail)) = true
                      /\ is_system last = false).
      { rewrite Hsplit, no_system_app in Ht. apply andb_true_iff in Ht.
        destruct Ht as [H1 H2]. split; [exact H1|].
        simpl in H2. rewrite andb_true_r in H2. now apply negb_true_iff. }
      destruct Hinit as [Hinit Hl].
      destruct (role last =? role m)%string.
      * exists (set_last (b :: tail) (append_content last (content m))).
        split; [reflexivity|].
        unfold set_last. rewrite no_system_app, Hinit. simpl.
        unfold is_system in *. simpl. now rewrite Hl.
      * exists ((b :: tail) ++ [m]). split; [reflexivity|].
        rewrite no_system_app, Ht. simpl. now rewrite Hm.
    + apply last_item_none in Hlast. discriminate.
Qed.

Lemma validate_loop_head rest : forall first tail,
  is_system first = true -> no_system tail = true -> no_system rest = true ->
  exists tail', fold_left validate_step rest (first :: tail) = first :: tail'
                /\ no_system tail' = true.
Proof.
  induction rest as [|m rest IH]; intros first tail Hf Ht Hr.
  - exists tail. now split.
  - simpl in Hr. apply andb_true_iff in Hr. destruct Hr as [Hm Hr].
    apply negb_true_iff in Hm.
    destruct (validate_step_head first tail m Hf Ht Hm) as (t1 & E1 & H1).
    simpl. rewrite E1. now apply IH.
Qed.

Lemma no_system_filter l : no_system (filter (fun m => negb (is_system m)) l) = true.
Proof.
  induction l as [|m l IH]; [reflexivity|].
  simpl. destruct (is_system m) eqn:E; simpl; [exact IH|].
  now rewrite E, IH.
Qed.

Lemma validated_messages_produced system_prompt messages :
  produced_form system_prompt (validated_messages system_prompt messages).
Proof.
  destruct (validate_loop_head
              (filter (fun m => negb (is_system m)) (normalize messages))
              (mkMessage system_role system_prompt) [])
    as (tail & E & Hns);
    [reflexivity|reflexivity|apply no_system_filter|].
  exists tail. split; [exact E|]. split; [exact Hns|].
  apply (validated_messages_inv system_prompt messages).
Qed.

(** Normalizing twice is normalizing once. *)
Lemma validated_messages_idempotent system_prompt messages :
  validated_messages system_prompt (validated_messages system_prompt messages)
  = validated_messages system_prompt messages.
Proof. apply validated_messages_fixed, validated_messages_produced. Qed.

(** A second system entry inside the list is dropped and the user turns
    around it are merged. *)
Definition interleaved_system : list message :=
  [ mkMessage "system" "p"; mkMessage "user" "a"; mkMessage "system" "q";
    mkMessage "user" "b" ].

Example interleaved_system_run :
  validated_messages "p" interleaved_system
  = [ mkMessage "system" "p"; mkMessage "user" ("a" ++ nl ++ "b") ].
Proof. reflexivity. Qed.

(** The claim as worded fails: a list with a leading system entry and no
    equal neighbours that a second normalization changes, the system prompt
    being that entry's content. *)
Lemma normalized_form_not_fixed :
  normalized_form interleaved_system
  /\ validated_messages "p" interleaved_system <> interleaved_system.
Proof.
  split.
  - split; [|reflexivity].
    now exists (mkMessage "system" "p"),
      [ mkMessage "user" "a"; mkMessage "system" "q"; mkMessage "user" "b" ].
  - rewrite interleaved_system_run. discriminate.
Qed.

(** C3 (amended). A sequence in the form the normalization produces (the
    system prompt as leading system entry, no further system entry, no two
    adjacent entries of one role) is returned unchanged by a second
    normalization with the same system prompt. *)
Theorem validated_messages_fixed_on_produced_form system_prompt rest :
  no_system rest = true ->
  alternating (mkMessage system_role system_prompt :: rest) = true ->
  validated_messages system_prompt (mkMessage system_role system_prompt :: rest)
  = mkMessage system_role system_prompt :: rest.
Proof.
  intros Hns Halt. apply validated_messages_fixed.
  exists rest. now repeat split.
Qed.

Lemma validated_messages_fixed_on_produced_form_witness :
  validated_messages "p"
    [ mkMessage system_role "p"; mkMessage "user" "a"; mkMessage "assistant" "b" ]
  = [ mkMessage system_role "p"; mkMessage "user" "a"; mkMessage "assistant" "b" ].
Proof.
  apply (validated_messages_fixed_on_produced_form "p"
           [ mkMessage "user" "a"; mkMessage "assistant" "b" ]); reflexivity.
Defined.

(** The scenario of the specification: history [user: hello], new message
    [hello again]. *)
Example hello_again :
  build_request [ mkMessage "user" "hello" ] 2 "hello again" "prompt"
  = [ mkMessage "system" "prompt";
      mkMessage "user" ("hello" ++ nl ++ "hello again") ].
Proof. reflexivity. Qed.

(** ** C8 *)

Lemma truthy_eqb s : truthy s = negb (s =? "")%string.
Proof. destruct s; reflexivity. Qed.

Lemma truthy_strip s :
  truthy s && truthy (strip s) = negb (strip s =? "")%string.
Proof. destruct s; [reflexivity|]. now rewrite <- truthy_eqb. Qed.

(** A title or url that is present and not blank. *)
Definition not_blank (field : option string) : bool :=
  match field with
  | Some s => negb (strip s =? "")%string
  | None => false
  end.

Definition valid_entry (r : search_result) : bool :=
  not_blank (sr_title r) && not_blank (sr_url r).

(** An entry as it is returned: its four keys, a missing snippet empty. *)
Definition returned_entry (r : search_result) : search_result :=
  {| sr_title := Some (get (sr_title r) "");
     sr_url := Some (get (sr_url r) "");
     sr_snippet := Some (get (sr_snippet r) "");
     sr_date := sr_date r |}.

Lemma search_results_step_spec acc r :
  search_results_step acc r
  = if valid_entry r then acc ++ [returned_entry r] else acc.
Proof.
  unfold search_results_step, valid_entry, not_blank, returned_entry.
  rewrite <- andb_assoc, !truthy_strip, andb_comm.
  destruct (sr_title r), (sr_url r); reflexivity.
Qed.

Lemma search_results_loop raw : forall acc,
  fold_left search_results_step raw acc
  = acc ++ map returned_entry (filter valid_entry raw).
Proof.
  induction raw as [|r raw IH]; intros acc; [now rewrite app_nil_r|].
  simpl. rewrite IH, search_results_step_spec.
  destruct (valid_entry r); [|reflexivity].
  now rewrite <- app_assoc.
Qed.

(** C8. The search results [call_perplexity] returns are the entries of the
    model response whose title and url are present and not empty once
    stripped of white space, each with its title, url, snippet and date, in
    the order of the response; every other entry is dropped. *)
Theorem extract_search_results_spec raw :
  extract_search_results raw = map returned_entry (filter valid_entry raw).
Proof. apply (search_results_loop raw []). Qed.

(** An entry that carries all its keys is returned as it is. *)
Lemma returned_entry_complete title url snippet date :
  returned_entry {| sr_title := Some title; sr_url := Some url;
                    sr_snippet := Some snippet; sr_date := date |}
  = {| sr_title := Some title; sr_url := Some url;
       sr_snippet := Some snippet; sr_date := date |}.
Proof. reflexivity. Qed.

(** The scenario of the specification. *)
Example empty_title_dropped :
  extract_search_results
    [ {| sr_title := Some ""; sr_url := Some "http://x";
         sr_snippet := None; sr_date := None |};
      {| sr_title := Some "A"; sr_url := Some "http://y";
         sr_snippet := Some "s"; sr_date := None |} ]
  = [ {| sr_title := Some "A"; sr_url := Some "http://y";
         sr_snippet := Some "s"; sr_date := None |} ].
Proof. reflexivity. Qed.

(** ** C6 *)

(** [similarity >= 0.7], a missing similarity counting as 0. *)
Definition relevant (r : memory_match) : bool :=
  le float_0_7 (get (mm_similarity r) 0%Q).

Lemma not_lt_le x y : negb (lt x y) = le y x.
Proof. unfold lt, le. now rewrite Z.leb_antisym. Qed.

Lemma memory_lines_step_spec acc r :
  memory_lines_step acc r = if relevant r then acc ++ [memory_line r] else acc.
Proof.
  unfold memory_lines_step, relevant. rewrite <- not_lt_le.
  now destruct (lt _ _).
Qed.

Lemma memory_lines_loop results : forall acc,
  fold_left memory_lines_step results acc
  = acc ++ map memory_line (filter relevant results).
Proof.
  induction results as [|r results IH]; intros acc; [now rewrite app_nil_r|].
  simpl. rewrite IH, memory_lines_step_spec.
  destruct (relevant r); [|reflexivity].
  now rewrite <- app_assoc.
Qed.

(** C6. The prompt fragment is built from one line per match of similarity
    at least 0.7, for exactly those matches and in the order of the input;
    it is empty when there is none. *)
Theorem memory_prompt_keeps_relevant results :
  memory_lines results = map memory_line (filter relevant results)
  /\ build_patient_memory_prompt_from_vector results
     = match filter relevant results with
       | [] => ""
       | kept => memory_header ++ join nl (map memory_line kept) ++ memory_footer
       end%string.
Proof.
  assert (H : memory_lines results = map memory_line (filter relevant results))
    by apply (memory_lines_loop results []).
  split; [exact H|].
  unfold build_patient_memory_prompt_from_vector. rewrite H.
  destruct results as [|r results]; [reflexivity|].
  destruct (filter relevant (r :: results)); reflexivity.
Qed.

(** Matches that come in descending similarity stay so once filtered. *)
Definition descending (l : list memory_match) : Prop :=
  StronglySorted
    (fun a b => le (get (mm_similarity b) 0%Q) (get (mm_similarity a) 0%Q) = true) l.

Lemma kept_descending results :
  descending results -> descending (filter relevant results).
Proof.
  unfold descending. induction 1 as [|a l Hl IH Ha]; [constructor|].
  simpl. destruct (relevant a); [|exact IH].
  constructor; [exact IH|].
  rewrite Forall_forall in *. intros b Hb.
  apply filter_In in Hb. now apply Ha.
Qed.

End PerplexityFacts.

Module EmbeddingFacts.
Import Py PyFacts Types Run Embedding.

(** ** Slices *)

Lemma take_prefix n : forall s, exists rest, s = (take n s ++ rest)%string.
Proof.
  induction n as [|n IH]; intros s; [now exists s|].
  destruct s as [|c s]; [now exists ""%string|].
  destruct (IH s) as [rest E]. exists rest. simpl. now rewrite <- E.
Qed.

Lemma take_length n : forall s, String.length (take n s) = Nat.min n (String.length s).
Proof.
  induction n as [|n IH]; intros s; [reflexivity|].
  destruct s as [|c s]; [reflexivity|]. simpl. now rewrite IH.
Qed.

(** [text[:k]] is the prefix of [text] of [k] characters, and [text] itself
    when it has no more. *)
Lemma slice_to_prefix k text :
  (0 <= k)%Z ->
  (exists rest, text = (slice_to k text ++ rest)%string)
  /\ String.length (slice_to k text) = Nat.min (Z.to_nat k) (String.length text).
Proof.
  intros Hk. unfold slice_to.
  destruct (Z.ltb_spec k 0); [lia|].
  split; [apply take_prefix|apply take_length].
Qed.

(** ** The services [__init__] builds *)

Lemma init_config ext name key self :
  init ext name key = inr self ->
  model_name self = cfg_model (MODES (svc_mode self))
  /\ dimensions self = cfg_dimensions (MODES (svc_mode self))
  /\ max_tokens self = cfg_max_tokens (MODES (svc_mode self))
  /\ match svc_mode self with
     | LOCAL => model self <> None /\ client self = None
     | OPENAI => client self <> None /\ model self = None
     end.
Proof.
  unfold init. destruct (mode_of_name name) as [[|]|]; [| |discriminate].
  - destruct (sentence_transformers ext) as [load|]; [|discriminate].
    destruct (load _); [discriminate|].
    intros [= <-]. simpl. repeat split; congruence.
  - destruct (openai ext) as [connect|]; [|discriminate].
    set (k := match key with
              | Some k => if truthy k then Some k else openai_api_key ext
              | None => openai_api_key ext
              end).
    destruct k as [k|]; [|discriminate].
    destruct (truthy k); [|discriminate].
    destruct (connect k); [discriminate|].
    intros [= <-]. simpl. repeat split; congruence.
Qed.

(** ** What reaches the encoder *)

Definition not_empty (text : string) : bool :=
  truthy text && truthy (strip text).

Lemma not_empty_guard text :
  not_empty text = true ->
  negb (truthy text) || negb (truthy (strip text)) = false.
Proof.
  unfold not_empty. rewrite andb_true_iff. intros [-> ->]. reflexivity.
Qed.

(** In OPENAI mode the one call made carries [text[:max_tokens * 4]]. *)
Lemma generate_embedding_openai_calls self c text w :
  svc_mode self = OPENAI -> client self = Some c -> not_empty text = true ->
  calls (snd (generate_embedding self text w))
  = calls w ++ [ CallEmbeddingsCreate (model_name self)
                   (OneText (slice_to (max_tokens self * 4) text)) ].
Proof.
  intros Hmode Hc Hne. unfold generate_embedding.
  rewrite (not_empty_guard text Hne), Hmode.
  unfold try_except, bind, _generate_openai. rewrite Hc.
  unfold bind, record_call, lift. simpl.
  destruct (embeddings_create c _ _) as [e|[|first data]]; reflexivity.
Qed.

(** In LOCAL mode the one call made carries [text] as it came. *)
Lemma generate_embedding_local_calls self m text w :
  svc_mode self = LOCAL -> model self = Some m -> not_empty text = true ->
  calls (snd (generate_embedding self text w)) = calls w ++ [ CallEncode text ].
Proof.
  intros Hmode Hm Hne. unfold generate_embedding.
  rewrite (not_empty_guard text Hne), Hmode.
  unfold try_except, bind, _generate_local. rewrite Hm.
  unfold bind, record_call, lift. simpl.
  destruct (encode m text); reflexivity.
Qed.

(** A service of OPENAI mode sends at most 32764 characters, a prefix of
    the text. *)
Lemma openai_mode_truncates ext name key self text w :
  init ext name key = inr self -> svc_mode self = OPENAI ->
  not_empty text = true ->
  exists sent rest,
    calls (snd (generate_embedding self text w))
    = calls w ++ [ CallEmbeddingsCreate (model_name self) (OneText sent) ]
    /\ text = (sent ++ rest)%string
    /\ String.length sent = Nat.min (Z.to_nat 32764) (String.length text).
Proof.
  intros Hinit Hmode Hne.
  destruct (init_config _ _ _ _ Hinit) as (_ & _ & Hmax & Hprov).
  rewrite Hmode in Hmax, Hprov. destruct Hprov as [Hc _].
  destruct (client self) as [c|] eqn:Ec; [|congruence].
  destruct (slice_to_prefix (max_tokens self * 4) text) as [[rest Hrest] Hlen].
  { rewrite Hmax. simpl. lia. }
  exists (slice_to (max_tokens self * 4) text), rest.
  split; [now apply generate_embedding_openai_calls with (c := c)|].
  split; [exact Hrest|]. rewrite Hlen, Hmax. reflexivity.
Qed.

(** ** C2 *)

(** A local model that answers the length of what it is given. *)
Definition length_model : SentenceTransformer :=
  {| encode := fun text => inr [PyFloat.nth_float (String.length text)];
     encode_all :=
       fun texts =>
         inr (map (fun t => [PyFloat.nth_float (String.length t)]) texts) |}.

Definition local_externals : externals :=
  {| embedding_mode := "LOCAL";
     openai_api_key := None;
     sentence_transformers := Some (fun _ => inr length_model);
     openai := None;
     sql_search_patient_memories := fun _ _ _ _ => inr [];
     sql_search_messages := fun _ _ _ _ => inr [];
     nanoid := fun _ _ => "V1StGXR8";
     clock := fun n => Z.of_nat n;
     isoformat := fun _ => "1970-01-01T00:00:00+00:00" |}.

Definition local_service : EmbeddingService :=
  {| svc_mode := LOCAL; model_name := "all-MiniLM-L6-v2"; dimensions := 384;
     max_tokens := 512; model := Some length_model; client := None |}.

Definition empty_world : world :=
  {| calls := []; instance := None;
     db := {| conversations := []; messages := []; patient_memory := [] |};
     pending := []; ids_drawn := 0; clock_reads := 0 |}.

Fixpoint copies (n : nat) (c : ascii) : string :=
  match n with
  | O => EmptyString
  | S n' => String c (copies n' c)
  end.

(** A text of 2049 characters, one more than LOCAL mode's 4 * 512. *)
Definition text_2049 : string := copies (Z.to_nat 2049) "x"%char.

(** C2, at the failing input. In LOCAL mode, as [__init__] configures it
    (512 tokens, so 2048 characters), a text of 2049 characters reaches the
    encoder whole: the one call made carries all 2049 characters, not the
    prefix of 2048. *)
Theorem local_mode_does_not_truncate :
  init local_externals "LOCAL" None = inr local_service
  /\ (max_tokens local_service * 4 = 2048)%Z
  /\ generate_embedding local_service text_2049 empty_world
     = (inr (Some [PyFloat.nth_float 2049]),
        {| calls := [ CallEncode text_2049 ]; instance := None;
           db := db empty_world; pending := []; ids_drawn := 0;
           clock_reads := 0 |})
  /\ text_2049 <> slice_to (max_tokens local_service * 4) text_2049.
Proof.
  split; [reflexivity|]. split; [reflexivity|]. split; [vm_compute; reflexivity|].
  intros H. apply (f_equal String.length) in H. vm_compute in H. discriminate.
Qed.

(** ** C7 *)

(** The text that stands for one text of a batch in the request: stripped;
    in OPENAI mode cut to [max_tokens * 4] characters, with the word "empty"
    for a blank text; in LOCAL mode the empty string for an empty text. *)
Definition batch_text (self : EmbeddingService) (t : string) : string :=
  match svc_mode self with
  | LOCAL => if truthy t then strip t else ""%string
  | OPENAI =>
      if truthy t && truthy (strip t)
      then slice_to (max_tokens self * 4) (strip t)
      else "empty"%string
  end.

Definition local_batch_texts (texts : list string) : list string :=
  map (fun t => if truthy t then strip t else ""%string) texts.

Definition openai_batch_texts (self : EmbeddingService) (texts : list string)
  : list string :=
  map (fun t => if truthy t && truthy (strip t)
                then slice_to (max_tokens self * 4) (strip t)
                else "empty"%string) texts.

(** The provider's answer to a request that holds the texts [sent]. *)
Definition provider_call (self : EmbeddingService) (sent : list string)
  : result (list vector) :=
  match svc_mode self with
  | LOCAL =>
      match model self with
      | Some m => encode_all m sent
      | None => inl (RuntimeError "Model not initialized")
      end
  | OPENAI =>
      match client self with
      | Some c => embeddings_create c (model_name self) (ManyTexts sent)
      | None => inl (RuntimeError "OpenAI client not initialized")
      end
  end.

(** The provider's answer to the one call a batch makes. *)
Definition batch_answer (self : EmbeddingService) (texts : list string)
  : result (list vector) :=
  match svc_mode self with
  | LOCAL =>
      match model self with
      | Some m => encode_all m (local_batch_texts texts)
      | None => inl (RuntimeError "Model not initialized")
      end
  | OPENAI =>
      match client self with
      | Some c => embeddings_create c (model_name self)
                    (ManyTexts (openai_batch_texts self texts))
      | None => inl (RuntimeError "OpenAI client not initialized")
      end
  end.

Lemma batch_answer_request self texts :
  batch_answer self texts = provider_call self (map (batch_text self) texts).
Proof.
  unfold batch_answer, provider_call, batch_text, local_batch_texts,
    openai_batch_texts.
  now destruct (svc_mode self).
Qed.

Lemma generate_embeddings_batch_result self texts w :
  texts <> [] ->
  fst (generate_embeddings_batch self texts w)
  = inr match batch_answer self texts with
        | inr vectors => map Some vectors
        | inl _ => repeat None (List.length texts)
        end.
Proof.
  intros Hne. destruct texts as [|t texts]; [congruence|].
  unfold generate_embeddings_batch, batch_answer, try_except.
  destruct (svc_mode self).
  - unfold _generate_batch_local. destruct (model self) as [m|]; [|reflexivity].
    unfold bind, record_call, lift, ret. fold (local_batch_texts (t :: texts)).
    destruct (encode_all m _); reflexivity.
  - unfold _generate_batch_openai. destruct (client self) as [c|]; [|reflexivity].
    unfold bind, record_call, lift, ret. fold (openai_batch_texts self (t :: texts)).
    destruct (embeddings_create c _ _); reflexivity.
Qed.

(** A local model that cannot take the text "bad": a batch that holds it
    fails as a whole. *)
Definition picky_model : SentenceTransformer :=
  {| encode :=
       fun text =>
         if String.eqb text "bad" then inl (Failure "cannot encode")
         else inr [PyFloat.nth_float (String.length text)];
     encode_all :=
       fun texts =>
         if existsb (String.eqb "bad") texts then inl (Failure "cannot encode")
         else inr (map (fun t => [PyFloat.nth_float (String.length t)]) texts) |}.

Definition picky_service : EmbeddingService :=
  {| svc_mode := LOCAL; model_name := "all-MiniLM-L6-v2"; dimensions := 384;
     max_tokens := 512; model := Some picky_model; client := None |}.

(** A local model that answers a batch with one vector, however many texts
    it was given. *)
Definition short_model : SentenceTransformer :=
  {| encode := fun text => inr [PyFloat.nth_float (String.length text)];
     encode_all := fun _ => inr [ [PyFloat.nth_float 1] ] |}.

Definition short_service : EmbeddingService :=
  {| svc_mode := LOCAL; model_name := "all-MiniLM-L6-v2"; dimensions := 384;
     max_tokens := 512; model := Some short_model; client := None |}.

(** C7, where it fails. The empty list raises. One text the provider fails
    on leaves no entry for its neighbour either, which alone is embedded.
    A blank text, for which [generate_embedding] raises, is no failed
    element of a batch: it gets the vector of what stands in for it. And
    the provider's answer is returned as it is, whatever its length. *)
Lemma batch_not_per_element :
  generate_embeddings_batch local_service [] empty_world
  = (inl (ValueError "Texts list cannot be empty"), empty_world)
  /\ fst (generate_embeddings_batch picky_service [ "fever"; "bad" ] empty_world)
     = inr [ None; None ]
  /\ fst (generate_embeddings_batch picky_service [ "fever" ] empty_world)
     = inr [ Some [ PyFloat.nth_float 5 ] ]
  /\ fst (generate_embeddings_batch local_service [ "fever"; "  " ] empty_world)
     = inr [ Some [ PyFloat.nth_float 5 ]; Some [ PyFloat.nth_float 0 ] ]
  /\ fst (generate_embedding local_service "  " empty_world)
     = inl (ValueError "Text cannot be empty")
  /\ fst (generate_embeddings_batch short_service [ "fever"; "cough" ] empty_world)
     = inr [ Some [ PyFloat.nth_float 1 ] ].
Proof. repeat split; reflexivity. Qed.

(** C7 (amended). For every list of texts that is not empty the batch call
    does not raise, and what it returns is decided by the provider's answer
    to one request that holds one text per text of the input, in the order
    of the input: when the provider answers, its vectors in its order, blank
    texts included; when it fails, an absent entry for every text. The
    result is as long as the input exactly when the provider failed or
    answered one vector per text. *)
Theorem generate_embeddings_batch_all_or_nothing self texts w :
  texts <> [] ->
  exists entries,
    fst (generate_embeddings_batch self texts w) = inr entries
    /\ match provider_call self (map (batch_text self) texts) with
       | inr vectors => entries = map Some vectors
       | inl _ => entries = repeat None (List.length texts)
       end
    /\ (List.length entries = List.length texts
        <-> match provider_call self (map (batch_text self) texts) with
            | inr vectors => List.length vectors = List.length texts
            | inl _ => True
            end).
Proof.
  intros Hne. eexists. split; [now apply generate_embeddings_batch_result|].
  rewrite <- batch_answer_request.
  destruct (batch_answer self texts) as [e|vectors].
  - split; [reflexivity|]. now rewrite repeat_length.
  - split; [reflexivity|]. now rewrite length_map.
Qed.

Lemma generate_embeddings_batch_all_or_nothing_witness :
  fst (generate_embeddings_batch local_service [ "fever"; " cough " ] empty_world)
  = inr [ Some [ PyFloat.nth_float 5 ]; Some [ PyFloat.nth_float 5 ] ].
Proof.
  destruct (generate_embeddings_batch_all_or_nothing local_service
              [ "fever"; " cough " ] empty_world) as (entries & E & Hentries & _).
  - discriminate.
  - rewrite E. f_equal. exact Hentries.
Defined.

(** A provider failure voids every entry, also those of texts the provider
    would have embedded alone. *)
Definition failing_model : SentenceTransformer :=
  {| encode := fun text => inr [PyFloat.nth_float (String.length text)];
     encode_all := fun _ => inl (Failure "out of memory") |}.

Definition failing_model_single : SentenceTransformer :=
  {| encode := fun _ => inl (Failure "out of memory");
     encode_all := fun _ => inl (Failure "out of memory") |}.

Example batch_failure_voids_all :
  fst (generate_embeddings_batch
         {| svc_mode := LOCAL; model_name := "all-MiniLM-L6-v2";
            dimensions := 384; max_tokens := 512;
            model := Some failing_model; client := None |}
         [ "fever"; "cough" ] empty_world)
  = inr [ None; None ].
Proof. reflexivity. Qed.

End EmbeddingFacts.
(* ===================================================================== *)
(** * [float(str(x))] reads a float back *)
(* ===================================================================== *)

Module FloatFacts.
Import Py PyFacts PyFloat.

(** ** The units of a float grow with its bits *)

Lemma units_spec bits :
  units bits
  = (if (bits / 2 ^ 52 =? 0)%N then bits mod 2 ^ 52
     else (2 ^ 52 + bits mod 2 ^ 52) * 2 ^ (bits / 2 ^ 52 - 1))%N.
Proof. unfold units. now rewrite N.shiftl_mul_pow2. Qed.

Lemma units_parts (e m : N) :
  (m < 2 ^ 52)%N ->
  units (2 ^ 52 * e + m)
  = (if (e =? 0)%N then m else (2 ^ 52 + m) * 2 ^ (e - 1))%N.
Proof.
  intros Hm. rewrite units_spec.
  assert (He : ((2 ^ 52 * e + m) / 2 ^ 52 = e)%N).
  { symmetry. apply (N.div_unique _ _ e m); [exact Hm|reflexivity]. }
  assert (Hmod : ((2 ^ 52 * e + m) mod 2 ^ 52 = m)%N).
  { symmetry. apply (N.mod_unique _ _ e m); [exact Hm|reflexivity]. }
  now rewrite He, Hmod.
Qed.

Lemma units_succ bits : (units bits < units (bits + 1))%N.
Proof.
  pose proof (N.div_mod bits (2 ^ 52)%N) as Hsplit.
  assert (Hpos : (2 ^ 52 <> 0)%N) by (apply N.pow_nonzero; discriminate).
  specialize (Hsplit Hpos).
  pose proof (N.mod_lt bits (2 ^ 52)%N Hpos) as Hm.
  set (e := (bits / 2 ^ 52)%N) in *. set (m := (bits mod 2 ^ 52)%N) in *.
  rewrite Hsplit at 1. rewrite (units_parts e m Hm).
  destruct (N.lt_ge_cases (m + 1) (2 ^ 52)%N) as [Hroom|Hfull].
  - replace (bits + 1)%N with (2 ^ 52 * e + (m + 1))%N by lia.
    rewrite (units_parts e (m + 1) Hroom).
    destruct (e =? 0)%N; [lia|].
    apply N.mul_lt_mono_pos_r; [|lia].
    apply N.neq_0_lt_0, N.pow_nonzero. discriminate.
  - assert (Hm' : (m = 2 ^ 52 - 1)%N) by lia.
    replace (bits + 1)%N with (2 ^ 52 * (e + 1) + 0)%N by lia.
    rewrite (units_parts (e + 1) 0) by (apply N.neq_0_lt_0; exact Hpos).
    replace (e + 1 =? 0)%N with false by (symmetry; apply N.eqb_neq; lia).
    replace (e + 1 - 1)%N with e by lia.
    destruct (N.eqb_spec e 0) as [->|He].
    + rewrite N.pow_0_r. lia.
    + replace e with (N.succ (e - 1)) at 2 by lia.
      rewrite N.pow_succ_r'. rewrite Hm'.
      assert (Hp : (0 < 2 ^ (e - 1))%N)
        by (apply N.neq_0_lt_0, N.pow_nonzero; discriminate).
      nia.
Qed.

Lemma units_lt a b : (a < b)%N -> (units a < units b)%N.
Proof.
  intros Hab. replace b with (a + 1 + N.of_nat (N.to_nat (b - a - 1)))%N by lia.
  induction (N.to_nat (b - a - 1)) as [|k IH].
  - rewrite N.add_0_r. apply units_succ.
  - rewrite Nat2N.inj_succ.
    replace (a + 1 + N.succ (N.of_nat k))%N with (a + 1 + N.of_nat k + 1)%N by lia.
    eapply N.lt_trans; [exact IH|apply units_succ].
Qed.

Lemma units_le a b : (units a <= units b)%N -> (a <= b)%N.
Proof.
  intros H. destruct (N.le_gt_cases a b) as [Hle|Hgt]; [exact Hle|].
  apply units_lt in Hgt. lia.
Qed.

Lemma units_lt_inv a b : (units a < units b)%N -> (a < b)%N.
Proof.
  intros H. destruct (N.lt_ge_cases a b) as [Hlt|Hge]; [exact Hlt|].
  destruct (N.eq_dec a b) as [->|Hne]; [lia|].
  assert (Hgt : (b < a)%N) by lia. apply units_lt in Hgt. lia.
Qed.

Lemma units_inj a b : units a = units b -> a = b.
Proof.
  intros H. apply N.le_antisymm; apply units_le; rewrite H; apply N.le_refl.
Qed.

(** ** A number that is a float rounds to that float *)

Lemma mul_compare_r (n m p : Z) :
  (0 < p)%Z -> (n * p ?= m * p)%Z = (n ?= m)%Z.
Proof.
  intros Hp. destruct (Z.compare_spec n m) as [->|H|H].
  - apply Z.compare_refl.
  - apply Z.compare_lt_iff. nia.
  - apply Z.compare_gt_iff. nia.
Qed.

Lemma denominator_pos p : (0 < denominator p)%Z.
Proof. unfold denominator. apply Z.pow_pos_nonneg; lia. Qed.

Lemma compare_units_exact (U u : N) (den : Z) :
  (0 < den)%Z -> compare_units (Z.of_N U * den) den u = (U ?= u)%N.
Proof.
  intros Hden. unfold compare_units.
  rewrite mul_compare_r by exact Hden. apply N2Z.inj_compare.
Qed.

Lemma greatest_below_exact (x : N) (den : Z) :
  (0 < den)%Z ->
  forall i b, (b <= x < b + 2 ^ N.of_nat i)%N ->
              greatest_below (Z.of_N (units x) * den) den i b = x.
Proof.
  intros Hden. induction i as [|i IH]; intros b Hb.
  - cbn [greatest_below]. change (2 ^ N.of_nat 0)%N with 1%N in Hb. lia.
  - cbn [greatest_below]. rewrite compare_units_exact by exact Hden.
    assert (Hpow : (2 ^ N.of_nat (S i) = 2 ^ N.of_nat i + 2 ^ N.of_nat i)%N).
    { rewrite Nat2N.inj_succ, N.pow_succ_r'. lia. }
    rewrite Hpow in Hb.
    destruct (N.compare_spec (units x) (units (b + 2 ^ N.of_nat i))) as [E|L|G].
    + apply units_inj in E. apply IH. lia.
    + apply units_lt_inv in L. apply IH. lia.
    + apply units_lt_inv in G. apply IH. lia.
Qed.

Lemma nearest_bits_exact D p x :
  (x < 2 ^ 63)%N ->
  numerator D p = (Z.of_N (units x) * denominator p)%Z ->
  nearest_bits D p = x.
Proof.
  intros Hx Hnum. unfold nearest_bits. rewrite Hnum.
  pose proof (denominator_pos p) as Hden.
  rewrite (greatest_below_exact x _ Hden 63 0) by (split; [lia|exact Hx]).
  replace (2 * (Z.of_N (units x) * denominator p))%Z
    with (Z.of_N (2 * units x) * denominator p)%Z by lia.
  rewrite compare_units_exact by exact Hden.
  pose proof (units_succ x) as Hsucc.
  replace (2 * units x ?= units x + units (x + 1))%N with Lt; [reflexivity|].
  symmetry. apply N.compare_lt_iff. lia.
Qed.

Lemma inf_bits_bound : (inf_bits < 2 ^ 63)%N.
Proof. reflexivity. Qed.

Lemma exact_digits_value bits :
  numerator (exact_digits bits) (- 1074)
  = (Z.of_N (units bits) * denominator (- 1074))%Z.
Proof.
  unfold numerator, denominator, exact_digits.
  change (Z.max (- 1074) 0) with 0%Z.
  change (Z.max (- - 1074) 0) with 1074%Z.
  rewrite Z.shiftl_mul_pow2 by lia.
  rewrite N2Z.inj_mul, N2Z.inj_pow.
  change (Z.of_N 5) with 5%Z. change (Z.of_N 1074) with 1074%Z.
  rewrite Z.pow_0_r, Z.mul_1_r.
  change 10%Z with (5 * 2)%Z. rewrite Z.pow_mul_l.
  generalize (5 ^ 1074)%Z (2 ^ 1074)%Z (Z.of_N (units bits)).
  intros a b c. ring.
Qed.

Lemma nearest_bits_exact_digits bits :
  (bits < inf_bits)%N -> nearest_bits (exact_digits bits) (- 1074) = bits.
Proof.
  intros Hbits. apply nearest_bits_exact; [|apply exact_digits_value].
  pose proof inf_bits_bound. lia.
Qed.

(** The decimal number [shortest] finds is read as the float it was found
    for. *)
Lemma shortest_sound bits :
  (bits < inf_bits)%N ->
  forall t, nearest_bits (fst (shortest bits (exact_digits bits) t))
              (snd (shortest bits (exact_digits bits) t)) = bits.
Proof.
  intros Hbits. induction t as [|t IH].
  - cbn [shortest fst snd]. now apply nearest_bits_exact_digits.
  - cbn [shortest]. cbv zeta.
    match goal with
    | |- context [if (nearest_bits ?c ?e =? bits)%N then _ else _] =>
        destruct (N.eqb_spec (nearest_bits c e) bits) as [E|_];
          [exact E|]
    end.
    match goal with
    | |- context [if (nearest_bits ?c ?e =? bits)%N then _ else _] =>
        destruct (N.eqb_spec (nearest_bits c e) bits) as [E|_];
          [exact E|]
    end.
    exact IH.
Qed.

(** ** Writing a decimal number with more zeros changes nothing *)

Lemma compare_units_scale num den c u :
  (0 < c)%Z -> compare_units (num * c) (den * c) u = compare_units num den u.
Proof.
  intros Hc. unfold compare_units. rewrite Z.mul_assoc.
  now apply mul_compare_r.
Qed.

Lemma greatest_below_scale num den c :
  (0 < c)%Z ->
  forall i b, greatest_below (num * c) (den * c) i b = greatest_below num den i b.
Proof.
  intros Hc. induction i as [|i IH]; intros b; [reflexivity|].
  cbn [greatest_below]. rewrite compare_units_scale by exact Hc.
  now rewrite !IH.
Qed.

Lemma nearest_bits_scale D p D' p' c :
  (0 < c)%Z ->
  numerator D' p' = (numerator D p * c)%Z ->
  denominator p' = (denominator p * c)%Z ->
  nearest_bits D' p' = nearest_bits D p.
Proof.
  intros Hc Hnum Hden. unfold nearest_bits. rewrite Hnum, Hden.
  rewrite greatest_below_scale by exact Hc.
  replace (2 * (numerator D p * c))%Z with (2 * numerator D p * c)%Z by ring.
  now rewrite compare_units_scale by exact Hc.
Qed.

Lemma nearest_bits_shift D p (k : N) :
  nearest_bits (D * 10 ^ k) (p - Z.of_N k) = nearest_bits D p.
Proof.
  apply (nearest_bits_scale D p _ _
           (10 ^ (Z.max p (Z.of_N k) - Z.max p 0))%Z).
  - apply Z.pow_pos_nonneg; lia.
  - unfold numerator. rewrite !Z.shiftl_mul_pow2 by lia.
    rewrite N2Z.inj_mul, N2Z.inj_pow. change (Z.of_N 10) with 10%Z.
    replace (Z.of_N D * 10 ^ Z.of_N k * 10 ^ Z.max (p - Z.of_N k) 0)%Z
      with (Z.of_N D * 10 ^ (Z.of_N k + Z.max (p - Z.of_N k) 0))%Z
      by (rewrite Z.pow_add_r by lia; ring).
    replace (Z.of_N D * 10 ^ Z.max p 0 * 2 ^ 1074
             * 10 ^ (Z.max p (Z.of_N k) - Z.max p 0))%Z
      with (Z.of_N D * (10 ^ Z.max p 0 * 10 ^ (Z.max p (Z.of_N k) - Z.max p 0))
            * 2 ^ 1074)%Z by ring.
    rewrite <- Z.pow_add_r by lia.
    do 2 f_equal. f_equal. lia.
  - unfold denominator. rewrite <- Z.pow_add_r by lia. f_equal. lia.
Qed.

(** ** Digits *)

Fixpoint all_digits (s : string) : bool :=
  match s with
  | EmptyString => true
  | String c rest => is_digit c && all_digits rest
  end.

Lemma digit_char_spec d :
  (d < 10)%N -> is_digit (digit_char d) = true /\ digit_of (digit_char d) = d.
Proof.
  intros Hd. unfold is_digit, digit_of, digit_char.
  rewrite N_ascii_embedding by lia.
  split; [|lia].
  apply andb_true_iff. split; apply N.leb_le; lia.
Qed.

Lemma all_digits_app s1 s2 :
  all_digits (s1 ++ s2) = all_digits s1 && all_digits s2.
Proof.
  induction s1 as [|c s1 IH]; [reflexivity|].
  simpl. now rewrite IH, andb_assoc.
Qed.

Lemma length_app (s1 s2 : string) :
  String.length (s1 ++ s2) = String.length s1 + String.length s2.
Proof. induction s1 as [|c s1 IH]; [reflexivity|]. simpl. now rewrite IH. Qed.

Lemma app_assoc_string (a b c : string) :
  ((a ++ b) ++ c = a ++ (b ++ c))%string.
Proof. induction a as [|x a IH]; [reflexivity|]. simpl. now rewrite IH. Qed.

Lemma app_empty_r (a : string) : (a ++ "")%string = a.
Proof. induction a as [|x a IH]; [reflexivity|]. simpl. now rewrite IH. Qed.

Lemma digits_value_from_spec s : forall acc,
  digits_value_from acc s
  = (acc * 10 ^ N.of_nat (String.length s) + digits_value s)%N.
Proof.
  unfold digits_value. induction s as [|c s IH]; intros acc.
  - cbn [digits_value_from String.length]. change (N.of_nat 0) with 0%N.
    rewrite N.pow_0_r. lia.
  - cbn [digits_value_from String.length].
    rewrite (IH (acc * 10 + digit_of c)%N), (IH (0 * 10 + digit_of c)%N).
    rewrite Nat2N.inj_succ, N.pow_succ_r'. lia.
Qed.

Lemma digits_value_app s1 s2 :
  digits_value (s1 ++ s2)
  = (digits_value s1 * 10 ^ N.of_nat (String.length s2) + digits_value s2)%N.
Proof.
  unfold digits_value at 1. revert s2.
  assert (H : forall s1 s2 acc,
             digits_value_from acc (s1 ++ s2)
             = digits_value_from (digits_value_from acc s1) s2).
  { clear. induction s1 as [|c s1 IH]; intros s2 acc; [reflexivity|].
    simpl. apply IH. }
  intros s2. rewrite H. now rewrite digits_value_from_spec.
Qed.

Lemma digits_value_zeros n : digits_value (zeros n) = 0%N.
Proof.
  induction n as [|n IH]; [reflexivity|].
  change (zeros (S n)) with ("0" ++ zeros n)%string.
  rewrite digits_value_app, IH. reflexivity.
Qed.

Lemma all_digits_zeros n : all_digits (zeros n) = true.
Proof. induction n as [|n IH]; [reflexivity|exact IH]. Qed.

Lemma length_zeros n : String.length (zeros n) = n.
Proof. induction n as [|n IH]; [reflexivity|]. simpl. now rewrite IH. Qed.

Lemma digits_of_fuel_spec : forall fuel n acc,
  fuel <> 0 -> (n < 2 ^ N.of_nat fuel)%N -> all_digits acc = true ->
  digits_value (digits_of_fuel fuel n acc)
  = (n * 10 ^ N.of_nat (String.length acc) + digits_value acc)%N
  /\ all_digits (digits_of_fuel fuel n acc) = true
  /\ digits_of_fuel fuel n acc <> EmptyString.
Proof.
  induction fuel as [|fuel IH]; intros n acc Hfuel Hn Hacc; [congruence|].
  cbn [digits_of_fuel].
  assert (Hd : (n mod 10 < 10)%N) by (apply N.mod_lt; discriminate).
  destruct (digit_char_spec _ Hd) as [Hdigit Hvalue].
  assert (Hsplit : (n = 10 * (n / 10) + n mod 10)%N)
    by (apply N.div_mod; discriminate).
  assert (Hacc' : all_digits (String (digit_char (n mod 10)) acc) = true).
  { simpl. now rewrite Hdigit. }
  assert (Hval' : digits_value (String (digit_char (n mod 10)) acc)
                  = (n mod 10 * 10 ^ N.of_nat (String.length acc)
                     + digits_value acc)%N).
  { change (String (digit_char (n mod 10)) acc)
      with (String (digit_char (n mod 10)) "" ++ acc)%string.
    rewrite digits_value_app. unfold digits_value at 1. simpl digits_value_from.
    now rewrite Hvalue. }
  destruct (N.eqb_spec (n / 10) 0) as [Hzero|Hmore].
  - split; [|split; [exact Hacc'|discriminate]].
    rewrite Hval'. rewrite Hzero in Hsplit.
    replace (n mod 10)%N with n by lia. reflexivity.
  - assert (Hsmall : (n / 10 < 2 ^ N.of_nat fuel)%N).
    { rewrite Nat2N.inj_succ, N.pow_succ_r' in Hn.
      apply N.Div0.div_lt_upper_bound. lia. }
    assert (Hfuel' : fuel <> 0).
    { intros ->. change (2 ^ N.of_nat 0)%N with 1%N in Hsmall. lia. }
    destruct (IH (n / 10)%N _ Hfuel' Hsmall Hacc') as (Hv & Ha & Hne).
    split; [|split; assumption].
    rewrite Hv, Hval'. cbn [String.length].
    rewrite Nat2N.inj_succ, N.pow_succ_r'.
    set (power := (10 ^ N.of_nat (String.length acc))%N).
    assert (E : (n * power
                 = n / 10 * (10 * power) + n mod 10 * power)%N)
      by (rewrite Hsplit at 1; ring).
    rewrite E. ring.
Qed.

Lemma digits_of_spec n :
  digits_value (digits_of n) = n
  /\ all_digits (digits_of n) = true
  /\ digits_of n <> EmptyString.
Proof.
  unfold digits_of.
  destruct (digits_of_fuel_spec (S (N.to_nat (N.log2 n))) n EmptyString)
    as (Hv & Ha & Hne); [discriminate| |reflexivity|].
  - rewrite Nat2N.inj_succ, N2Nat.id.
    destruct (N.eq_dec n 0) as [->|Hpos]; [reflexivity|].
    apply N.log2_spec. lia.
  - split; [|split; assumption].
    rewrite Hv. simpl. unfold digits_value. simpl. lia.
Qed.

(** What [trimmed] removes is zeros at the end. *)
Lemma trimmed_spec s :
  exists z, s = (trimmed s ++ zeros z)%string
            /\ (all_digits s = true -> all_digits (trimmed s) = true).
Proof.
  induction s as [|c s (z & Hs & Hd)].
  - exists 0. now split.
  - cbn [trimmed]. destruct (trimmed s) as [|c' s'] eqn:Et.
    + destruct (Ascii.eqb_spec c "0") as [->|Hc].
      * exists (S z). split; [simpl in *; now rewrite Hs at 1|reflexivity].
      * exists z. split; [simpl in *; now rewrite Hs at 1|].
        simpl. intros H. apply andb_true_iff in H. now rewrite (proj1 H).
    + exists z. split; [simpl in *; now rewrite Hs at 1|].
      intros H. simpl in H. apply andb_true_iff in H. destruct H as [Hc Hrest].
      change (all_digits (String c (String c' s')))
        with (is_digit c && all_digits (String c' s')).
      now rewrite Hc, (Hd Hrest).
Qed.

Lemma read_digits_prefix ds : forall rest,
  all_digits ds = true ->
  (match rest with
   | EmptyString => true
   | String c _ => negb (is_digit c)
   end = true) ->
  read_digits (ds ++ rest) = (ds, rest).
Proof.
  induction ds as [|d ds IH]; intros rest Hds Hrest.
  - simpl. destruct rest as [|c rest]; [reflexivity|].
    simpl. apply negb_true_iff in Hrest. now rewrite Hrest.
  - simpl in Hds. apply andb_true_iff in Hds. destruct Hds as [Hd Hds].
    simpl. rewrite Hd. now rewrite (IH rest Hds Hrest).
Qed.

(** ** Reading what [format_digits] writes *)

Lemma read_digits_all ds :
  all_digits ds = true -> read_digits ds = (ds, EmptyString).
Proof.
  intros Hds. rewrite <- (app_empty_r ds) at 1.
  now apply read_digits_prefix.
Qed.

(** The exponent is read back with its sign. *)
Lemma exponent_text_spec e :
  exists d ds,
    exponent_text e
    = String (if (e <? 0)%Z then "-"%char else "+"%char) (String d ds)
    /\ all_digits (String d ds) = true
    /\ Z.of_N (digits_value (String d ds)) = Z.abs e.
Proof.
  unfold exponent_text.
  destruct (digits_of_spec (Z.abs_N e)) as (Hv & Ha & Hne).
  assert (Hvalue : Z.of_N (digits_value (digits_of (Z.abs_N e))) = Z.abs e)
    by (rewrite Hv; apply N2Z.inj_abs_N).
  destruct (digits_of (Z.abs_N e)) as [|d ds] eqn:Ed; [congruence|].
  destruct (String.length (String d ds) <? 2)%nat.
  - exists "0"%char, (String d ds). split; [now destruct (e <? 0)%Z|].
    split; [exact Ha|].
    change (String "0" (String d ds)) with ("0" ++ String d ds)%string.
    rewrite digits_value_app. exact Hvalue.
  - exists d, ds. split; [now destruct (e <? 0)%Z|]. now split.
Qed.

Lemma parse_exponent D shift e :
  match exponent_text e with
  | EmptyString => None
  | rest =>
      let '(negative, rest') :=
        match rest with
        | String "-" r => (true, r)
        | String "+" r => (false, r)
        | _ => (false, rest)
        end in
      match read_digits rest' with
      | (String d ds, EmptyString) =>
          let e' := Z.of_N (digits_value (String d ds)) in
          Some (D, ((if negative then - e' else e') - shift)%Z)
      | _ => None
      end
  end = Some (D : N, (e - shift)%Z).
Proof.
  destruct (exponent_text_spec e) as (d & ds & -> & Ha & Hv).
  destruct (e <? 0)%Z eqn:Hneg.
  - cbv zeta iota beta. rewrite (read_digits_all _ Ha).
    rewrite Hv. do 2 f_equal. apply Z.ltb_lt in Hneg. lia.
  - cbv zeta iota beta. rewrite (read_digits_all _ Ha).
    rewrite Hv. do 2 f_equal. apply Z.ltb_ge in Hneg. lia.
Qed.

Lemma parse_fixed whole fraction :
  all_digits whole = true -> all_digits fraction = true ->
  whole <> EmptyString ->
  parse_number (whole ++ "." ++ fraction)
  = Some (digits_value (whole ++ fraction),
          (- Z.of_nat (String.length fraction))%Z).
Proof.
  intros Hw Hf Hne. unfold parse_number.
  rewrite (read_digits_prefix whole ("." ++ fraction) Hw eq_refl).
  change ("." ++ fraction)%string with (String "." fraction).
  cbv iota beta. rewrite (read_digits_all fraction Hf).
  destruct whole as [|c whole]; [congruence|]. reflexivity.
Qed.

Lemma parse_scientific d fraction e :
  is_digit d = true -> all_digits fraction = true ->
  parse_number
    (String d EmptyString
     ++ (match fraction with
         | EmptyString => EmptyString
         | _ => "." ++ fraction
         end)
     ++ "e" ++ exponent_text e)
  = Some (digits_value (String d fraction),
          (e - Z.of_nat (String.length fraction))%Z).
Proof.
  intros Hd Hf.
  assert (Hone : all_digits (String d "") = true) by (simpl; now rewrite Hd).
  pose proof (parse_exponent (digits_value (String d fraction))
                (Z.of_nat (String.length fraction)) e) as Hexp.
  destruct fraction as [|f fraction].
  - change (String d "" ++ "" ++ "e" ++ exponent_text e)%string
      with (String d "" ++ String "e" (exponent_text e))%string.
    unfold parse_number.
    rewrite (read_digits_prefix (String d "") (String "e" (exponent_text e))
               Hone eq_refl).
    cbv iota beta. cbn [String.append].
    change (Ascii.eqb "e" "e" || Ascii.eqb "e" "E") with true. cbv iota.
    destruct (exponent_text e) as [|c rest] eqn:Et; [discriminate|].
    exact Hexp.
  - change (String d "" ++ ("." ++ String f fraction) ++ "e" ++ exponent_text e)%string
      with (String d ""
            ++ String "." (String f fraction ++ String "e" (exponent_text e)))%string.
    unfold parse_number.
    rewrite (read_digits_prefix (String d "")
               (String "." (String f fraction ++ String "e" (exponent_text e)))
               Hone eq_refl).
    cbv iota beta.
    rewrite (read_digits_prefix (String f fraction)
               (String "e" (exponent_text e)) Hf eq_refl).
    cbv iota beta. cbn [String.append].
    change (Ascii.eqb "e" "e" || Ascii.eqb "e" "E") with true. cbv iota.
    destruct (exponent_text e) as [|c rest] eqn:Et; [discriminate|].
    exact Hexp.
Qed.

Lemma take_drop n : forall s, (take n s ++ drop n s)%string = s.
Proof.
  induction n as [|n IH]; intros s; [reflexivity|].
  destruct s as [|c s]; [reflexivity|]. simpl. now rewrite IH.
Qed.

Lemma all_digits_take_drop n s :
  all_digits s = true ->
  all_digits (take n s) = true /\ all_digits (drop n s) = true.
Proof.
  intros Hs. rewrite <- (take_drop n s), all_digits_app in Hs.
  now apply andb_true_iff in Hs.
Qed.

Lemma length_take n : forall s,
  n <= String.length s -> String.length (take n s) = n.
Proof.
  induction n as [|n IH]; intros s Hn; [reflexivity|].
  destruct s as [|c s]; [simpl in Hn; lia|].
  simpl in *. rewrite IH; lia.
Qed.

(** What [format_digits] writes is read as the digits with their decimal
    point. *)
Lemma parse_format ds decpt :
  all_digits ds = true -> ds <> EmptyString ->
  exists D' p',
    parse_number (format_digits ds decpt) = Some (D', p')
    /\ nearest_bits D' p'
       = nearest_bits (digits_value ds) (decpt - Z.of_nat (String.length ds)).
Proof.
  intros Hds Hne. unfold format_digits.
  destruct ((decpt <=? - 4) || (16 <? decpt))%Z.
  { destruct ds as [|d rest]; [congruence|].
    simpl in Hds. apply andb_true_iff in Hds. destruct Hds as [Hd Hrest].
    pose proof (parse_scientific d rest (decpt - 1) Hd Hrest) as Hparse.
    exists (digits_value (String d rest)),
      (decpt - 1 - Z.of_nat (String.length rest))%Z.
    split.
    - destruct rest as [|f rest]; exact Hparse.
    - f_equal. cbn [String.length]. lia. }
  destruct (decpt <=? 0)%Z eqn:Hlow.
  { apply Z.leb_le in Hlow.
    assert (Hfraction : all_digits (zeros (Z.to_nat (- decpt)) ++ ds) = true)
      by now rewrite all_digits_app, all_digits_zeros.
    pose proof (parse_fixed "0" (zeros (Z.to_nat (- decpt)) ++ ds) eq_refl
                  Hfraction ltac:(discriminate)) as Hparse.
    eexists. eexists. split; [exact Hparse|].
    f_equal.
    - change ("0" ++ zeros (Z.to_nat (- decpt)) ++ ds)%string
        with (zeros (S (Z.to_nat (- decpt))) ++ ds)%string.
      rewrite digits_value_app, digits_value_zeros. reflexivity.
    - rewrite length_app, length_zeros. lia. }
  apply Z.leb_gt in Hlow.
  destruct (Z.of_nat (String.length ds) <=? decpt)%Z eqn:Hwhole.
  { apply Z.leb_le in Hwhole.
    set (z := Z.to_nat (decpt - Z.of_nat (String.length ds))).
    assert (Hw : all_digits (ds ++ zeros z) = true)
      by now rewrite all_digits_app, all_digits_zeros, Hds.
    assert (Hwne : (ds ++ zeros z)%string <> EmptyString)
      by (destruct ds; [congruence|discriminate]).
    pose proof (parse_fixed (ds ++ zeros z) "0" Hw eq_refl Hwne) as Hparse.
    change ((ds ++ zeros z) ++ "." ++ "0")%string
      with ((ds ++ zeros z) ++ ".0")%string in Hparse.
    rewrite app_assoc_string in Hparse.
    eexists. eexists. split; [exact Hparse|].
    rewrite app_assoc_string, digits_value_app.
    change (zeros z ++ "0")%string with (zeros z ++ zeros 1)%string.
    assert (Hz : forall k, (zeros k ++ zeros 1)%string = zeros (k + 1)).
    { clear. intros k. induction k as [|k IH]; [reflexivity|].
      simpl in *. now rewrite IH. }
    rewrite Hz, digits_value_zeros, length_zeros, N.add_0_r.
    rewrite <- (nearest_bits_shift (digits_value ds)
                  (decpt - Z.of_nat (String.length ds)) (N.of_nat (z + 1))).
    f_equal. cbn [String.length]. subst z. lia. }
  apply Z.leb_gt in Hwhole.
  destruct (all_digits_take_drop (Z.to_nat decpt) ds Hds) as [Htake Hdrop].
  assert (Htne : take (Z.to_nat decpt) ds <> EmptyString).
  { intros E. pose proof (length_take (Z.to_nat decpt) ds) as Hlen.
    rewrite E in Hlen. simpl in Hlen. lia. }
  pose proof (parse_fixed _ _ Htake Hdrop Htne) as Hparse.
  eexists. eexists. split; [exact Hparse|].
  rewrite take_drop. f_equal.
  assert (Hlen : String.length ds
                 = Z.to_nat decpt + String.length (drop (Z.to_nat decpt) ds)).
  { rewrite <- (take_drop (Z.to_nat decpt) ds) at 1.
    rewrite length_app, length_take; lia. }
  lia.
Qed.

(** ** The characters of a number *)

(** The characters that [float] strips, replaces or removes, and those of
    the vector syntax: a number written by [float_str] has none. *)
Definition reserved : list ascii :=
  float_spaces ++ [ "133"; "160"; "_"; ","; "["; "]" ]%char.

Lemma digit_not_reserved c : is_digit c = true -> char_in c reserved = false.
Proof.
  intros H. destruct c as [[] [] [] [] [] [] [] []];
    vm_compute in H |- *; congruence.
Qed.

Lemma all_digits_avoids s : all_digits s = true -> avoids reserved s = true.
Proof.
  induction s as [|c s IH]; [reflexivity|].
  cbn [all_digits avoids]. intros H. apply andb_true_iff in H.
  destruct H as [Hc Hs].
  now rewrite (digit_not_reserved c Hc), (IH Hs).
Qed.

Lemma exponent_text_avoids e : avoids reserved (exponent_text e) = true.
Proof.
  destruct (exponent_text_spec e) as (d & ds & -> & Hds & _).
  change (String ?c (String d ds)) with (String c "" ++ String d ds)%string.
  rewrite avoids_app, (all_digits_avoids _ Hds).
  now destruct (e <? 0)%Z.
Qed.

Lemma format_digits_avoids ds decpt :
  all_digits ds = true -> avoids reserved (format_digits ds decpt) = true.
Proof.
  intros Hds. unfold format_digits.
  destruct (all_digits_take_drop (Z.to_nat decpt) ds Hds) as [Htake Hdrop].
  destruct ((decpt <=? - 4) || (16 <? decpt))%Z;
    [|destruct (decpt <=? 0)%Z;
      [|destruct (Z.of_nat (String.length ds) <=? decpt)%Z]].
  - destruct ds as [|d [|f rest]]; [reflexivity| |].
    + change (String d "" ++ "e" ++ exponent_text (decpt - 1))%string
        with (String d "" ++ "e" ++ exponent_text (decpt - 1))%string.
      now rewrite !avoids_app, (all_digits_avoids _ Hds), exponent_text_avoids.
    + change (String d "" ++ "." ++ String f rest ++ "e"
              ++ exponent_text (decpt - 1))%string
        with (String d "" ++ "." ++ String f rest ++ "e"
              ++ exponent_text (decpt - 1))%string.
      simpl in Hds. apply andb_true_iff in Hds. destruct Hds as [Hd Hrest].
      rewrite !avoids_app, exponent_text_avoids.
      rewrite (all_digits_avoids (String d "")),
        (all_digits_avoids (String f rest)); [reflexivity|exact Hrest|].
      simpl. now rewrite Hd.
  - now rewrite !avoids_app, (all_digits_avoids _ (all_digits_zeros _)),
      (all_digits_avoids _ Hds).
  - now rewrite !avoids_app, (all_digits_avoids _ (all_digits_zeros _)),
      (all_digits_avoids _ Hds).
  - now rewrite !avoids_app, (all_digits_avoids _ Htake),
      (all_digits_avoids _ Hdrop).
Qed.

Lemma magnitude_str_avoids bits : avoids reserved (magnitude_str bits) = true.
Proof.
  unfold magnitude_str. destruct (bits =? 0)%N; [reflexivity|].
  destruct (shortest bits (exact_digits bits) _) as [c texp].
  apply format_digits_avoids.
  destruct (trimmed_spec (digits_of c)) as (z & _ & Htrimmed).
  apply Htrimmed. apply digits_of_spec.
Qed.

(** ** [float] of what [float_str] writes *)

Lemma nearest_bits_zero p : nearest_bits 0 p = 0%N.
Proof.
  apply nearest_bits_exact; [reflexivity|].
  unfold numerator. change (Z.of_N 0) with 0%Z.
  now rewrite Z.mul_0_l, Z.shiftl_0_l.
Qed.

(** The text of a magnitude is a number, and the float nearest to it is the
    one that was written. *)
Lemma magnitude_str_reads_back bits :
  (bits < inf_bits)%N ->
  exists D p,
    parse_number (magnitude_str bits) = Some (D, p)
    /\ nearest_bits D p = bits.
Proof.
  intros Hbits. unfold magnitude_str.
  destruct (bits =? 0)%N eqn:Hzero.
  { apply N.eqb_eq in Hzero. subst bits. exists 0%N, (- 1)%Z.
    split; [reflexivity|apply nearest_bits_zero]. }
  apply N.eqb_neq in Hzero.
  pose proof (shortest_sound bits Hbits
                (digit_count (exact_digits bits) - 1)) as Hsound.
  destruct (shortest bits (exact_digits bits) _) as [c texp].
  cbn [fst snd] in Hsound.
  destruct (digits_of_spec c) as (Hvalue & Hdigits & _).
  destruct (trimmed_spec (digits_of c)) as (z & Hsplit & Htrimmed).
  specialize (Htrimmed Hdigits).
  pose proof (f_equal String.length Hsplit) as Hlength.
  rewrite length_app, length_zeros in Hlength.
  pose proof (f_equal digits_value Hsplit) as Hc.
  rewrite digits_value_app, digits_value_zeros, length_zeros, N.add_0_r,
    Hvalue in Hc.
  assert (Hne : trimmed (digits_of c) <> EmptyString).
  { intros E. rewrite E in Hc. change (digits_value "") with 0%N in Hc.
    rewrite N.mul_0_l in Hc. subst c.
    rewrite nearest_bits_zero in Hsound. congruence. }
  destruct (parse_format (trimmed (digits_of c))
              (Z.of_nat (String.length (digits_of c)) + texp)
              Htrimmed Hne) as (D & p & Hparse & Hnear).
  exists D, p. split; [exact Hparse|].
  rewrite Hnear, <- Hsound.
  set (kept := digits_value (trimmed (digits_of c))) in *.
  set (count := String.length (digits_of c)) in *.
  set (count' := String.length (trimmed (digits_of c))) in *.
  rewrite Hc.
  rewrite <- (nearest_bits_shift kept _ (N.of_nat z)).
  f_equal. lia.
Qed.

Lemma parse_number_unsigned c rest r :
  parse_number (String c rest) = Some r -> c <> "-"%char /\ c <> "+"%char.
Proof.
  intros H. split; intros ->; vm_compute in H; discriminate.
Qed.

Lemma unsigned_text c rest :
  c <> "-"%char -> c <> "+"%char ->
  match String c rest with
  | String "-" r => (true, r)
  | String "+" r => (false, r)
  | _ => (false, String c rest)
  end = (false, String c rest).
Proof.
  intros Hminus Hplus.
  destruct c as [[] [] [] [] [] [] [] []]; try reflexivity; congruence.
Qed.

Lemma map_chars_avoids s :
  avoids reserved s = true -> map_chars to_ascii_space s = s.
Proof.
  induction s as [|c s IH]; [reflexivity|].
  cbn [avoids map_chars]. intros H. apply andb_true_iff in H.
  destruct H as [Hc Hs]. rewrite (IH Hs). f_equal.
  apply negb_true_iff in Hc. revert Hc.
  destruct c as [[] [] [] [] [] [] [] []]; vm_compute; congruence.
Qed.

Lemma lstrip_avoids chars s :
  avoids chars s = true -> lstrip chars s = s.
Proof.
  destruct s as [|c s]; [reflexivity|].
  simpl. intros H. apply andb_true_iff in H. destruct H as [Hc _].
  apply negb_true_iff in Hc. now rewrite Hc.
Qed.

Lemma rstrip_avoids chars s :
  avoids chars s = true -> rstrip chars s = s.
Proof.
  induction s as [|c s IH]; [reflexivity|].
  cbn [avoids rstrip]. intros H. apply andb_true_iff in H.
  destruct H as [Hc Hs]. apply negb_true_iff in Hc.
  rewrite (IH Hs), Hc. now destruct s.
Qed.

Lemma strip_chars_avoids chars s :
  avoids chars s = true -> strip_chars chars s = s.
Proof.
  intros H. unfold strip_chars.
  now rewrite (lstrip_avoids _ _ H), (rstrip_avoids _ _ H).
Qed.

Lemma without_underscores_avoids s : forall prev,
  Ascii.eqb prev "_" = false ->
  avoids reserved s = true -> without_underscores prev s = Some s.
Proof.
  induction s as [|c s IH]; intros prev Hprev H.
  - simpl. now rewrite Hprev.
  - cbn [avoids] in H. apply andb_true_iff in H. destruct H as [Hc Hs].
    apply negb_true_iff in Hc.
    assert (Hunder : Ascii.eqb c "_" = false).
    { destruct (Ascii.eqb c "_") eqn:E; [|reflexivity].
      apply Ascii.eqb_eq in E. subst c. discriminate Hc. }
    cbn [without_underscores]. rewrite Hunder, Hprev.
    cbn [andb]. now rewrite (IH c Hunder Hs).
Qed.

(** [float] of a number without reserved characters, with or without a
    minus sign before it. *)
Lemma float_parse_number (negative : bool) s D p :
  avoids reserved s = true -> parse_number s = Some (D, p) ->
  float_parse ((if negative then "-" else "") ++ s)
  = Some (round_decimal negative D p).
Proof.
  intros Hs Hparse.
  assert (Htext : avoids reserved ((if negative then "-" else "") ++ s) = true)
    by (rewrite avoids_app, Hs; now destruct negative).
  unfold float_parse.
  rewrite (map_chars_avoids _ Htext).
  rewrite (strip_chars_avoids float_spaces).
  2:{ apply (avoids_subset _ reserved); [|exact Htext].
      intros c. unfold reserved, char_in. rewrite existsb_app.
      now intros ->. }
  rewrite (without_underscores_avoids _ "000"%char eq_refl Htext).
  destruct negative.
  - change ("-" ++ s)%string with (String "-" s). cbv iota beta.
    now rewrite Hparse.
  - change ("" ++ s)%string with s.
    destruct s as [|c rest]; [discriminate Hparse|].
    destruct (parse_number_unsigned c rest _ Hparse) as [Hminus Hplus].
    rewrite (unsigned_text c rest Hminus Hplus).
    now rewrite Hparse.
Qed.

Lemma float_str_reads_back x :
  is_double x = true -> is_nan x = false -> float_parse (float_str x) = Some x.
Proof.
  destruct x as [|negative|negative bits]; intros Hdouble Hnan.
  - discriminate.
  - now destruct negative.
  - cbn [is_double] in Hdouble. apply N.ltb_lt in Hdouble.
    destruct (magnitude_str_reads_back bits Hdouble) as (D & p & Hparse & Hnear).
    pose proof (float_parse_number negative (magnitude_str bits) D p
                  (magnitude_str_avoids bits) Hparse) as Hread.
    assert (Htext : float_str (Finite negative bits)
                    = ((if negative then "-" else "") ++ magnitude_str bits)%string)
      by now destruct negative.
    rewrite Htext, Hread. unfold round_decimal. rewrite Hnear.
    apply N.ltb_lt in Hdouble. now rewrite Hdouble.
Qed.

Lemma float_str_avoids x : avoids reserved (float_str x) = true.
Proof.
  destruct x as [|negative|negative bits].
  - reflexivity.
  - now destruct negative.
  - cbn [float_str]. destruct negative; [|apply magnitude_str_avoids].
    rewrite avoids_app, magnitude_str_avoids. reflexivity.
Qed.

End FloatFacts.

(** ** C10: vectors written and read back *)

Module VectorFacts.
Import Py PyFacts PyFloat Types Embedding FloatFacts.

Lemma brackets_reserved c :
  char_in c [ "["%char; "]"%char ] = true -> char_in c reserved = true.
Proof.
  destruct c as [[] [] [] [] [] [] [] []]; vm_compute; congruence.
Qed.

Lemma comma_reserved c :
  char_in c [ ","%char ] = true -> char_in c reserved = true.
Proof.
  destruct c as [[] [] [] [] [] [] [] []]; vm_compute; congruence.
Qed.

Lemma floats_of_printed v :
  Forall (fun x => is_double x = true) v ->
  Forall (fun x => is_nan x = false) v ->
  floats_of (map float_str v) = inr v.
Proof.
  induction v as [|x v IH]; intros Hdouble Hnan; [reflexivity|].
  inversion Hdouble as [|? ? Hx Hv]; subst.
  inversion Hnan as [|? ? Hx' Hv']; subst.
  cbn [map floats_of].
  now rewrite (float_str_reads_back x Hx Hx'), (IH Hv Hv').
Qed.

Lemma float_eq_refl x : is_nan x = false -> float_eq x x = true.
Proof.
  destruct x as [|negative|negative bits]; [discriminate| |]; intros _.
  - apply Bool.eqb_reflx.
  - cbn [float_eq]. rewrite Bool.eqb_reflx, N.eqb_refl. apply orb_true_r.
Qed.

Lemma list_eq_refl v :
  Forall (fun x => is_nan x = false) v -> list_eq v v = true.
Proof.
  induction 1 as [|x v Hx _ IH]; [reflexivity|].
  cbn [list_eq]. now rewrite (float_eq_refl x Hx), IH.
Qed.

(** What [string_to_vector] splits at the commas is what [vector_to_string]
    joined. *)
Lemma string_to_vector_printed v :
  string_to_vector (vector_to_string v)
  = floats_of (split "," (join "," (map float_str v))).
Proof.
  unfold string_to_vector, vector_to_string.
  change ("[" ++ join "," (map float_str v) ++ "]")%string
    with (String "[" (join "," (map float_str v) ++ String "]" "")).
  rewrite (strip_chars_enclosed [ "["%char; "]"%char ] "[" "]" _
             eq_refl eq_refl); [reflexivity|].
  apply avoids_join; [reflexivity|].
  apply Forall_map, Forall_forall. intros x _.
  apply (avoids_subset _ reserved); [apply brackets_reserved|].
  apply float_str_avoids.
Qed.

Lemma split_printed v :
  v <> [] -> split "," (join "," (map float_str v)) = map float_str v.
Proof.
  intros Hv. apply split_join.
  - destruct v; [congruence|discriminate].
  - apply Forall_map, Forall_forall. intros x _.
    apply (avoids_subset _ reserved); [|apply float_str_avoids].
    apply comma_reserved.
Qed.

(** 0.1, -2.5 and 1e+22 *)
Definition sample_vector : vector :=
  [ Finite false 4591870180066957722;
    Finite true 4612811918334230528;
    Finite false 4936209963552724370 ].

Definition nan_vector : vector := [ Nan ].

(** C10, where it fails: the vector whose one element is [nan] is written
    and read back as a vector of one [nan], which [==] finds different from
    the vector that was written, [nan] being equal to no float. *)
Lemma nan_vector_not_equal :
  vector_to_string nan_vector = "[nan]"
  /\ exists w, string_to_vector (vector_to_string nan_vector) = inr w
               /\ list_eq w nan_vector = false.
Proof.
  split; [reflexivity|]. exists [ Nan ]. split; reflexivity.
Qed.

(** C10. For every list of floats [v] without a [nan],
    [string_to_vector (vector_to_string v)] returns [v] itself when [v] is
    not empty, and that is equal to [v] under [==]; for the empty list it
    raises [ValueError]. ([is_double]: the bits are those of a float.) *)
Theorem vector_string_round_trip v :
  Forall (fun x => is_double x = true) v ->
  Forall (fun x => is_nan x = false) v ->
  string_to_vector (vector_to_string v)
  = match v with
    | [] => inl (ValueError "could not convert string to float")
    | _ :: _ => inr v
    end
  /\ list_eq v v = true.
Proof.
  intros Hdouble Hnan. split; [|now apply list_eq_refl].
  rewrite string_to_vector_printed.
  destruct v as [|x v]; [reflexivity|].
  rewrite split_printed by discriminate.
  now apply floats_of_printed.
Qed.

Lemma vector_string_round_trip_witness :
  string_to_vector (vector_to_string sample_vector) = inr sample_vector
  /\ list_eq sample_vector sample_vector = true.
Proof.
  apply (vector_string_round_trip sample_vector); repeat constructor.
Defined.

(** The text of the sample vector, and of the empty one, which does not
    read back. *)
Example sample_vector_text :
  vector_to_string sample_vector = "[0.1,-2.5,1e+22]"
  /\ vector_to_string [] = "[]"
  /\ string_to_vector "[]"
     = inl (ValueError "could not convert string to float").
Proof. vm_compute. repeat split. Qed.

End VectorFacts.

Module DbOperationsFacts.
Import Py PyFacts Types Run Embedding DbOperations.

(** ** C5 *)

Lemma try_except_fallback {A} (c : M A) (fallback : A) w :
  try_except c (fun _ => ret fallback) w
  = (inr match fst (c w) with inr a => a | inl _ => fallback end, snd (c w)).
Proof. unfold try_except, ret. now destruct (c w) as [[e|a] w']. Qed.

(** When the index fails the attempt raises, whatever was embedded. *)
Lemma memory_search_attempt_index_failure ext query_text user_id t n w :
  (forall query_embedding,
      exists e, sql_search_patient_memories ext query_embedding user_id t n = inl e) ->
  exists e, fst (memory_search_attempt ext query_text user_id t n w) = inl e.
Proof.
  intros Hfail. unfold memory_search_attempt, bind.
  destruct (get_embedding_service ext w) as [[e|service] w1]; [now exists e|].
  destruct (generate_embedding service query_text w1) as [[e|embedding] w2];
    [now exists e|].
  unfold record_call, lift. cbn.
  destruct (Hfail embedding) as [e He]. rewrite He. now exists e.
Qed.

Lemma message_search_attempt_index_failure ext query_text conversation_id t n w :
  (forall query_embedding,
      exists e, sql_search_messages ext query_embedding conversation_id t n = inl e) ->
  exists e, fst (message_search_attempt ext query_text conversation_id t n w) = inl e.
Proof.
  intros Hfail. unfold message_search_attempt, bind.
  destruct (get_embedding_service ext w) as [[e|service] w1]; [now exists e|].
  destruct (generate_embedding service query_text w1) as [[e|embedding] w2];
    [now exists e|].
  unfold record_call, lift. cbn.
  destruct (Hfail embedding) as [e He]. rewrite He. now exists e.
Qed.

(** When the service cannot be built the attempt raises. *)
Lemma get_embedding_service_failure ext w e :
  instance w = None -> init ext (embedding_mode ext) None = inl e ->
  get_embedding_service ext w = (inl e, w).
Proof.
  intros Hnone Hinit. unfold get_embedding_service, bind, get_instance, lift.
  now rewrite Hnone, Hinit.
Qed.

(** An empty or blank query makes the embedding raise. *)
Lemma generate_embedding_blank self text w :
  truthy text && truthy (strip text) = false ->
  generate_embedding self text w = (inl (ValueError "Text cannot be empty"), w).
Proof.
  intros H. unfold generate_embedding.
  rewrite <- negb_andb, H. reflexivity.
Qed.

(** C5. Neither similarity search ever raises; when the delegated search
    raises, in embedding generation or in the external index, each returns
    the empty list. *)
Theorem similarity_search_falls_back_to_empty
    ext query_text user_id conversation_id t n w :
  ((exists e, fst (memory_search_attempt ext query_text user_id t n w) = inl e) ->
   fst (search_similar_patient_memories ext query_text user_id t n w) = inr [])
  /\ ((exists e,
         fst (message_search_attempt ext query_text conversation_id t n w) = inl e) ->
      fst (search_similar_messages ext query_text conversation_id t n w) = inr [])
  /\ (exists memories,
        fst (search_similar_patient_memories ext query_text user_id t n w)
        = inr memories)
  /\ (exists found,
        fst (search_similar_messages ext query_text conversation_id t n w)
        = inr found).
Proof.
  unfold search_similar_patient_memories, search_similar_messages.
  rewrite !try_except_fallback. cbn [fst].
  repeat split.
  - intros [e He]. now rewrite He.
  - intros [e He]. now rewrite He.
  - eexists. reflexivity.
  - eexists. reflexivity.
Qed.

(** An index that is down. *)
Definition index_down : externals :=
  {| embedding_mode := "LOCAL";
     openai_api_key := None;
     sentence_transformers := Some (fun _ => inr EmbeddingFacts.length_model);
     openai := None;
     sql_search_patient_memories := fun _ _ _ _ => inl (Failure "connection refused");
     sql_search_messages := fun _ _ _ _ => inl (Failure "connection refused");
     nanoid := fun _ _ => "V1StGXR8";
     clock := fun n => Z.of_nat n;
     isoformat := fun _ => "1970-01-01T00:00:00+00:00" |}.

Lemma similarity_search_falls_back_to_empty_witness :
  fst (search_similar_patient_memories index_down "fever" "user_1"
         float_0_7 5%Q EmbeddingFacts.empty_world) = inr []
  /\ fst (search_similar_messages index_down "fever" None
            float_0_7 10%Q EmbeddingFacts.empty_world) = inr [].
Proof.
  split.
  - apply (similarity_search_falls_back_to_empty index_down "fever" "user_1"
             None float_0_7 5%Q EmbeddingFacts.empty_world).
    exists (Failure "connection refused"). reflexivity.
  - apply (proj1 (proj2
             (similarity_search_falls_back_to_empty index_down "fever" "user_1"
                None float_0_7 10%Q EmbeddingFacts.empty_world))).
    exists (Failure "connection refused"). reflexivity.
Defined.

(** The chat path goes on without memory context when the search fails. *)
Lemma context_empty_when_search_fails ext user_id user_message n t w :
  (exists e, fst (memory_search_attempt ext user_message user_id t n w) = inl e) ->
  fst (Perplexity.get_relevant_context_with_vectors ext user_id user_message n t w)
  = inr {| Perplexity.memoryContext := "";
           Perplexity.relevantMemoriesCount := 0;
           Perplexity.tokensUsed := 0;
           Perplexity.searchMethod := "vector_similarity";
           Perplexity.error := None |}.
Proof.
  intros [e He]. unfold Perplexity.get_relevant_context_with_vectors.
  unfold try_except, bind, search_similar_patient_memories.
  rewrite try_except_fallback, He. reflexivity.
Qed.

(** ** C9 *)

Lemma apply_write_keeps d op :
  (forall m, In m (messages d) -> In m (messages (apply_write d op)))
  /\ (forall p, In p (patient_memory d) -> In p (patient_memory (apply_write d op))).
Proof.
  destruct op; simpl; split; intros x Hx; try exact Hx;
    apply in_or_app; now left.
Qed.

Lemma commit_keeps ops : forall d,
  (forall m, In m (messages d) -> In m (messages (fold_left apply_write ops d)))
  /\ (forall p, In p (patient_memory d) ->
                In p (patient_memory (fold_left apply_write ops d))).
Proof.
  induction ops as [|op ops IH]; intros d; [now split|].
  simpl. destruct (IH (apply_write d op)) as [IHm IHp].
  destruct (apply_write_keeps d op) as [Hm Hp].
  split; intros x Hx; [apply IHm, Hm, Hx|apply IHp, Hp, Hx].
Qed.

(** A commit stores what the transaction added. *)
Lemma commit_adds_message ops m : forall d,
  In (AddMessage m) ops -> In m (messages (fold_left apply_write ops d)).
Proof.
  induction ops as [|op ops IH]; intros d; [intros []|].
  intros [->|Hin]; [|now apply IH].
  simpl. apply (proj1 (commit_keeps ops _)). simpl.
  apply in_or_app. right. now left.
Qed.

Lemma commit_adds_memory ops p : forall d,
  In (AddPatientMemory p) ops ->
  In p (patient_memory (fold_left apply_write ops d)).
Proof.
  induction ops as [|op ops IH]; intros d; [intros []|].
  intros [->|Hin]; [|now apply IH].
  simpl. apply (proj2 (commit_keeps ops _)). simpl.
  apply in_or_app. right. now left.
Qed.

(** Embedding generation fails: it raises, or it returns [None]. *)
Definition embedding_fails (attempt : M (option vector)) (w : world) : Prop :=
  (exists e, fst (attempt w) = inl e) \/ fst (attempt w) = inr None.

Lemma guarded_attempt_fails (guard : bool) attempt w :
  embedding_fails attempt w ->
  (if guard then try_except attempt (fun _ => ret None) else ret None) w
  = (inr None, if guard then snd (attempt w) else w).
Proof.
  intros H. destruct guard; [|reflexivity].
  rewrite try_except_fallback. destruct H as [[e He]|He]; now rewrite He.
Qed.

(** The message is returned and stored with the fields given and without
    an embedding. *)
Definition message_stored_bare (outcome : result Message * world)
    (conversation_id role content : string) (citations : option (list string))
    (search_results : option (list search_result)) (model : option string)
  : Prop :=
  exists message w',
    outcome = (inr message, w')
    /\ msg_content_embedding message = None
    /\ msg_conversation_id message = conversation_id
    /\ msg_role message = role
    /\ msg_content message = content
    /\ msg_citations message = citations
    /\ msg_search_results message = search_results
    /\ msg_model message = model
    /\ In message (messages (db w'))
    /\ pending w' = [].

Definition memory_stored_bare (outcome : result PatientMemory * world)
    (user_id entity_type entity_name : string)
    (relationships : option (list relationship)) (metadata : option dict)
    (conversation_id : option string) : Prop :=
  exists memory w',
    outcome = (inr memory, w')
    /\ mem_content_embedding memory = None
    /\ mem_user_id memory = user_id
    /\ mem_entity_type memory = entity_type
    /\ mem_entity_name memory = entity_name
    /\ mem_relationships memory = relationships
    /\ mem_entity_metadata memory = metadata
    /\ mem_conversation_id memory = conversation_id
    /\ In memory (patient_memory (db w'))
    /\ pending w' = [].

Lemma create_message_without_embedding
    ext conversation_id role content citations search_results model w :
  embedding_fails
    (message_embedding_attempt ext role content citations search_results) w ->
  message_stored_bare
    (create_message ext conversation_id role content citations search_results
       model true w)
    conversation_id role content citations search_results model.
Proof.
  intros H. unfold message_stored_bare, create_message, bind at 1.
  rewrite (guarded_attempt_fails _ _ w H).
  set (w1 := if (true && truthy content && truthy (strip content))%bool
             then snd (message_embedding_attempt ext role content citations
                         search_results w)
             else w).
  unfold bind, generate_id, now_utc, db_write_op, db_commit, ret. cbn.
  eexists. eexists. split; [reflexivity|].
  cbn. repeat (split; [reflexivity|]). split; [|reflexivity].
  apply commit_adds_message. rewrite <- app_assoc.
  apply in_or_app. right. now left.
Qed.

Lemma create_patient_memory_without_embedding
    ext user_id entity_type entity_name relationships metadata conversation_id w :
  embedding_fails
    (memory_embedding_attempt ext entity_name entity_type relationships metadata) w ->
  memory_stored_bare
    (create_patient_memory ext user_id entity_type entity_name relationships
       metadata conversation_id true w)
    user_id entity_type entity_name relationships metadata conversation_id.
Proof.
  intros H. unfold memory_stored_bare, create_patient_memory, bind at 1.
  rewrite (guarded_attempt_fails _ _ w H).
  set (w1 := if (true && truthy entity_name && truthy (strip entity_name))%bool
             then snd (memory_embedding_attempt ext entity_name entity_type
                         relationships metadata w)
             else w).
  unfold bind, generate_id, now_utc, db_write_op, db_commit, ret. cbn.
  eexists. eexists. split; [reflexivity|].
  cbn. repeat (split; [reflexivity|]). split; [|reflexivity].
  apply commit_adds_memory. apply in_or_app. right. now left.
Qed.

(** C9. With embedding generation enabled, when the embedding attempt
    raises or returns nothing, [create_message] and [create_patient_memory]
    still return the entity, stored with the fields they were given and no
    embedding; nothing is raised. *)
Theorem entity_stored_when_embedding_fails
    ext w conversation_id role content citations search_results model
    user_id entity_type entity_name relationships metadata memory_conversation :
  (embedding_fails
     (message_embedding_attempt ext role content citations search_results) w ->
   message_stored_bare
     (create_message ext conversation_id role content citations search_results
        model true w)
     conversation_id role content citations search_results model)
  /\ (embedding_fails
        (memory_embedding_attempt ext entity_name entity_type relationships
           metadata) w ->
      memory_stored_bare
        (create_patient_memory ext user_id entity_type entity_name relationships
           metadata memory_conversation true w)
        user_id entity_type entity_name relationships metadata
        memory_conversation).
Proof.
  split.
  - apply create_message_without_embedding.
  - apply create_patient_memory_without_embedding.
Qed.

(** The library of the local model is not installed: the service cannot be
    built and the attempt raises. *)
Definition library_missing : externals :=
  {| embedding_mode := "LOCAL";
     openai_api_key := None;
     sentence_transformers := None;
     openai := None;
     sql_search_patient_memories := fun _ _ _ _ => inr [];
     sql_search_messages := fun _ _ _ _ => inr [];
     nanoid := fun _ _ => "V1StGXR8";
     clock := fun n => Z.of_nat n;
     isoformat := fun _ => "1970-01-01T00:00:00+00:00" |}.

(** The local model raises on every text: [generate_embedding] catches it
    and returns [None]. *)
Definition model_down : externals :=
  {| embedding_mode := "LOCAL";
     openai_api_key := None;
     sentence_transformers :=
       Some (fun _ => inr EmbeddingFacts.failing_model_single);
     openai := None;
     sql_search_patient_memories := fun _ _ _ _ => inr [];
     sql_search_messages := fun _ _ _ _ => inr [];
     nanoid := fun _ _ => "V1StGXR8";
     clock := fun n => Z.of_nat n;
     isoformat := fun _ => "1970-01-01T00:00:00+00:00" |}.

Lemma entity_stored_when_embedding_fails_witness :
  message_stored_bare
    (create_message library_missing "conv_1" "user" "I have a fever" None None
       None true EmbeddingFacts.empty_world)
    "conv_1" "user" "I have a fever" None None None
  /\ memory_stored_bare
       (create_patient_memory model_down "user_1" "condition" "Diabetes" None
          None None true EmbeddingFacts.empty_world)
       "user_1" "condition" "Diabetes" None None None.
Proof.
  split.
  - apply (entity_stored_when_embedding_fails library_missing
             EmbeddingFacts.empty_world "conv_1" "user" "I have a fever" None
             None None "user_1" "condition" "Diabetes" None None None).
    left. eexists. reflexivity.
  - apply (entity_stored_when_embedding_fails model_down
             EmbeddingFacts.empty_world "conv_1" "user" "I have a fever" None
             None None "user_1" "condition" "Diabetes" None None None).
    right. reflexivity.
Defined.

End DbOperationsFacts.

Module VectorSearchFacts.
Import Py Types Run VectorSearch.

(** ** C4 *)

Lemma le_spec x y : le x y = true <-> (x <= y)%Q.
Proof. unfold le, Qle. apply Z.leb_le. Qed.

(** [x] is outside [[low, high]]. *)
Definition outside (low high x : Q) : Prop := (x < low)%Q \/ (high < x)%Q.

Lemma outside_check low high x :
  outside low high x -> negb (le low x && le x high) = true.
Proof.
  intros H. apply negb_true_iff, andb_false_iff.
  destruct H as [H|H]; [left|right];
    apply not_true_is_false; rewrite le_spec; now apply Qlt_not_le.
Qed.

(** The threshold and the count of a request, the defaults filled in. *)
Definition threshold_of (data : search_request) : Q :=
  get (match_threshold data) float_0_7.

Definition count_of (default : Q) (data : search_request) : Q :=
  get (match_count data) default.

(** The call is answered 400 and the world is as it was: no embedding was
    computed and no index was searched. *)
Definition rejected (outcome : result response * world) (w : world) : Prop :=
  exists message,
    outcome = (inr {| body := Error message; status := 400 |}, w).

Lemma search_memories_rejects ext user data w :
  outside 0 1 (threshold_of data) \/ outside 1 50 (count_of 5 data) ->
  rejected (search_memories ext user data w) w.
Proof.
  intros H. unfold rejected, search_memories, try_except.
  destruct (query data) as [[|c q]|]; [now eexists|idtac|now eexists].
  fold (threshold_of data). fold (count_of 5 data).
  destruct (negb (le 0 (threshold_of data) && le (threshold_of data) 1)) eqn:Et;
    [now eexists|].
  destruct H as [H|H].
  - rewrite (outside_check _ _ _ H) in Et. discriminate.
  - rewrite (outside_check _ _ _ H). now eexists.
Qed.

Lemma search_messages_rejects ext user data w :
  outside 0 1 (threshold_of data) \/ outside 1 100 (count_of 10 data) ->
  rejected (search_messages_endpoint ext user data w) w.
Proof.
  intros H. unfold rejected, search_messages_endpoint, try_except.
  destruct (query data) as [[|c q]|]; [now eexists|idtac|now eexists].
  fold (threshold_of data). fold (count_of 10 data).
  destruct (negb (le 0 (threshold_of data) && le (threshold_of data) 1)) eqn:Et;
    [now eexists|].
  destruct H as [H|H].
  - rewrite (outside_check _ _ _ H) in Et. discriminate.
  - rewrite (outside_check _ _ _ H). now eexists.
Qed.

(** C4. A request whose threshold is outside [[0, 1]], or whose count is
    outside [[1, 50]] for the memory search and [[1, 100]] for the message
    search, is answered with status 400 before anything is delegated: the
    world, and with it the list of external calls, is unchanged. *)
Theorem invalid_parameters_rejected ext user data w :
  (outside 0 1 (threshold_of data) \/ outside 1 50 (count_of 5 data) ->
   rejected (search_memories ext user data w) w)
  /\ (outside 0 1 (threshold_of data) \/ outside 1 100 (count_of 10 data) ->
      rejected (search_messages_endpoint ext user data w) w).
Proof.
  split; [apply search_memories_rejects|apply search_messages_rejects].
Qed.

(** The call of the specification: a threshold of 1.5. *)
Definition threshold_too_high : search_request :=
  {| query := Some "fever"; conversation_id := None;
     match_threshold := Some (3 # 2)%Q; match_count := None |}.

Lemma invalid_parameters_rejected_witness :
  rejected
    (search_memories EmbeddingFacts.local_externals {| id := "user_1" |}
       threshold_too_high EmbeddingFacts.empty_world)
    EmbeddingFacts.empty_world
  /\ rejected
       (search_messages_endpoint EmbeddingFacts.local_externals
          {| id := "user_1" |} threshold_too_high EmbeddingFacts.empty_world)
       EmbeddingFacts.empty_world.
Proof.
  split;
    apply (invalid_parameters_rejected EmbeddingFacts.local_externals
             {| id := "user_1" |} threshold_too_high EmbeddingFacts.empty_world);
    left; right; reflexivity.
Defined.

(** A valid request is delegated: the embedding and the index are called. *)
Example valid_request_delegated :
  calls (snd (search_memories EmbeddingFacts.local_externals {| id := "user_1" |}
                {| query := Some "fever"; conversation_id := None;
                   match_threshold := None; match_count := None |}
                EmbeddingFacts.empty_world))
  = [ CallEncode "fever";
      CallSearchMemories (Some [PyFloat.nth_float 5]) "user_1" float_0_7 5%Q ].
Proof. reflexivity. Qed.

End VectorSearchFacts.

Module PerplexityExtras.
Import Py PyFacts Types Perplexity PerplexityFacts.

(** ** The session context *)

Lemma rebuild_messages (l : list message) :
  map (fun msg => mkMessage (role msg) (content msg)) l = l.
Proof.
  induction l as [|[r c] l IH]; [reflexivity|]. simpl. now rewrite IH.
Qed.

(** X1. [build_session_context] returns a suffix of the history, unchanged
    and in order: the last [max_messages] turns, all of them when there are
    no more than that; with [max_messages = 0] it returns every turn, not
    none. *)
Theorem build_session_context_keeps_last messages max_messages :
  exists dropped,
    messages = dropped ++ build_session_context messages max_messages
    /\ List.length (build_session_context messages max_messages)
       = match max_messages with
         | O => List.length messages
         | S _ => Nat.min (List.length messages) max_messages
         end.
Proof.
  assert (E : build_session_context messages max_messages
              = match max_messages with
                | O => messages
                | S _ => skipn (List.length messages - max_messages) messages
                end).
  { unfold build_session_context. rewrite rebuild_messages.
    destruct (Nat.ltb_spec max_messages (List.length messages)) as [H|H].
    - reflexivity.
    - destruct max_messages; [reflexivity|].
      replace (List.length messages - S max_messages) with 0 by lia.
      reflexivity. }
  rewrite E. destruct max_messages as [|n].
  - now exists [].
  - exists (firstn (List.length messages - S n) messages).
    split; [now rewrite firstn_skipn|]. rewrite length_skipn. lia.
Qed.

(** ** The new user turn *)

(** The list [send_message] hands to [call_perplexity]: either the new turn
    is appended to the context, or the context ended with a user turn and
    the text is added to it after a line feed. Every earlier turn is kept. *)
Lemma messages_for_api_ends_with_user session_context text :
  messages_for_api session_context text
  = session_context ++ [ mkMessage "user" text ]
  \/ exists earlier last,
       session_context = earlier ++ [ last ]
       /\ role last = "user"
       /\ messages_for_api session_context text
          = earlier ++ [ mkMessage "user" (content last ++ nl ++ text) ].
Proof.
  unfold messages_for_api.
  destruct (last_item session_context) as [last|] eqn:Hlast; [|now left].
  destruct (role last =? "user")%string eqn:E; [|now left].
  right. exists (removelast session_context), last.
  apply String.eqb_eq in E.
  split; [now apply last_item_split|]. split; [exact E|].
  unfold set_last, append_content. simpl. now rewrite E.
Qed.

(** ** The new text reaches the model *)

Lemma string_append_assoc (a b c : string) :
  ((a ++ b) ++ c = a ++ (b ++ c))%string.
Proof. induction a as [|x a IH]; [reflexivity|]. simpl. now rewrite IH. Qed.

(** [x] closes a list as [m] would: same role, a content that ends with the
    content of [m]. *)
Definition closes_like (m x : message) : Prop :=
  role x = role m /\ exists before, content x = (before ++ content m)%string.

Lemma closes_like_trans a b c : closes_like a b -> closes_like b c -> closes_like a c.
Proof.
  intros [Hr [p Hp]] [Hr' [q Hq]]. split; [congruence|].
  exists (q ++ p)%string. now rewrite Hq, Hp, string_append_assoc.
Qed.

Lemma normalize_step_last acc m :
  exists x, last_item (normalize_step acc m) = Some x /\ closes_like m x.
Proof.
  unfold normalize_step.
  destruct (last_item acc) as [last|] eqn:Hlast.
  - destruct ((role last =? role m)%string && negb (is_system m)) eqn:E.
    + exists (append_content last (content m)). unfold set_last.
      split; [apply last_item_snoc|].
      apply andb_true_iff in E. destruct E as [E _]. apply String.eqb_eq in E.
      split; [exact E|]. now exists (content last ++ nl)%string;
        simpl; rewrite string_append_assoc.
    + exists m. split; [apply last_item_snoc|].
      split; [reflexivity|now exists ""%string].
  - exists m. split; [apply last_item_snoc|].
    split; [reflexivity|now exists ""%string].
Qed.

Lemma validate_step_last acc m :
  exists x, last_item (validate_step acc m) = Some x /\ closes_like m x.
Proof.
  unfold validate_step.
  destruct (last_item acc) as [last|] eqn:Hlast.
  - destruct (role last =? role m)%string eqn:E.
    + exists (append_content last (content m)). unfold set_last.
      split; [apply last_item_snoc|]. apply String.eqb_eq in E.
      split; [exact E|]. now exists (content last ++ nl)%string;
        simpl; rewrite string_append_assoc.
    + exists m. split; [apply last_item_snoc|].
      split; [reflexivity|now exists ""%string].
  - exists m. split; [apply last_item_snoc|].
    split; [reflexivity|now exists ""%string].
Qed.

Lemma filter_keeps_last {A} (keep : A -> bool) l x :
  last_item l = Some x -> keep x = true -> last_item (filter keep l) = Some x.
Proof.
  intros Hlast Hx. rewrite (last_item_split l x Hlast), filter_app. simpl.
  rewrite Hx. apply last_item_snoc.
Qed.

Lemma validated_messages_last system_prompt earlier m :
  is_system m = false ->
  exists x, last_item (validated_messages system_prompt (earlier ++ [ m ])) = Some x
            /\ closes_like m x.
Proof.
  intros Hm. unfold validated_messages, normalize.
  rewrite fold_left_app. cbn [fold_left].
  destruct (normalize_step_last (fold_left normalize_step earlier []) m)
    as (x & Hx & Hclose).
  assert (Hsys : is_system x = false).
  { unfold is_system in *. destruct Hclose as [Hr _]. now rewrite Hr. }
  unfold final_messages, ensure_alternating.
  assert (Hkept : last_item (filter (fun m => negb (is_system m))
                               (normalize_step
                                  (fold_left normalize_step earlier []) m))
                  = Some x).
  { apply filter_keeps_last; [exact Hx|]. now rewrite Hsys. }
  rewrite (last_item_split _ x Hkept), fold_left_app. cbn [fold_left].
  destruct (validate_step_last
              (fold_left validate_step
                 (removelast (filter (fun m => negb (is_system m))
                                (normalize_step
                                   (fold_left normalize_step earlier []) m)))
                 [ mkMessage system_role system_prompt ]) x)
    as (y & Hy & Hclose').
  exists y. split; [exact Hy|]. now apply (closes_like_trans m x y).
Qed.

Lemma messages_for_api_last session_context text :
  exists earlier before,
    messages_for_api session_context text
    = earlier ++ [ mkMessage "user" (before ++ text) ].
Proof.
  unfold messages_for_api.
  destruct (last_item session_context) as [last|] eqn:Hlast;
    [|now exists session_context, ""%string].
  destruct (role last =? "user")%string eqn:E;
    [|now exists session_context, ""%string].
  apply String.eqb_eq in E.
  exists (removelast session_context), (content last ++ nl)%string.
  unfold set_last, append_content. simpl.
  now rewrite E, string_append_assoc.
Qed.

(** X2. The text the user just typed always reaches the model, and at the
    end: whatever the history, the last message of the request built for one
    chat turn is a user message whose content ends with the new text. *)
Theorem build_request_ends_with_new_text history max_messages text system_prompt :
  exists earlier before,
    build_request history max_messages text system_prompt
    = earlier ++ [ mkMessage "user" (before ++ text) ].
Proof.
  unfold build_request.
  destruct (messages_for_api_last
              (build_session_context history max_messages) text)
    as (earlier & before & E).
  rewrite E.
  destruct (validated_messages_last system_prompt earlier
              (mkMessage "user" (before ++ text)) eq_refl)
    as ([r c] & Hlast & Hrole & b & Hcontent).
  simpl in Hrole, Hcontent. subst r c.
  exists (removelast (validated_messages system_prompt
                        (earlier ++ [ mkMessage "user" (before ++ text) ]))),
    (b ++ before)%string.
  rewrite string_append_assoc. now apply last_item_split.
Qed.

(** ** Nothing said is lost *)



















End PerplexityExtras.

Module ClassifierExtras.
Import Py PyFacts Re PerplexityChat.

(** ** Regular expressions as sets of words *)

Lemma append_assoc (a b c : string) : ((a ++ b) ++ c = a ++ (b ++ c))%string.
Proof. induction a as [|x a IH]; [reflexivity|]. simpl. now rewrite IH. Qed.

Lemma append_empty_r (a : string) : (a ++ "" = a)%string.
Proof. induction a as [|x a IH]; [reflexivity|]. simpl. now rewrite IH. Qed.

Lemma drop_prefix_spec p : forall s rest,
  drop_prefix p s = Some rest <-> s = (p ++ rest)%string.
Proof.
  induction p as [|a p IH]; intros s rest.
  - simpl. destruct s; split; intros H; congruence.
  - destruct s as [|b s]; simpl.
    + split; intros H; discriminate.
    + destruct (Ascii.eqb_spec a b) as [->|Hab].
      * rewrite IH. split; intros H; congruence.
      * split; intros H; [discriminate|]. injection H as H _. congruence.
  Qed.

(** The words a pattern without [$] can match. *)
Fixpoint words (r : regex) : list string :=
  match r with
  | Lit s => [s]
  | Or one other => words one ++ words other
  | Seq first second =>
      flat_map (fun w => map (String.append w) (words second)) (words first)
  | Eos => [""]
  end.

Fixpoint plain (r : regex) : bool :=
  match r with
  | Lit _ => true
  | Or one other => plain one && plain other
  | Seq first second => plain first && plain second
  | Eos => false
  end.

(** A pattern without [$] leaves [rest] of [s] exactly when [s] is one of its
    words followed by [rest]. *)
Lemma run_plain r : plain r = true -> forall s rest,
  In rest (run r s) <-> exists w, In w (words r) /\ s = (w ++ rest)%string.
Proof.
  induction r as [l|one IH1 other IH2|first IH1 second IH2|]; intros Hp s rest.
  - simpl. destruct (drop_prefix l s) as [x|] eqn:E.
    + apply drop_prefix_spec in E. split.
      * intros [<-|[]]. exists l. split; [now left|exact E].
      * intros (w & [<-|[]] & Hs). left.
        rewrite E in Hs. clear E. revert Hs. generalize x, rest.
        induction l as [|c l IHl]; intros a b H; [exact H|].
        simpl in H. injection H as H. now apply IHl.
    + split; [intros []|]. intros (w & [<-|[]] & Hs).
      apply drop_prefix_spec in Hs. congruence.
  - simpl in Hp. apply andb_true_iff in Hp. destruct Hp as [Hp1 Hp2].
    simpl. rewrite in_app_iff, (IH1 Hp1), (IH2 Hp2). split.
    + intros [(w & Hw & Hs)|(w & Hw & Hs)]; exists w; rewrite in_app_iff; tauto.
    + intros (w & Hw & Hs). apply in_app_iff in Hw.
      destruct Hw as [Hw|Hw]; [left|right]; now exists w.
  - simpl in Hp. apply andb_true_iff in Hp. destruct Hp as [Hp1 Hp2].
    simpl. rewrite in_flat_map. split.
    + intros (mid & Hmid & Hrest).
      apply (IH1 Hp1) in Hmid. destruct Hmid as (w1 & Hw1 & Hs).
      apply (IH2 Hp2) in Hrest. destruct Hrest as (w2 & Hw2 & Hm).
      exists (w1 ++ w2)%string. split.
      * apply in_flat_map. exists w1. split; [exact Hw1|]. now apply in_map.
      * rewrite append_assoc. congruence.
    + intros (w & Hw & Hs). apply in_flat_map in Hw.
      destruct Hw as (w1 & Hw1 & Hw). apply in_map_iff in Hw.
      destruct Hw as (w2 & <- & Hw2).
      exists (w2 ++ rest)%string. split.
      * apply (IH1 Hp1). exists w1. split; [exact Hw1|].
        now rewrite <- append_assoc.
      * apply (IH2 Hp2). now exists w2.
  - discriminate.
Qed.

Lemma matches_spec r s : matches r s = true <-> exists rest, In rest (run r s).
Proof.
  unfold matches. destruct (run r s) as [|x l].
  - split; [discriminate|]. intros [rest []].
  - split; [|reflexivity]. intros _. exists x. now left.
Qed.

(** A pattern without [$] matches the texts that start with one of its
    words. *)
Lemma matches_plain r s :
  plain r = true ->
  matches r s = true
  <-> exists w rest, In w (words r) /\ s = (w ++ rest)%string.
Proof.
  intros Hp. rewrite matches_spec. split.
  - intros (rest & H). apply (run_plain r Hp) in H.
    destruct H as (w & Hw & Hs). now exists w, rest.
  - intros (w & rest & Hw & Hs). exists rest. apply (run_plain r Hp).
    now exists w.
Qed.

(** Closed by [$], it matches its words, and its words followed by one line
    feed. *)
Lemma matches_whole r s :
  plain r = true ->
  matches (Seq r Eos) s = true
  <-> exists w, In w (words r) /\ (s = w \/ s = (w ++ nl)%string).
Proof.
  intros Hp. rewrite matches_spec. simpl. split.
  - intros (rest & H). apply in_flat_map in H. destruct H as (mid & Hmid & Hrest).
    apply (run_plain r Hp) in Hmid. destruct Hmid as (w & Hw & Hs).
    exists w. split; [exact Hw|].
    destruct (String.eqb_spec mid "") as [->|Hne].
    + left. now rewrite append_empty_r in Hs.
    + destruct (String.eqb_spec mid nl) as [->|Hne2]; [now right|].
      simpl in Hrest. destruct Hrest.
  - intros (w & Hw & [->| ->]).
    + exists ""%string. apply in_flat_map. exists ""%string. split.
      * apply (run_plain r Hp). exists w. split; [exact Hw|].
        now rewrite append_empty_r.
      * now left.
    + exists nl. apply in_flat_map. exists nl. split.
      * apply (run_plain r Hp). now exists w.
      * now left.
Qed.

Lemma no_pattern_matches_false patterns text :
  no_pattern_matches patterns text = false
  <-> exists pattern, In pattern patterns /\ matches pattern text = true.
Proof.
  induction patterns as [|p patterns IH]; simpl.
  - split; [discriminate|]. intros (? & [] & _).
  - destruct (matches p text) eqn:E.
    + split; [|reflexivity]. intros _. exists p. split; [now left|exact E].
    + rewrite IH. split.
      * intros (q & Hq & Hm). exists q. split; [now right|exact Hm].
      * intros (q & [<-|Hq] & Hm); [congruence|]. now exists q.
Qed.

(** ** The classifier *)

(** The openings of a casual text. *)
Definition casual_openings : list string :=
  [ "hi"; "hello"; "hey"; "good morning"; "good afternoon"; "good evening";
    "greetings";
    "how are you"; "how're you"; "how r u"; "what's up"; "wassup"; "sup";
    "how is it going"; "how's it going"; "how are things";
    "my name is"; "i am"; "i'm"; "this is";
    "i'm called"; "they call me"; "people call me";
    "who are you"; "what are you"; "what is your name"; "your name";
    "do you know me"; "do you know my name"; "do you know who i am";
    "do you know where i";
    "tell me about yourself"; "what do you do";
    "thank you"; "thanks"; "thx"; "ty"; "appreciate";
    "bye"; "goodbye"; "see you"; "talk later"; "gotta go";
    "nice to meet you"; "pleasure"; "good to";
    "sorry"; "my bad"; "excuse me"; "pardon" ].

(** The words that are casual on their own. *)
Definition acknowledgements : list string :=
  [ "ok"; "okay"; "yes"; "no"; "yeah"; "yep"; "nope"; "sure"; "alright"; "cool" ].

Definition opening_patterns : list regex := removelast casual_patterns.

Definition acknowledgement_group : regex :=
  one_of "ok" [ "okay"; "yes"; "no"; "yeah"; "yep"; "nope"; "sure"; "alright";
                "cool" ].

Lemma casual_patterns_split :
  casual_patterns = opening_patterns ++ [ Seq acknowledgement_group Eos ].
Proof. reflexivity. Qed.

Lemma opening_patterns_words :
  flat_map words opening_patterns = casual_openings
  /\ forallb plain opening_patterns = true.
Proof. split; reflexivity. Qed.

Lemma acknowledgement_words :
  words acknowledgement_group = acknowledgements
  /\ plain acknowledgement_group = true.
Proof. split; reflexivity. Qed.

Definition starts_with_opening (text : string) : Prop :=
  exists opening rest, In opening casual_openings /\ text = (opening ++ rest)%string.

Lemma opening_pattern_matches text :
  (exists pattern, In pattern opening_patterns /\ matches pattern text = true)
  <-> starts_with_opening text.
Proof.
  destruct opening_patterns_words as [Hwords Hplain].
  rewrite forallb_forall in Hplain. unfold starts_with_opening. split.
  - intros (pattern & Hin & Hm).
    apply (matches_plain pattern text (Hplain pattern Hin)) in Hm.
    destruct Hm as (w & rest & Hw & Hs). exists w, rest. split; [|exact Hs].
    rewrite <- Hwords. apply in_flat_map. now exists pattern.
  - intros (w & rest & Hw & Hs). rewrite <- Hwords in Hw.
    apply in_flat_map in Hw. destruct Hw as (pattern & Hin & Hw).
    exists pattern. split; [exact Hin|].
    apply (matches_plain pattern text (Hplain pattern Hin)). now exists w, rest.
Qed.

(** What [strip] returns does not end with a character it strips. *)
Lemma rstrip_end chars s : forall a c,
  rstrip chars s = (a ++ String c "")%string -> char_in c chars = false.
Proof.
  induction s as [|x s IH]; intros a c H.
  - destruct a; discriminate.
  - cbn [rstrip] in H. destruct (rstrip chars s) as [|y r] eqn:E.
    + destruct (char_in x chars) eqn:Ex; [destruct a; discriminate|].
      destruct a as [|x' a]; [now injection H as <-|].
      injection H as _ H. destruct a; discriminate.
    + destruct a as [|x' a]; [discriminate|].
      injection H as _ H. now apply (IH a c).
Qed.

Lemma strip_no_final_line_feed s w : strip s <> (w ++ nl)%string.
Proof.
  intros H. apply rstrip_end in H. discriminate.
Qed.

Lemma casual_text_spec text :
  no_pattern_matches casual_patterns (strip text) = false
  <-> starts_with_opening (strip text) \/ In (strip text) acknowledgements.
Proof.
  rewrite no_pattern_matches_false, casual_patterns_split.
  destruct acknowledgement_words as [Hwords Hplain].
  rewrite <- opening_pattern_matches. split.
  - intros (pattern & Hin & Hm). apply in_app_iff in Hin.
    destruct Hin as [Hin|[<-|[]]]; [left; now exists pattern|].
    right. apply (matches_whole _ _ Hplain) in Hm.
    destruct Hm as (w & Hw & [Hs|Hs]).
    + rewrite Hs, <- Hwords. exact Hw.
    + now apply strip_no_final_line_feed in Hs.
  - intros [(pattern & Hin & Hm)|Hack].
    + exists pattern. split; [|exact Hm]. apply in_app_iff. now left.
    + exists (Seq acknowledgement_group Eos). split.
      * apply in_app_iff. right. now left.
      * apply (matches_whole _ _ Hplain). exists (strip text).
        split; [|now left]. now rewrite Hwords.
Qed.

Lemma is_medical_query_casual_core question :
  starts_with_opening (strip (lower question))
  \/ In (strip (lower question)) acknowledgements ->
  is_medical_query question = false.
Proof. unfold is_medical_query. apply casual_text_spec. Qed.

(** X3. [is_medical_query] answers [False] (casual) exactly for the
    questions that, in lower case and stripped of surrounding white space,
    start with one of the fifty casual openings or are one of the ten
    acknowledgement words; every other question is medical. *)
Theorem is_medical_query_casual_iff question :
  is_medical_query question = false
  <-> starts_with_opening (strip (lower question))
      \/ In (strip (lower question)) acknowledgements.
Proof. unfold is_medical_query. apply casual_text_spec. Qed.

(** ** Texts that begin like a casual one *)

Definition starts_clean (chars : list ascii) (p : string) : bool :=
  match p with
  | EmptyString => false
  | String c _ => negb (char_in c chars)
  end.

Fixpoint ends_clean (chars : list ascii) (p : string) : bool :=
  match p with
  | EmptyString => false
  | String c EmptyString => negb (char_in c chars)
  | String _ p' => ends_clean chars p'
  end.

Lemma lstrip_keeps chars p rest :
  starts_clean chars p = true -> lstrip chars (p ++ rest) = (p ++ rest)%string.
Proof.
  destruct p as [|c p]; [discriminate|]. simpl. intros H.
  apply negb_true_iff in H. now rewrite H.
Qed.

Lemma rstrip_keeps chars p : forall rest,
  ends_clean chars p = true ->
  exists rest', rstrip chars (p ++ rest) = (p ++ rest')%string.
Proof.
  induction p as [|c p IH]; intros rest H; [discriminate|].
  destruct p as [|d p].
  - simpl in H. apply negb_true_iff in H.
    exists (rstrip chars rest). simpl.
    destruct (rstrip chars rest); [now rewrite H|reflexivity].
  - destruct (IH rest H) as [rest' E]. exists rest'.
    change (rstrip chars (String c (String d p ++ rest))
            = String c (String d p ++ rest')).
    cbn [rstrip]. rewrite E. reflexivity.
Qed.

Lemma openings_clean :
  forallb (fun p => starts_clean whitespace p && ends_clean whitespace p)
    casual_openings = true.
Proof. reflexivity. Qed.

(** X4. A question that, in lower case, begins with a casual opening is
    classified casual whatever follows the opening: the patterns are tried
    as prefixes, so a question such as "I am having chest pain" or "High
    fever since Monday" is not treated as medical. *)
Theorem opening_makes_casual question opening rest :
  In opening casual_openings ->
  lower question = (opening ++ rest)%string ->
  is_medical_query question = false.
Proof.
  intros Hin Hlower. apply is_medical_query_casual_core.
  left. pose proof openings_clean as Hclean.
  rewrite forallb_forall in Hclean. specialize (Hclean opening Hin).
  apply andb_true_iff in Hclean. destruct Hclean as [Hs He].
  rewrite Hlower. unfold strip, strip_chars.
  rewrite (lstrip_keeps _ _ _ Hs).
  destruct (rstrip_keeps whitespace opening rest He) as [rest' E].
  rewrite E. now exists opening, rest'.
Qed.

Lemma opening_makes_casual_witness :
  is_medical_query "I am having chest pain" = false
  /\ is_medical_query "High fever since Monday" = false.
Proof.
  split.
  - apply (opening_makes_casual "I am having chest pain" "i am"
             " having chest pain"); [|reflexivity].
    unfold casual_openings. simpl. tauto.
  - apply (opening_makes_casual "High fever since Monday" "hi"
             "gh fever since monday"); [|reflexivity].
    now left.
Defined.

(** The two examples of the specification. *)
Example classifier_examples :
  is_medical_query "hi there" = false
  /\ is_medical_query "I have had a fever and cough for three days" = true.
Proof. split; reflexivity. Qed.

End ClassifierExtras.

Module ChatExtras.
Import Py PyFacts Types Perplexity PerplexityFacts PerplexityChat.

(** ** The model call *)






Lemma returned_entry_valid r :
  valid_entry r = true -> valid_entry (returned_entry r) = true.
Proof.
  unfold valid_entry, returned_entry, not_blank. simpl.
  destruct (sr_title r), (sr_url r); simpl; intros H; try discriminate; exact H.
Qed.

Lemma extracted_entries_valid raw :
  Forall (fun entry => valid_entry entry = true) (extract_search_results raw).
Proof.
  unfold extract_search_results. rewrite (search_results_loop raw []). simpl.
  apply Forall_map. apply Forall_forall. intros r Hr.
  apply filter_In in Hr. now apply returned_entry_valid.
Qed.

(** X6. Whatever goes wrong inside [call_perplexity] (the model call raises,
    or the completion has no choice), the caller sees one and the same
    exception, which carries nothing of the cause; when the call returns,
    the response names the model asked for, its content is the first
    choice's (empty when that is missing), and every search result in it has
    a title and a url that are not blank. *)
Theorem call_perplexity_outcome create messages model context user_message :
  match snd (call_perplexity create messages model context user_message) with
  | inl e => e = Failure "Failed to get response from Perplexity API"
  | inr response =>
      resp_model response = model
      /\ Forall (fun entry => valid_entry entry = true)
           (resp_searchResults response)
      /\ exists request completion first others,
           fst (call_perplexity create messages model context user_message)
           = [ request ]
           /\ create request = inr completion
           /\ choices completion = first :: others
           /\ resp_content response = get first ""
  end.
Proof.
  unfold call_perplexity. cbn [fst snd].
  set (request := {| req_model := model |}).
  destruct (create request) as [e|completion] eqn:Ecreate; [reflexivity|].
  destruct (choices completion) as [|first others] eqn:Echoices; [reflexivity|].
  cbn. split; [reflexivity|]. split; [apply extracted_entries_valid|].
  exists request, completion, first, others. now repeat split.
Qed.

End ChatExtras.

Module EmbeddingExtras.
Import Py PyFacts Types Run Embedding EmbeddingFacts.

(** ** The mode table *)

Lemma mode_of_name_spec name m :
  mode_of_name name = Some m ->
  match m with LOCAL => name = "LOCAL" | OPENAI => name = "OPENAI" end.
Proof.
  unfold mode_of_name.
  destruct (String.eqb_spec name "LOCAL") as [->|_]; [now intros [= <-]|].
  destruct (String.eqb_spec name "OPENAI") as [->|_]; [now intros [= <-]|].
  discriminate.
Qed.

(** X7. A service that [__init__] builds is in one of two modes, named
    LOCAL or OPENAI, and carries that mode's row of the table: 384
    dimensions, 512 tokens and a local model but no client, or 1536
    dimensions, 8191 tokens and a client but no local model. Any other mode
    name is refused with [ValueError]. *)
Theorem init_follows_mode_table ext mode_name api_key :
  match init ext mode_name api_key with
  | inr self =>
      match svc_mode self with
      | LOCAL =>
          mode_name = "LOCAL" /\ model_name self = "all-MiniLM-L6-v2"
          /\ dimensions self = 384%Z /\ max_tokens self = 512%Z
          /\ model self <> None /\ client self = None
      | OPENAI =>
          mode_name = "OPENAI" /\ model_name self = "text-embedding-3-small"
          /\ dimensions self = 1536%Z /\ max_tokens self = 8191%Z
          /\ client self <> None /\ model self = None
      end
  | inl e =>
      mode_name <> "LOCAL" -> mode_name <> "OPENAI" ->
      e = ValueError "Invalid mode. Must be 'LOCAL' or 'OPENAI'"
  end.
Proof.
  unfold init. destruct (mode_of_name mode_name) as [[|]|] eqn:Emode.
  - apply mode_of_name_spec in Emode.
    destruct (sentence_transformers ext) as [load|]; [|congruence].
    destruct (load _); [congruence|]. simpl. repeat split; congruence.
  - apply mode_of_name_spec in Emode.
    destruct (openai ext) as [connect|]; [|congruence].
    destruct (match api_key with
              | Some k => if truthy k then Some k else openai_api_key ext
              | None => openai_api_key ext
              end) as [k|]; [|congruence].
    destruct (truthy k); [|congruence].
    destruct (connect k); [congruence|]. simpl. repeat split; congruence.
  - reflexivity.
Qed.

Lemma init_follows_mode_table_witness :
  init local_externals "REMOTE" None
  = inl (ValueError "Invalid mode. Must be 'LOCAL' or 'OPENAI'").
Proof.
  pose proof (init_follows_mode_table local_externals "REMOTE" None) as H.
  destruct (init local_externals "REMOTE" None) as [e|self] eqn:E.
  - f_equal. apply H; discriminate.
  - discriminate.
Defined.

(** ** The singleton *)

(** X8. [get_embedding_service] builds the service at most once: after a
    call that returned a service, every further call returns that same
    service and changes nothing. A failed construction is not remembered:
    the world is left as it was, and the next call tries again. *)
Theorem get_embedding_service_once ext w :
  match get_embedding_service ext w with
  | (inr self, w') =>
      instance w' = Some self
      /\ get_embedding_service ext w' = (inr self, w')
      /\ calls w' = calls w /\ db w' = db w /\ pending w' = pending w
  | (inl e, w') => w' = w /\ instance w = None
  end.
Proof.
  unfold get_embedding_service, bind, get_instance, lift, set_instance, ret.
  destruct (instance w) as [current|] eqn:Einst.
  - rewrite Einst. now repeat split.
  - destruct (init ext (embedding_mode ext) None) as [e|self]; simpl.
    + now split.
    + now repeat split.
Qed.

(** ** One text *)

Lemma generate_embedding_effect self text w :
  not_empty text = true ->
  exists outcome,
    generate_embedding self text w = (inr outcome, w)
    \/ exists call, generate_embedding self text w
                    = (inr outcome, snd (record_call call w)).
Proof.
  intros Hne. unfold generate_embedding.
  rewrite (not_empty_guard text Hne).
  unfold try_except, bind, _generate_local, _generate_openai.
  destruct (svc_mode self).
  - destruct (model self) as [m|]; [|exists None; now left].
    unfold bind, record_call, lift, ret, raise. simpl.
    destruct (encode m text) as [e|v]; eexists; right; eexists; reflexivity.
  - destruct (client self) as [c|]; [|exists None; now left].
    unfold bind, record_call, lift, ret, raise. simpl.
    destruct (embeddings_create c _ _) as [e|[|first data]];
      eexists; right; eexists; reflexivity.
Qed.

(** X9. [generate_embedding] raises for one reason only: a text that is
    empty or all white space gives [ValueError] before anything is called.
    For any other text it returns, with [None] when the provider or the
    service is in trouble, after at most one call to the provider and with
    the database untouched. *)
Theorem generate_embedding_raises_only_on_blank self text w :
  (not_empty text = false ->
   generate_embedding self text w = (inl (ValueError "Text cannot be empty"), w))
  /\ (not_empty text = true ->
      exists outcome w',
        generate_embedding self text w = (inr outcome, w')
        /\ db w' = db w /\ pending w' = pending w /\ instance w' = instance w
        /\ (calls w' = calls w \/ exists call, calls w' = calls w ++ [ call ])).
Proof.
  split.
  - intros H. unfold generate_embedding, not_empty in *.
    rewrite <- negb_andb, H. reflexivity.
  - intros H. destruct (generate_embedding_effect self text w H)
      as [outcome [E|[call E]]]; rewrite E.
    + exists outcome, w. repeat split. now left.
    + exists outcome, (snd (record_call call w)). repeat split.
      right. now exists call.
Qed.

Lemma generate_embedding_raises_only_on_blank_witness :
  generate_embedding local_service "   " empty_world
  = (inl (ValueError "Text cannot be empty"), empty_world)
  /\ exists outcome w',
       generate_embedding local_service "fever" empty_world = (inr outcome, w')
       /\ db w' = db empty_world.
Proof.
  split.
  - apply (generate_embedding_raises_only_on_blank local_service "   " empty_world).
    reflexivity.
  - destruct (proj2 (generate_embedding_raises_only_on_blank local_service
                       "fever" empty_world) eq_refl)
      as (outcome & w' & E & Hdb & _).
    now exists outcome, w'.
Defined.

(** ** What OPENAI mode sends *)

Lemma length_append (a b : string) :
  String.length (a ++ b) = String.length a + String.length b.
Proof. induction a as [|c a IH]; [reflexivity|]. simpl. now rewrite IH. Qed.

Lemma append_nothing (a : string) : (a ++ "")%string = a.
Proof. induction a as [|c a IH]; [reflexivity|]. simpl. now rewrite IH. Qed.

(** A client that answers one vector per text. *)
Definition counting_client : OpenAI :=
  {| embeddings_create :=
       fun _ input =>
         match input with
         | OneText text => inr [ [ PyFloat.nth_float (String.length text) ] ]
         | ManyTexts texts =>
             inr (map (fun t => [ PyFloat.nth_float (String.length t) ]) texts)
         end |}.

Definition openai_externals : externals :=
  {| embedding_mode := "OPENAI";
     openai_api_key := Some "sk-test";
     sentence_transformers := None;
     openai := Some (fun _ => inr counting_client);
     sql_search_patient_memories := fun _ _ _ _ => inr [];
     sql_search_messages := fun _ _ _ _ => inr [];
     nanoid := fun _ _ => "V1StGXR8";
     clock := fun n => Z.of_nat n;
     isoformat := fun _ => "1970-01-01T00:00:00+00:00" |}.

Definition openai_service : EmbeddingService :=
  {| svc_mode := OPENAI; model_name := "text-embedding-3-small";
     dimensions := 1536; max_tokens := 8191; model := None;
     client := Some counting_client |}.

(** X10. In OPENAI mode [generate_embedding] sends one request, and what it
    sends is the text cut to its first 32764 characters: a prefix of the
    text, the whole text when it is not longer. *)
Theorem openai_single_text_is_cut ext mode_name api_key self text w :
  init ext mode_name api_key = inr self ->
  svc_mode self = OPENAI ->
  not_empty text = true ->
  exists sent rest,
    calls (snd (generate_embedding self text w))
    = calls w ++ [ CallEmbeddingsCreate "text-embedding-3-small" (OneText sent) ]
    /\ text = (sent ++ rest)%string
    /\ String.length sent = Nat.min (Z.to_nat 32764) (String.length text)
    /\ (String.length text <= Z.to_nat 32764 -> sent = text).
Proof.
  intros Hinit Hmode Hne.
  destruct (init_config _ _ _ _ Hinit) as (Hname & _ & Hmax & Hprov).
  rewrite Hmode in Hname, Hmax, Hprov. destruct Hprov as [Hc _].
  destruct (client self) as [c|] eqn:Ec; [|congruence].
  destruct (slice_to_prefix (max_tokens self * 4) text) as [[rest Hrest] Hlen].
  { rewrite Hmax. simpl. lia. }
  exists (slice_to (max_tokens self * 4) text), rest.
  split.
  { rewrite (generate_embedding_openai_calls self c text w Hmode Ec Hne).
    now rewrite Hname. }
  split; [exact Hrest|]. simpl in Hmax. rewrite Hmax in *.
  change (8191 * 4)%Z with 32764%Z in *. split; [exact Hlen|].
  intros Hshort.
  assert (Hrest_empty : String.length rest = 0).
  { pose proof (f_equal String.length Hrest) as Hsum.
    rewrite length_append, Hlen in Hsum.
    generalize dependent (Z.to_nat 32764). intros limit. lia. }
  destruct rest; [|discriminate].
  rewrite append_nothing in Hrest. now symmetry.
Qed.

Lemma openai_single_text_is_cut_witness :
  exists sent rest,
    calls (snd (generate_embedding openai_service "fever and cough" empty_world))
    = calls empty_world
      ++ [ CallEmbeddingsCreate "text-embedding-3-small" (OneText sent) ]
    /\ "fever and cough" = (sent ++ rest)%string
    /\ String.length sent
       = Nat.min (Z.to_nat 32764) (String.length "fever and cough")
    /\ (String.length "fever and cough" <= Z.to_nat 32764
        -> sent = "fever and cough").
Proof.
  apply (openai_single_text_is_cut openai_externals "OPENAI" None openai_service
           "fever and cough" empty_world); reflexivity.
Defined.

Lemma take_not_empty n s : n <> 0 -> s <> ""%string -> take n s <> ""%string.
Proof. destruct n, s; try congruence. discriminate. Qed.

Lemma openai_batch_text_bounds self t :
  max_tokens self = 8191%Z ->
  let sent := if truthy t && truthy (strip t)
              then slice_to (max_tokens self * 4) (strip t)
              else "empty"%string in
  sent <> ""%string /\ String.length sent <= Z.to_nat 32764.
Proof.
  intros Hmax. cbv zeta. rewrite Hmax.
  destruct (truthy t && truthy (strip t)) eqn:E.
  - apply andb_true_iff in E. destruct E as [_ Hs].
    unfold slice_to. change (8191 * 4 <? 0)%Z with false. cbv iota. split.
    + apply take_not_empty; [discriminate|]. destruct (strip t); [discriminate|congruence].
    + rewrite take_length. change (Z.to_nat (8191 * 4)) with (Z.to_nat 32764). lia.
  - split; [discriminate|]. simpl. lia.
Qed.

(** X11. In OPENAI mode a batch is sent as one request with one text per
    input, in the order of the input: each text stripped of surrounding
    white space and cut to 32764 characters, a blank one replaced by the word
    "empty". No text of the request is empty or longer than 32764
    characters. *)
Theorem openai_batch_texts_sent ext mode_name api_key self texts w :
  init ext mode_name api_key = inr self ->
  svc_mode self = OPENAI ->
  texts <> [] ->
  calls (snd (generate_embeddings_batch self texts w))
  = calls w ++ [ CallEmbeddingsCreate "text-embedding-3-small"
                   (ManyTexts (openai_batch_texts self texts)) ]
  /\ List.length (openai_batch_texts self texts) = List.length texts
  /\ Forall (fun sent => sent <> ""%string
                         /\ String.length sent <= Z.to_nat 32764)
       (openai_batch_texts self texts).
Proof.
  intros Hinit Hmode Hne.
  destruct (init_config _ _ _ _ Hinit) as (Hname & _ & Hmax & Hprov).
  rewrite Hmode in Hname, Hmax, Hprov. destruct Hprov as [Hc _].
  destruct (client self) as [c|] eqn:Ec; [|congruence].
  split.
  { destruct texts as [|t texts]; [congruence|].
    unfold generate_embeddings_batch, try_except. rewrite Hmode.
    unfold _generate_batch_openai. rewrite Ec.
    unfold bind, record_call, lift, ret.
    fold (openai_batch_texts self (t :: texts)). rewrite Hname.
    destruct (embeddings_create c _ _); reflexivity. }
  split; [apply length_map|].
  unfold openai_batch_texts. apply Forall_map, Forall_forall. intros t _.
  now apply openai_batch_text_bounds.
Qed.

Lemma openai_batch_texts_sent_witness :
  calls (snd (generate_embeddings_batch openai_service [ "  fever "; "   " ]
                empty_world))
  = [ CallEmbeddingsCreate "text-embedding-3-small"
        (ManyTexts [ "fever"; "empty" ]) ].
Proof.
  destruct (openai_batch_texts_sent openai_externals "OPENAI" None openai_service
              [ "  fever "; "   " ] empty_world eq_refl eq_refl) as [H _].
  - discriminate.
  - exact H.
Defined.

(** ** The texts that are embedded *)

(** Some character of [s] is not white space. *)
Fixpoint visible (s : string) : bool :=
  match s with
  | EmptyString => false
  | String c s' => negb (char_in c whitespace) || visible s'
  end.

Lemma truthy_rstrip s : truthy (rstrip whitespace s) = visible s.
Proof.
  induction s as [|c s IH]; [reflexivity|].
  cbn [rstrip visible]. rewrite <- IH.
  destruct (rstrip whitespace s).
  - now destruct (char_in c whitespace).
  - cbn [truthy]. now rewrite orb_true_r.
Qed.

Lemma visible_lstrip s : visible (lstrip whitespace s) = visible s.
Proof.
  induction s as [|c s IH]; [reflexivity|].
  cbn [lstrip visible]. destruct (char_in c whitespace) eqn:E; [exact IH|].
  cbn [visible]. now rewrite E.
Qed.

Lemma not_empty_visible s : not_empty s = visible s.
Proof.
  unfold not_empty, strip, strip_chars. rewrite truthy_rstrip, visible_lstrip.
  destruct s; [reflexivity|]. reflexivity.
Qed.

Lemma visible_append a b : visible (a ++ b) = visible a || visible b.
Proof.
  induction a as [|c a IH]; [reflexivity|]. simpl. now rewrite IH, orb_assoc.
Qed.

Lemma visible_join_first sep first others :
  visible first = true -> visible (join sep (first :: others)) = true.
Proof.
  intros H. destruct others as [|x others]; [exact H|].
  change (join sep (first :: x :: others))
    with (first ++ sep ++ join sep (x :: others))%string.
  now rewrite visible_append, H.
Qed.

Lemma message_text_visible content search_results :
  visible content = true -> visible (message_text content search_results) = true.
Proof.
  intros H. unfold message_text, append.
  destruct search_results as [[|r results]|]; try exact H.
  destruct (fold_left _ _ _); [exact H|].
  now apply (visible_join_first _ content).
Qed.

Lemma patient_memory_text_visible entity_name entity_type relationships metadata :
  visible entity_name = true ->
  visible (patient_memory_text entity_name entity_type relationships metadata)
  = true.
Proof.
  intros H.
  assert (Hfirst : visible (entity_type ++ ": " ++ entity_name) = true).
  { now rewrite !visible_append, H, !orb_true_r. }
  unfold patient_memory_text, append.
  repeat match goal with
         | |- context [match ?x with _ => _ end] => destruct x
         end;
    now apply (visible_join_first _ (entity_type ++ ": " ++ entity_name)%string).
Qed.

(** X12. The text built for a message starts from its content and the text
    built for a patient memory contains its entity name, so a content or a
    name that is not blank gives a text that is not blank: where
    [create_message] and [create_patient_memory] attempt an embedding,
    [generate_embedding] never raises for an empty text. *)
Theorem embedded_texts_not_blank self w :
  (forall content role citations search_results,
      not_empty content = true ->
      exists outcome,
        fst (generate_message_embedding self content role citations
               search_results w) = inr outcome)
  /\ (forall entity_name entity_type relationships metadata,
        not_empty entity_name = true ->
        exists outcome,
          fst (generate_patient_memory_embedding self entity_name entity_type
                 relationships metadata w) = inr outcome).
Proof.
  split.
  - intros content role citations search_results H.
    unfold generate_message_embedding.
    destruct (generate_embedding_effect self
                (message_text content search_results) w) as [outcome E].
    + rewrite not_empty_visible in *. now apply message_text_visible.
    + exists outcome. destruct E as [E|[call E]]; now rewrite E.
  - intros entity_name entity_type relationships metadata H.
    unfold generate_patient_memory_embedding.
    destruct (generate_embedding_effect self
                (patient_memory_text entity_name entity_type relationships
                   metadata) w) as [outcome E].
    + rewrite not_empty_visible in *. now apply patient_memory_text_visible.
    + exists outcome. destruct E as [E|[call E]]; now rewrite E.
Qed.

Lemma embedded_texts_not_blank_witness :
  exists outcome,
    fst (generate_message_embedding local_service "I have a fever" "user" None
           None empty_world) = inr outcome.
Proof.
  apply (proj1 (embedded_texts_not_blank local_service empty_world)).
  reflexivity.
Defined.

End EmbeddingExtras.

Module DbExtras.
Import Py PyFacts Types Run Embedding EmbeddingFacts EmbeddingExtras.
Import DbOperations DbOperationsFacts.

(** ** Steps that only make calls *)

(** From [w] to [w'] nothing was written and no identifier or clock reading
    was used: only calls were added, and the singleton may have been built. *)
Definition only_calls (w w' : world) : Prop :=
  db w' = db w /\ pending w' = pending w /\ ids_drawn w' = ids_drawn w
  /\ clock_reads w' = clock_reads w
  /\ exists added, calls w' = calls w ++ added.

Lemma only_calls_refl w : only_calls w w.
Proof. repeat split. exists []. now rewrite app_nil_r. Qed.

Lemma only_calls_trans w1 w2 w3 :
  only_calls w1 w2 -> only_calls w2 w3 -> only_calls w1 w3.
Proof.
  intros (Hd & Hp & Hi & Hc & a & Ha) (Hd' & Hp' & Hi' & Hc' & b & Hb).
  repeat split; try congruence.
  exists (a ++ b). now rewrite Hb, Ha, app_assoc.
Qed.

Lemma record_call_only_calls call w : only_calls w (snd (record_call call w)).
Proof. repeat split. now exists [call]. Qed.

Lemma get_embedding_service_only_calls ext w :
  only_calls w (snd (get_embedding_service ext w)).
Proof.
  unfold get_embedding_service, bind, get_instance, lift, set_instance, ret.
  destruct (instance w) as [s|]; [apply only_calls_refl|].
  destruct (init ext (embedding_mode ext) None); simpl.
  - apply only_calls_refl.
  - repeat split. exists []. now rewrite app_nil_r.
Qed.

Lemma generate_embedding_only_calls self text w :
  only_calls w (snd (generate_embedding self text w)).
Proof.
  destruct (not_empty text) eqn:Hne.
  - destruct (generate_embedding_effect self text w Hne) as [o [E|[call E]]];
      rewrite E; [apply only_calls_refl|apply record_call_only_calls].
  - rewrite (generate_embedding_blank self text w Hne). apply only_calls_refl.
Qed.

Lemma message_embedding_attempt_only_calls ext role content citations results w :
  only_calls w (snd (message_embedding_attempt ext role content citations results w)).
Proof.
  unfold message_embedding_attempt, bind.
  pose proof (get_embedding_service_only_calls ext w) as H1.
  destruct (get_embedding_service ext w) as [[e|self] w1]; [exact H1|].
  eapply only_calls_trans; [exact H1|].
  apply generate_embedding_only_calls.
Qed.

Lemma memory_embedding_attempt_only_calls ext name type rels metadata w :
  only_calls w (snd (memory_embedding_attempt ext name type rels metadata w)).
Proof.
  unfold memory_embedding_attempt, bind.
  pose proof (get_embedding_service_only_calls ext w) as H1.
  destruct (get_embedding_service ext w) as [[e|self] w1]; [exact H1|].
  eapply only_calls_trans; [exact H1|].
  apply generate_embedding_only_calls.
Qed.

(** ** The similarity searches *)

Definition memory_match_of_row (row : memory_row) : memory_match :=
  {| mm_id := mrow_id row;
     mm_userId := mrow_user_id row;
     mm_entityType := Some (mrow_entity_type row);
     mm_entityName := Some (mrow_entity_name row);
     mm_relationships := mrow_relationships row;
     mm_metadata := mrow_metadata row;
     mm_conversationId := mrow_conversation_id row;
     mm_similarity := Some (mrow_similarity row) |}.

Lemma append_loop {A B} (f : A -> B) rows : forall acc,
  fold_left (fun out row => append out (f row)) rows acc = acc ++ map f rows.
Proof.
  induction rows as [|row rows IH]; intros acc; [now rewrite app_nil_r|].
  simpl. rewrite IH. unfold append. now rewrite <- app_assoc.
Qed.

(** What the attempt of the memory search does, step by step. *)
Lemma memory_search_attempt_cases ext query_text user_id t n w :
  let outcome := memory_search_attempt ext query_text user_id t n w in
  only_calls w (snd outcome)
  /\ ((exists e, fst outcome = inl e)
      \/ exists query_embedding rows added,
           sql_search_patient_memories ext query_embedding user_id t n = inr rows
           /\ fst outcome = inr (map memory_match_of_row rows)
           /\ calls (snd outcome)
              = calls w ++ added
                  ++ [ CallSearchMemories query_embedding user_id t n ]).
Proof.
  cbv zeta. unfold memory_search_attempt, bind.
  pose proof (get_embedding_service_only_calls ext w) as H1.
  destruct (get_embedding_service ext w) as [[e|self] w1];
    [split; [exact H1|left; now exists e]|].
  pose proof (generate_embedding_only_calls self query_text w1) as H2.
  destruct (generate_embedding self query_text w1) as [[e|embedding] w2];
    [split; [now apply (only_calls_trans w w1)|left; now exists e]|].
  simpl in H1, H2.
  pose proof (only_calls_trans _ _ _ H1 H2) as H12.
  unfold record_call, lift, ret. cbn.
  destruct (sql_search_patient_memories ext embedding user_id t n)
    as [e|rows] eqn:Esql; cbn.
  - split; [|left; now exists e].
    eapply only_calls_trans; [exact H12|]. apply (record_call_only_calls _ w2).
  - split.
    + eapply only_calls_trans; [exact H12|]. apply (record_call_only_calls _ w2).
    + right. destruct H12 as (_ & _ & _ & _ & added & Hadded).
      exists embedding, rows, added. split; [exact Esql|].
      split; [f_equal; apply (append_loop memory_match_of_row rows [])|].
      now rewrite Hadded, app_assoc.
Qed.

(** X13. The memory search reads and never writes: whatever it returns, the
    database, the open transaction, the identifiers and the clock are as
    before, and the calls made before are still there, in order. What it
    returns is either nothing or the rows the index answered to its last
    call, one match per row, in the order of the index and with the
    similarity of the index. *)
Theorem memory_search_reads_the_index ext query_text user_id t n w :
  let outcome := search_similar_patient_memories ext query_text user_id t n w in
  only_calls w (snd outcome)
  /\ (fst outcome = inr []
      \/ exists query_embedding rows added,
           sql_search_patient_memories ext query_embedding user_id t n = inr rows
           /\ fst outcome = inr (map memory_match_of_row rows)
           /\ map mm_similarity (map memory_match_of_row rows)
              = map (fun row => Some (mrow_similarity row)) rows
           /\ calls (snd outcome)
              = calls w ++ added
                  ++ [ CallSearchMemories query_embedding user_id t n ]).
Proof.
  cbv zeta. unfold search_similar_patient_memories.
  rewrite try_except_fallback. cbn [fst snd].
  destruct (memory_search_attempt_cases ext query_text user_id t n w)
    as [Hcalls [[e He]|(embedding & rows & added & Hsql & Hres & Hlog)]].
  - split; [exact Hcalls|]. left. now rewrite He.
  - split; [exact Hcalls|]. right. exists embedding, rows, added.
    split; [exact Hsql|]. split; [now rewrite Hres|].
    split; [now rewrite map_map|exact Hlog].
Qed.

(** X14. [get_relevant_context_with_vectors] always returns, and always
    through its main branch: because the search it calls never raises, the
    result is labelled "vector_similarity" and carries no error even when the
    search failed; it then holds an empty context and zero counts. The
    context is the prompt built from the matches found, and the token
    estimate is 100 per match. *)
Theorem relevant_context_never_falls_back ext user_id user_message n t w :
  exists found,
    fst (search_similar_patient_memories ext user_message user_id t n w)
    = inr found
    /\ fst (Perplexity.get_relevant_context_with_vectors ext user_id
              user_message n t w)
       = inr {| Perplexity.memoryContext :=
                  Perplexity.build_patient_memory_prompt_from_vector found;
                Perplexity.relevantMemoriesCount := List.length found;
                Perplexity.tokensUsed := List.length found * 100;
                Perplexity.searchMethod := "vector_similarity";
                Perplexity.error := None |}.
Proof.
  unfold Perplexity.get_relevant_context_with_vectors, try_except, bind.
  unfold search_similar_patient_memories. rewrite try_except_fallback.
  cbn [fst snd]. eexists. split; reflexivity.
Qed.

(** ** Creating a message *)

Lemma guarded_attempt_result (guard : bool) (attempt : M (option vector)) w :
  (if guard then try_except attempt (fun _ => ret None) else ret None) w
  = (inr (if guard
          then match fst (attempt w) with inr o => o | inl _ => None end
          else None),
     if guard then snd (attempt w) else w).
Proof. destruct guard; [apply try_except_fallback|reflexivity]. Qed.

(** The embedding [create_message] gives the new row: what the attempt
    produced, and none when the attempt failed, was switched off or the
    content is blank. *)
Definition message_embedding ext (role content : string)
    (citations : option (list string))
    (search_results : option (list search_result)) (flag : bool) (w : world)
  : option vector :=
  if flag && truthy content && truthy (strip content)
  then match fst (message_embedding_attempt ext role content citations
                    search_results w) with
       | inr outcome => outcome
       | inl _ => None
       end
  else None.

(** X15. On a session with nothing pending, what [create_message] does is
    decided by the embedding it gives the new row. When the store takes it
    (no embedding, or one of the 384 dimensions of the column),
    [create_message] returns and adds exactly one row: the message table
    gains the returned message at its end, the conversation of that id gets
    a new [updated_at] (read from the clock after the message's
    [created_at]), and the patient memory is untouched; with
    [generate_embedding=False] no call leaves the process. When the
    embedding has another dimension, the write is refused, no handler
    stands around it, and [create_message] raises with nothing stored. *)
Theorem create_message_effect
    ext conversation_id role content citations search_results model flag w :
  pending w = [] ->
  let embedding :=
    message_embedding ext role content citations search_results flag w in
  (accepted embedding = true ->
   exists message w',
     create_message ext conversation_id role content citations search_results
       model flag w = (inr message, w')
     /\ messages (db w') = messages (db w) ++ [ message ]
     /\ patient_memory (db w') = patient_memory (db w)
     /\ conversations (db w')
        = map (touch conversation_id (clock ext (S (clock_reads w))))
            (conversations (db w))
     /\ msg_id message = ("msg_" ++ nanoid ext (ids_drawn w) 8)%string
     /\ msg_created_at message = clock ext (clock_reads w)
     /\ msg_content_embedding message = embedding
     /\ pending w' = []
     /\ (flag = false -> calls w' = calls w /\ instance w' = instance w))
  /\ (accepted embedding = false ->
      exists e w',
        create_message ext conversation_id role content citations
          search_results model flag w = (inl e, w')
        /\ db w' = db w).
Proof.
  intros Hpending embedding. subst embedding. unfold message_embedding.
  set (guard := flag && truthy content && truthy (strip content)).
  set (attempt := message_embedding_attempt ext role content citations
                    search_results).
  assert (Hw1 : only_calls w (if guard then snd (attempt w) else w)).
  { destruct guard; [apply message_embedding_attempt_only_calls
                    |apply only_calls_refl]. }
  assert (Hoff : flag = false -> (if guard then snd (attempt w) else w) = w).
  { intros ->. reflexivity. }
  destruct Hw1 as (Hdb & Hpend & Hids & Hclock & _).
  set (embedding := if guard
                    then match fst (attempt w) with
                         | inr o => o
                         | inl _ => None
                         end
                    else None).
  split; intros Haccepted;
    unfold create_message, bind at 1;
    fold guard; fold attempt;
    rewrite guarded_attempt_result; fold embedding;
    set (w1 := if guard then snd (attempt w) else w) in *;
    unfold bind, generate_id, now_utc, db_write_op, db_flush_embedding;
    cbn -[accepted]; rewrite Haccepted.
  - unfold db_commit, ret. cbn.
    rewrite Hdb, Hpend, Hids, Hclock, Hpending. cbn.
    eexists. eexists. split; [reflexivity|]. cbn.
    repeat (split; [reflexivity|]).
    intros Hflag. rewrite (Hoff Hflag). now split.
  - unfold raise. cbn. eexists. eexists. split; [reflexivity|]. exact Hdb.
Qed.

(** A local model of the column's dimension, and a client that answers the
    1536 dimensions of [text-embedding-3-small]. *)
Definition model_384 : SentenceTransformer :=
  {| encode := fun text => inr (repeat (PyFloat.nth_float (String.length text)) 384);
     encode_all :=
       fun texts =>
         inr (map (fun t => repeat (PyFloat.nth_float (String.length t)) 384)
                texts) |}.

Definition local_384 : externals :=
  {| embedding_mode := "LOCAL";
     openai_api_key := None;
     sentence_transformers := Some (fun _ => inr model_384);
     openai := None;
     sql_search_patient_memories := fun _ _ _ _ => inr [];
     sql_search_messages := fun _ _ _ _ => inr [];
     nanoid := fun _ _ => "V1StGXR8";
     clock := fun n => Z.of_nat n;
     isoformat := fun _ => "1970-01-01T00:00:00+00:00" |}.

Definition client_1536 : OpenAI :=
  {| embeddings_create :=
       fun _ input =>
         match input with
         | OneText text => inr [ repeat (PyFloat.nth_float (String.length text)) 1536 ]
         | ManyTexts texts =>
             inr (map (fun t => repeat (PyFloat.nth_float (String.length t)) 1536)
                    texts)
         end |}.

Definition openai_1536 : externals :=
  {| embedding_mode := "OPENAI";
     openai_api_key := Some "sk-test";
     sentence_transformers := None;
     openai := Some (fun _ => inr client_1536);
     sql_search_patient_memories := fun _ _ _ _ => inr [];
     sql_search_messages := fun _ _ _ _ => inr [];
     nanoid := fun _ _ => "V1StGXR8";
     clock := fun n => Z.of_nat n;
     isoformat := fun _ => "1970-01-01T00:00:00+00:00" |}.

Lemma create_message_effect_witness :
  (exists message w',
      create_message local_384 "conv_1" "user" "I have a fever" None None
        None true empty_world = (inr message, w')
      /\ messages (db w') = [ message ]
      /\ msg_content_embedding message = Some (repeat (PyFloat.nth_float 14) 384))
  /\ (exists e w',
        create_message openai_1536 "conv_1" "user" "I have a fever" None None
          None true empty_world = (inl e, w')
        /\ db w' = db empty_world).
Proof.
  split.
  - destruct (create_message_effect local_384 "conv_1" "user"
                "I have a fever" None None None true empty_world eq_refl)
      as [Htaken _].
    destruct (Htaken eq_refl)
      as (message & w' & E & Hm & _ & _ & _ & _ & Hemb & _).
    exists message, w'. split; [exact E|]. split; [exact Hm|exact Hemb].
  - destruct (create_message_effect openai_1536 "conv_1" "user"
                "I have a fever" None None None true empty_world eq_refl)
      as [_ Hrefused].
    exact (Hrefused eq_refl).
Defined.

End DbExtras.

Module VectorSearchExtras.
Import Py Types Run DbOperations DbOperationsFacts VectorSearch VectorSearchFacts.

(** X16. For a body that is a JSON object whose values have the documented
    types, the two search endpoints never answer 500: the search they
    delegate to does not raise, so a request is answered 400 (no query, or a
    parameter out of range) or 200, and a 200 response holds the user's query
    with the matches found and their number. *)
Theorem search_endpoints_answer_200_or_400 ext user data w :
  (exists outcome w',
      search_memories ext user data w = (inr outcome, w')
      /\ ((status outcome = 400%Z /\ w' = w
           /\ exists message, body outcome = Error message)
          \/ (status outcome = 200%Z
              /\ exists text results,
                   query data = Some text
                   /\ body outcome = MemoryResults text results (List.length results))))
  /\ (exists outcome w',
        search_messages_endpoint ext user data w = (inr outcome, w')
        /\ ((status outcome = 400%Z /\ w' = w
             /\ exists message, body outcome = Error message)
            \/ (status outcome = 200%Z
                /\ exists text results,
                     query data = Some text
                     /\ body outcome
                        = MessageResults text (conversation_id data) results
                            (List.length results)))).
Proof.
  split.
  - unfold search_memories, try_except at 1.
    destruct (query data) as [[|c q]|];
      try (eexists; eexists; split; [reflexivity|left]; simpl;
           repeat split; eexists; reflexivity).
    destruct (negb (le 0 _ && le _ 1));
      [eexists; eexists; split; [reflexivity|left]; simpl;
       repeat split; eexists; reflexivity|].
    destruct (negb (le 1 _ && le _ 50));
      [eexists; eexists; split; [reflexivity|left]; simpl;
       repeat split; eexists; reflexivity|].
    unfold bind, search_similar_patient_memories.
    rewrite try_except_fallback. cbn.
    eexists. eexists. split; [reflexivity|right]. simpl.
    split; [reflexivity|]. eexists. eexists. split; reflexivity.
  - unfold search_messages_endpoint, try_except at 1.
    destruct (query data) as [[|c q]|];
      try (eexists; eexists; split; [reflexivity|left]; simpl;
           repeat split; eexists; reflexivity).
    destruct (negb (le 0 _ && le _ 1));
      [eexists; eexists; split; [reflexivity|left]; simpl;
       repeat split; eexists; reflexivity|].
    destruct (negb (le 1 _ && le _ 100));
      [eexists; eexists; split; [reflexivity|left]; simpl;
       repeat split; eexists; reflexivity|].
    unfold bind, search_similar_messages.
    rewrite try_except_fallback. cbn.
    eexists. eexists. split; [reflexivity|right]. simpl.
    split; [reflexivity|]. eexists. eexists. split; reflexivity.
Qed.

End VectorSearchExtras.

Module DbMaintenanceExtras.
Import Py PyFacts Types Run Embedding EmbeddingFacts EmbeddingExtras.
Import DbOperations DbOperationsFacts DbExtras DbMaintenance.

(** ** Conversations *)

Lemma find_app {A} (f : A -> bool) l1 l2 :
  find f (l1 ++ l2)
  = match find f l1 with Some x => Some x | None => find f l2 end.
Proof.
  induction l1 as [|x l1 IH]; [reflexivity|]. simpl.
  now destruct (f x).
Qed.

(** X17. On a session with nothing pending, [delete_conversation] removes
    the conversation together with all its messages and all the patient
    memory recorded in it, and nothing else: afterwards the conversation is
    not found, no message and no memory of it is left, and every message and
    every memory of another conversation is still there. *)
Theorem delete_conversation_cascades conversation_id w :
  pending w = [] ->
  exists w',
    delete_conversation conversation_id w = (inr tt, w')
    /\ fst (get_conversation conversation_id w') = inr None
    /\ (forall m, In m (messages (db w')) <->
                  In m (messages (db w)) /\ msg_conversation_id m <> conversation_id)
    /\ (forall p, In p (patient_memory (db w')) <->
                  In p (patient_memory (db w))
                  /\ mem_conversation_id p <> Some conversation_id)
    /\ (forall c, In c (conversations (db w')) <->
                  In c (conversations (db w)) /\ conv_id c <> conversation_id).
Proof.
  intros Hpending. unfold delete_conversation, bind, db_execute, db_commit, with_db.
  cbn. rewrite Hpending. cbn. eexists. split; [reflexivity|]. cbn.
  split; [|split; [|split]].
  - unfold get_conversation, bind, db_rows, ret. cbn. f_equal.
    destruct (find _ _) as [c|] eqn:E; [|reflexivity].
    apply find_some in E. destruct E as [Hin Heq].
    apply filter_In in Hin. destruct Hin as [_ Hne].
    rewrite Heq in Hne. discriminate.
  - intros m. rewrite filter_In, negb_true_iff.
    destruct (String.eqb_spec (msg_conversation_id m) conversation_id); split;
      intros [H1 H2]; split; congruence.
  - intros p. rewrite filter_In, negb_true_iff.
    destruct (mem_conversation_id p) as [c|]; [|split; intros [H1 H2]; now split].
    destruct (String.eqb_spec c conversation_id); split;
      intros [H1 H2]; split; congruence.
  - intros c. rewrite filter_In, negb_true_iff.
    destruct (String.eqb_spec (conv_id c) conversation_id); split;
      intros [H1 H2]; split; congruence.
Qed.

Definition sample_message : Message :=
  {| msg_id := "msg_1"; msg_conversation_id := "conv_1"; msg_role := "user";
     msg_content := "I have a fever"; msg_citations := None;
     msg_search_results := None; msg_content_embedding := None;
     msg_model := None; msg_created_at := 0%Z |}.

Definition sample_conversation : Conversation :=
  {| conv_id := "conv_1"; conv_user_id := Some "user_1";
     conv_title := "New Conversation"; conv_is_guest := false;
     conv_created_at := 0%Z; conv_updated_at := 0%Z |}.

Definition one_conversation : world :=
  {| calls := []; instance := None;
     db := {| conversations := [ sample_conversation ];
              messages := [ sample_message ]; patient_memory := [] |};
     pending := []; ids_drawn := 0; clock_reads := 1 |}.

Lemma delete_conversation_cascades_witness :
  exists w',
    delete_conversation "conv_1" one_conversation = (inr tt, w')
    /\ fst (get_conversation "conv_1" w') = inr None.
Proof.
  destruct (delete_conversation_cascades "conv_1" one_conversation eq_refl)
    as (w' & E & Hget & _).
  now exists w'.
Defined.

(** X18. On a session with nothing pending, [create_conversation] returns a
    conversation with the user, title and guest flag given and an identifier
    "conv_" followed by eight random characters; when no conversation has
    that identifier yet, [get_conversation] then finds exactly the
    conversation returned, and every conversation found before is still
    found. *)
Theorem create_then_get_conversation ext user_id title is_guest w :
  pending w = [] ->
  (forall c, In c (conversations (db w)) ->
             conv_id c <> ("conv_" ++ nanoid ext (ids_drawn w) 8)%string) ->
  exists conversation w',
    create_conversation ext user_id title is_guest w = (inr conversation, w')
    /\ conv_id conversation = ("conv_" ++ nanoid ext (ids_drawn w) 8)%string
    /\ conv_user_id conversation = user_id
    /\ conv_title conversation = title
    /\ conv_is_guest conversation = is_guest
    /\ fst (get_conversation (conv_id conversation) w') = inr (Some conversation)
    /\ (forall other found,
          fst (get_conversation other w) = inr (Some found) ->
          fst (get_conversation other w') = inr (Some found)).
Proof.
  intros Hpending Hfresh.
  unfold create_conversation, bind, generate_id, now_utc, db_execute, db_commit,
    with_db, ret. cbn. rewrite Hpending. cbn.
  eexists. eexists. split; [reflexivity|]. cbn.
  repeat (split; [reflexivity|]). split.
  - unfold get_conversation, bind, db_rows, ret. cbn. f_equal.
    rewrite find_app.
    destruct (find _ (conversations (db w))) as [c|] eqn:E.
    + apply find_some in E. destruct E as [Hin Heq].
      apply String.eqb_eq in Heq. now apply Hfresh in Hin.
    + cbn. now rewrite String.eqb_refl.
  - intros other found. unfold get_conversation, bind, db_rows, ret. cbn.
    intros [= H]. f_equal. now rewrite find_app, H.
Qed.

Lemma create_then_get_conversation_witness :
  exists conversation w',
    create_conversation local_externals (Some "user_1") "Headache" false
      empty_world = (inr conversation, w')
    /\ conv_id conversation = "conv_V1StGXR8"
    /\ fst (get_conversation "conv_V1StGXR8" w') = inr (Some conversation).
Proof.
  destruct (create_then_get_conversation local_externals (Some "user_1")
              "Headache" false empty_world eq_refl)
    as (conversation & w' & E & Hid & _ & _ & _ & Hget & _).
  - intros c [].
  - exists conversation, w'. split; [exact E|]. split; [exact Hid|].
    now rewrite Hid in Hget.
Defined.

(** ** The backfill of message embeddings *)

(** [new] is [old] but for its embedding, and is [old] when [old] had one. *)
Definition backfilled (old new : Message) : Prop :=
  msg_id new = msg_id old
  /\ msg_conversation_id new = msg_conversation_id old
  /\ msg_role new = msg_role old
  /\ msg_content new = msg_content old
  /\ msg_citations new = msg_citations old
  /\ msg_search_results new = msg_search_results old
  /\ msg_model new = msg_model old
  /\ msg_created_at new = msg_created_at old
  /\ (msg_content_embedding old <> None -> new = old).

Lemma backfilled_refl m : backfilled m m.
Proof. now repeat split. Qed.

Lemma set_message_embedding_backfilled original rows message_id embedding :
  (forall o, In o original -> msg_id o = message_id ->
             msg_content_embedding o = None) ->
  Forall2 backfilled original rows ->
  Forall2 backfilled original (map (set_message_embedding message_id embedding) rows).
Proof.
  intros Hnone H. induction H as [|o r original rows Hor H IH]; [constructor|].
  simpl. constructor.
  - unfold set_message_embedding.
    destruct Hor as (Hid & Hc & Hr & Hct & Hci & Hs & Hm & Ht & Hkeep).
    destruct (String.eqb_spec (msg_id r) message_id) as [E|_];
      [|now repeat split].
    repeat split; simpl; try assumption.
    intros Hsome. exfalso. apply Hsome. apply Hnone; [now left|congruence].
  - apply IH. intros o' Hin. apply Hnone. now right.
Qed.

Lemma flush_backfilled dirty : forall original rows,
  (forall change o, In change dirty -> In o original ->
                    msg_id o = fst change -> msg_content_embedding o = None) ->
  Forall2 backfilled original rows ->
  Forall2 backfilled original
    (fold_left
       (fun rows change => map (set_message_embedding (fst change) (snd change)) rows)
       dirty rows).
Proof.
  induction dirty as [|change dirty IH]; intros original rows Hnone H; [exact H|].
  simpl. apply IH.
  - intros c o Hc. apply Hnone. now right.
  - apply set_message_embedding_backfilled; [|exact H].
    intros o Hin. apply Hnone; [now left|exact Hin].
Qed.

Lemma Forall2_refl_backfilled rows : Forall2 backfilled rows rows.
Proof. induction rows; constructor; [apply backfilled_refl|assumption]. Qed.

Lemma primary_key_unique (rows : list Message) a b :
  NoDup (map msg_id rows) -> In a rows -> In b rows -> msg_id a = msg_id b -> a = b.
Proof.
  induction rows as [|r rows IH]; intros Hnd Ha Hb Hid; [destruct Ha|].
  inversion Hnd as [|? ? Hnotin Hnd']; subst.
  destruct Ha as [->|Ha], Hb as [->|Hb].
  - reflexivity.
  - exfalso. apply Hnotin. rewrite Hid. now apply in_map.
  - exfalso. apply Hnotin. rewrite <- Hid. now apply in_map.
  - now apply IH.
Qed.

Lemma in_firstn {A} n (l : list A) x : In x (firstn n l) -> In x l.
Proof.
  intros H. rewrite <- (firstn_skipn n l). apply in_or_app. now left.
Qed.

Lemma messages_to_backfill_lack batch_size conversation_id d m :
  In m (messages_to_backfill batch_size conversation_id d) ->
  In m (messages d) /\ msg_content_embedding m = None.
Proof.
  unfold messages_to_backfill. intros H.
  apply in_firstn in H. apply filter_In in H.
  destruct H as [Hin Hf]. split; [exact Hin|].
  destruct (msg_content_embedding m); [discriminate|reflexivity].
Qed.

(** The loop never raises, counts at most one per message and sets the
    embedding of messages it was given only. *)
Lemma backfill_messages_loop_spec self selected : forall updated_count dirty w,
  exists final extra w',
    backfill_messages_loop self selected updated_count dirty w
    = (inr (final, dirty ++ extra), w')
    /\ only_calls w w'
    /\ updated_count <= final <= updated_count + List.length selected
    /\ (forall change, In change extra -> In (fst change) (map msg_id selected)).
Proof.
  induction selected as [|message rest IH]; intros updated_count dirty w.
  - exists updated_count, [], w. rewrite app_nil_r. simpl.
    repeat split; [apply only_calls_refl|lia|lia|intros ? []].
  - cbn [backfill_messages_loop].
    destruct (truthy (msg_content message) && truthy (strip (msg_content message))).
    + unfold bind at 1, try_except, bind at 1, generate_message_embedding.
      pose proof (generate_embedding_only_calls self
                    (message_text (msg_content message) (msg_search_results message))
                    w) as Hstep.
      destruct (generate_embedding self _ w) as [[e|embedding] w1]; cbn in *.
      * destruct (IH updated_count dirty w1) as (final & extra & w' & E & Hc & Hn & Hin).
        exists final, extra, w'. split; [exact E|].
        split; [now apply (only_calls_trans w w1)|]. split; [lia|].
        intros change Hch. right. now apply Hin.
      * destruct (IH (S updated_count) (dirty ++ [(msg_id message, embedding)]) w1)
          as (final & extra & w' & E & Hc & Hn & Hin).
        exists final, ((msg_id message, embedding) :: extra), w'.
        split; [rewrite E; now rewrite <- app_assoc|].
        split; [now apply (only_calls_trans w w1)|]. split; [lia|].
        intros change [<-|Hch]; [now left|right; now apply Hin].
    + destruct (IH updated_count dirty w) as (final & extra & w' & E & Hc & Hn & Hin).
      exists final, extra, w'. split; [exact E|]. split; [exact Hc|].
      cbn [List.length]. split; [lia|]. intros change Hch. right. now apply Hin.
Qed.

(** A run of the backfill in the model, where the store answers the query:
    it returns, and all it changes is embeddings that were missing. *)
Lemma backfill_message_embeddings_effect ext batch_size conversation_id w :
  pending w = [] ->
  NoDup (map msg_id (messages (db w))) ->
  exists updated_count w',
    backfill_message_embeddings ext batch_size conversation_id w
    = (inr updated_count, w')
    /\ updated_count <= batch_size
    /\ Forall2 backfilled (messages (db w)) (messages (db w'))
    /\ conversations (db w') = conversations (db w)
    /\ patient_memory (db w') = patient_memory (db w).
Proof.
  intros Hpending Hkey.
  unfold backfill_message_embeddings, bind at 1, db_rows.
  destruct (messages_to_backfill batch_size conversation_id (db w))
    as [|first selected] eqn:Esel.
  { exists 0, w. repeat split; [lia|apply Forall2_refl_backfilled]. }
  assert (Hlen : List.length (first :: selected) <= batch_size).
  { rewrite <- Esel. unfold messages_to_backfill. rewrite length_firstn. lia. }
  assert (Hlack : forall m, In m (first :: selected) ->
                            In m (messages (db w)) /\ msg_content_embedding m = None).
  { intros m Hm. rewrite <- Esel in Hm.
    now apply messages_to_backfill_lack in Hm. }
  unfold try_except, bind at 1.
  pose proof (get_embedding_service_only_calls ext w) as H1.
  destruct (get_embedding_service ext w) as [[e|self] w1]; cbn in H1.
  - destruct H1 as (Hdb & Hp & _).
    unfold bind, db_rollback, ret. cbn. eexists. eexists.
    split; [reflexivity|]. cbn. rewrite Hdb.
    repeat split; [lia|apply Forall2_refl_backfilled].
  - destruct (backfill_messages_loop_spec self (first :: selected) 0 [] w1)
      as (final & extra & w2 & E & H2 & Hn & Hin).
    unfold bind at 1. rewrite E.
    pose proof (only_calls_trans _ _ _ H1 H2) as (Hdb & Hp & _).
    unfold bind at 1, db_flush_embeddings. cbn [fst snd app].
    destruct (forallb accepted (map snd extra)).
    + unfold bind, db_execute, db_commit, with_db, ret. cbn.
      rewrite Hp, Hpending, Hdb. cbn.
      eexists. eexists. split; [reflexivity|]. cbn.
      split; [lia|]. split; [|now repeat split].
      apply flush_backfilled; [|apply Forall2_refl_backfilled].
      intros change o Hchange Ho Hid.
      apply Hin in Hchange. apply in_map_iff in Hchange.
      destruct Hchange as (m & Hm & Hsel). apply Hlack in Hsel.
      destruct Hsel as [Hmin Hnone].
      now rewrite (primary_key_unique _ o m Hkey Ho Hmin) by congruence.
    + unfold raise, bind, db_rollback, ret. cbn.
      eexists. eexists. split; [reflexivity|]. cbn. rewrite Hdb.
      repeat split; [lia|apply Forall2_refl_backfilled].
Qed.

(** X19. On a session with nothing pending and a message table whose
    identifiers are all different, whatever [backfill_message_embeddings]
    answers, all it changes in the database is the embedding of messages
    that had none: every row keeps its place and all its other fields, a row
    that already had an embedding is left exactly as it was, and
    conversations and patient memory are untouched. A count it returns is at
    most [batch_size]. *)
Theorem backfill_only_fills_missing ext batch_size conversation_id w :
  pending w = [] ->
  NoDup (map msg_id (messages (db w))) ->
  let outcome := backfill_message_embeddings ext batch_size conversation_id w in
  Forall2 backfilled (messages (db w)) (messages (db (snd outcome)))
  /\ conversations (db (snd outcome)) = conversations (db w)
  /\ patient_memory (db (snd outcome)) = patient_memory (db w)
  /\ (forall updated_count,
        fst outcome = inr updated_count -> updated_count <= batch_size).
Proof.
  intros Hpending Hkey.
  destruct (backfill_message_embeddings_effect ext batch_size conversation_id w
              Hpending Hkey) as (n & w' & E & Hn & Hrows & Hconv & Hmem).
  cbv zeta. rewrite E. cbn [fst snd].
  repeat split; try assumption.
  now intros updated_count [= <-].
Qed.

Definition two_messages : world :=
  {| calls := []; instance := None;
     db := {| conversations := [ sample_conversation ];
              messages :=
                [ sample_message;
                  {| msg_id := "msg_2"; msg_conversation_id := "conv_1";
                     msg_role := "assistant"; msg_content := "Rest and drink water";
                     msg_citations := None; msg_search_results := None;
                     msg_content_embedding := Some [ PyFloat.nth_float 20 ];
                     msg_model := Some "sonar"; msg_created_at := 1%Z |} ];
              patient_memory := [] |};
     pending := []; ids_drawn := 0; clock_reads := 2 |}.

Lemma backfill_only_fills_missing_witness :
  let outcome := backfill_message_embeddings local_384 100 None two_messages in
  Forall2 backfilled (messages (db two_messages)) (messages (db (snd outcome)))
  /\ fst outcome = inr 1.
Proof.
  destruct (backfill_only_fills_missing local_384 100 None two_messages)
    as (Hrows & _).
  - reflexivity.
  - repeat constructor; simpl; intuition discriminate.
  - split; [exact Hrows|reflexivity].
Defined.

(** What the backfill does on the sample: the first message gets the
    embedding, the second keeps its own. *)
Example backfill_sample_run :
  let outcome := backfill_message_embeddings local_384 100 None two_messages in
  fst outcome = inr 1
  /\ map msg_content_embedding (messages (db (snd outcome)))
     = [ Some (repeat (PyFloat.nth_float 14) 384);
         Some [ PyFloat.nth_float 20 ] ].
Proof. split; reflexivity. Qed.

(** With a provider whose vectors have 1536 dimensions the flush of the
    commit is refused inside the [try]: the session is rolled back, nothing
    is written and the answer is 0, as if there had been nothing to do. *)
Example backfill_refused_run :
  let outcome := backfill_message_embeddings openai_1536 100 None two_messages in
  fst outcome = inr 0
  /\ db (snd outcome) = db two_messages.
Proof. split; reflexivity. Qed.

(** With a local model that is down, every embedding comes back [None]. *)
Lemma generate_embedding_model_down self m text w :
  svc_mode self = LOCAL -> model self = Some m ->
  (forall t, exists e, encode m t = inl e) ->
  not_empty text = true ->
  generate_embedding self text w = (inr None, snd (record_call (CallEncode text) w)).
Proof.
  intros Hmode Hm Hdown Hne. unfold generate_embedding.
  rewrite (not_empty_guard text Hne), Hmode.
  unfold try_except, bind, _generate_local. rewrite Hm.
  unfold bind, record_call, lift, ret. cbn.
  destruct (Hdown text) as [e He]. now rewrite He.
Qed.

Definition has_text (m : Message) : bool :=
  truthy (msg_content m) && truthy (strip (msg_content m)).

Lemma backfill_messages_loop_model_down self m selected :
  svc_mode self = LOCAL -> model self = Some m ->
  (forall t, exists e, encode m t = inl e) ->
  forall updated_count dirty w,
  exists w',
    backfill_messages_loop self selected updated_count dirty w
    = (inr (updated_count + List.length (filter has_text selected),
            dirty ++ map (fun s => (msg_id s, None)) (filter has_text selected)),
       w')
    /\ only_calls w w'.
Proof.
  intros Hmode Hm Hdown.
  induction selected as [|message rest IH]; intros updated_count dirty w.
  - exists w. simpl. rewrite app_nil_r, Nat.add_0_r.
    split; [reflexivity|apply only_calls_refl].
  - cbn [backfill_messages_loop filter]. fold (has_text message).
    destruct (has_text message) eqn:Htext.
    + unfold bind at 1, try_except, bind at 1, generate_message_embedding.
      rewrite (generate_embedding_model_down self m _ w Hmode Hm Hdown).
      * cbn. destruct (IH (S updated_count) (dirty ++ [(msg_id message, None)])
                         (snd (record_call
                                 (CallEncode (message_text (msg_content message)
                                                (msg_search_results message))) w)))
          as (w' & E & Hc).
        exists w'. split.
        -- cbn in E. rewrite E. rewrite <- app_assoc. cbn.
           now rewrite Nat.add_succ_r.
        -- eapply only_calls_trans; [apply record_call_only_calls|exact Hc].
      * rewrite not_empty_visible. apply message_text_visible.
        now rewrite <- not_empty_visible.
    + apply IH.
Qed.

Lemma set_message_embedding_none message_id rows :
  (forall o, In o rows -> msg_id o = message_id -> msg_content_embedding o = None) ->
  map (set_message_embedding message_id None) rows = rows.
Proof.
  intros H. induction rows as [|r rows IH]; [reflexivity|].
  simpl. rewrite IH by (intros o Ho; apply H; now right). f_equal.
  unfold set_message_embedding.
  destruct (String.eqb_spec (msg_id r) message_id) as [E|_]; [|reflexivity].
  specialize (H r (or_introl eq_refl) E). destruct r. simpl in *. now subst.
Qed.

Lemma flush_none dirty : forall rows,
  (forall change o, In change dirty -> In o rows ->
                    msg_id o = fst change -> msg_content_embedding o = None) ->
  (forall change, In change dirty -> snd change = None) ->
  fold_left
    (fun rows change => map (set_message_embedding (fst change) (snd change)) rows)
    dirty rows = rows.
Proof.
  induction dirty as [|change dirty IH]; intros rows Hlack Hnone; [reflexivity|].
  simpl. rewrite (Hnone change (or_introl eq_refl)).
  rewrite set_message_embedding_none.
  - apply IH; intros c; [intros o Hc|intros Hc]; [apply Hlack|apply Hnone]; now right.
  - intros o. apply Hlack. now left.
Qed.

Lemma nothing_to_refuse (selected : list Message) :
  forallb accepted
    (map snd (map (fun s => (msg_id s, None : option vector)) selected)) = true.
Proof. induction selected as [|s selected IH]; [reflexivity|exact IH]. Qed.

(** X20. The count [backfill_message_embeddings] returns counts attempts,
    not embeddings stored. With a service whose local model fails on every
    text, on a session with nothing pending and a table whose identifiers are
    all different, the call returns the number of selected messages that have
    a content, and the database is exactly as before: the same messages are
    selected by the next call. *)
Theorem backfill_counts_attempts ext self m batch_size conversation_id w :
  pending w = [] ->
  NoDup (map msg_id (messages (db w))) ->
  instance w = Some self ->
  svc_mode self = LOCAL -> model self = Some m ->
  (forall t, exists e, encode m t = inl e) ->
  exists w',
    backfill_message_embeddings ext batch_size conversation_id w
    = (inr (List.length
              (filter has_text
                 (messages_to_backfill batch_size conversation_id (db w)))), w')
    /\ db w' = db w
    /\ messages_to_backfill batch_size conversation_id (db w')
       = messages_to_backfill batch_size conversation_id (db w).
Proof.
  intros Hpending Hkey Hinst Hmode Hm Hdown.
  unfold backfill_message_embeddings, bind at 1, db_rows.
  destruct (messages_to_backfill batch_size conversation_id (db w))
    as [|first selected] eqn:Esel.
  { exists w. now repeat split. }
  assert (Hlack : forall s, In s (first :: selected) ->
                            In s (messages (db w)) /\ msg_content_embedding s = None).
  { intros s Hs. rewrite <- Esel in Hs.
    now apply messages_to_backfill_lack in Hs. }
  unfold try_except, bind at 1.
  unfold get_embedding_service, bind at 1, get_instance. rewrite Hinst.
  unfold ret at 1.
  destruct (backfill_messages_loop_model_down self m (first :: selected)
              Hmode Hm Hdown 0 [] w) as (w2 & E & Hdb & Hp & _).
  unfold bind at 1. rewrite E.
  unfold bind at 1, db_flush_embeddings. cbn [fst snd app].
  rewrite nothing_to_refuse.
  unfold bind, db_execute, db_commit, with_db, ret. cbn [fst snd pending db].
  rewrite Hp, Hpending, Hdb. cbn [fold_left app].
  assert (Hflush : flush_message_embeddings
                     (map (fun s => (msg_id s, None : option vector))
                        (filter has_text (first :: selected))) (db w) = db w).
  { unfold flush_message_embeddings. rewrite flush_none.
    - now destruct (db w).
    - intros change o Hchange Ho Hid. apply in_map_iff in Hchange.
      destruct Hchange as (s & <- & Hs). apply filter_In in Hs.
      destruct Hs as [Hs _]. apply Hlack in Hs. destruct Hs as [Hsin Hnone].
      now rewrite (primary_key_unique _ o s Hkey Ho Hsin).
    - intros change Hchange. apply in_map_iff in Hchange.
      now destruct Hchange as (s & <- & _). }
  eexists. split; [reflexivity|]. cbn [db]. rewrite Hflush.
  split; [reflexivity|]. now rewrite Esel.
Qed.

Definition down_service : EmbeddingService :=
  {| svc_mode := LOCAL; model_name := "all-MiniLM-L6-v2"; dimensions := 384;
     max_tokens := 512; model := Some failing_model_single; client := None |}.

Definition two_messages_model_down : world :=
  {| calls := []; instance := Some down_service; db := db two_messages;
     pending := []; ids_drawn := 0; clock_reads := 2 |}.

Lemma backfill_counts_attempts_witness :
  exists w',
    backfill_message_embeddings local_externals 100 None two_messages_model_down
    = (inr 1, w')
    /\ db w' = db two_messages_model_down.
Proof.
  destruct (backfill_counts_attempts local_externals down_service
              failing_model_single 100 None two_messages_model_down)
    as (w' & E & Hdb & _); try reflexivity.
  - repeat constructor; simpl; intuition discriminate.
  - intros t. now exists (Failure "out of memory").
  - now exists w'.
Defined.

(** X21. When the embedding service cannot be built,
    [backfill_message_embeddings] rolls back and returns 0 with the database
    as it was: the caller gets the same answer as when no message lacks an
    embedding, although messages are still waiting. *)
Theorem backfill_without_service ext batch_size conversation_id w e :
  instance w = None ->
  init ext (embedding_mode ext) None = inl e ->
  exists w',
    backfill_message_embeddings ext batch_size conversation_id w = (inr 0, w')
    /\ db w' = db w /\ calls w' = calls w
    /\ messages_to_backfill batch_size conversation_id (db w')
       = messages_to_backfill batch_size conversation_id (db w).
Proof.
  intros Hinst Hinit.
  unfold backfill_message_embeddings, bind at 1, db_rows.
  destruct (messages_to_backfill batch_size conversation_id (db w))
    as [|first selected] eqn:Esel.
  { exists w. now repeat split. }
  unfold try_except, bind at 1.
  rewrite (get_embedding_service_failure ext w e Hinst Hinit).
  unfold bind, db_rollback, ret. cbn.
  eexists. split; [reflexivity|]. cbn. now rewrite Esel.
Qed.

Lemma backfill_without_service_witness :
  exists w',
    backfill_message_embeddings library_missing 100 None two_messages = (inr 0, w')
    /\ db w' = db two_messages
    /\ messages_to_backfill 100 None (db w') = [ sample_message ].
Proof.
  destruct (backfill_without_service library_missing 100 None two_messages
              (ImportError "sentence-transformers not installed!")
              eq_refl eq_refl) as (w' & E & Hdb & _ & Hsel).
  exists w'. split; [exact E|]. split; [exact Hdb|]. now rewrite Hsel.
Defined.

(** ** Renaming a conversation *)

Definition retitled (title : string) (updated : timestamp) (c : Conversation)
  : Conversation :=
  {| conv_id := conv_id c; conv_user_id := conv_user_id c; conv_title := title;
     conv_is_guest := conv_is_guest c; conv_created_at := conv_created_at c;
     conv_updated_at := updated |}.

Lemma find_renamed conversation_id title updated other rows :
  find (fun c => String.eqb (conv_id c) other)
    (map (fun c => if String.eqb (conv_id c) conversation_id
                   then retitled title updated c else c) rows)
  = match find (fun c => String.eqb (conv_id c) other) rows with
    | Some c => Some (if String.eqb other conversation_id
                      then retitled title updated c else c)
    | None => None
    end.
Proof.
  induction rows as [|c rows IH]; [reflexivity|]. cbn [map find].
  destruct (String.eqb_spec (conv_id c) conversation_id) as [E|E]; cbn [conv_id retitled].
  - destruct (String.eqb_spec (conv_id c) other) as [E'|E']; [|exact IH].
    subst other. rewrite <- E at 1. now rewrite String.eqb_refl.
  - destruct (String.eqb_spec (conv_id c) other) as [E'|E']; [|exact IH].
    subst other. destruct (String.eqb_spec (conv_id c) conversation_id);
      [contradiction|reflexivity].
Qed.

Lemma rename_absent conversation_id title updated rows :
  find (fun c => String.eqb (conv_id c) conversation_id) rows = None ->
  map (fun c => if String.eqb (conv_id c) conversation_id
                then retitled title updated c else c) rows = rows.
Proof.
  intros Hnone. rewrite <- (map_id rows) at 2. apply map_ext_in.
  intros c Hin. now rewrite (find_none _ _ Hnone c Hin).
Qed.

(** X22. On a session with nothing pending, [update_conversation_title]
    changes the title and [updated_at] of the conversation found under the
    identifier and nothing else of it; every other conversation is found as
    before, messages and patient memory are untouched, and when no
    conversation has the identifier the call returns all the same, with the
    database as it was. *)
Theorem update_conversation_title_effect ext conversation_id title w :
  pending w = [] ->
  exists w',
    update_conversation_title ext conversation_id title w = (inr tt, w')
    /\ (forall c, fst (get_conversation conversation_id w) = inr (Some c) ->
                  fst (get_conversation conversation_id w')
                  = inr (Some (retitled title (clock ext (clock_reads w)) c)))
    /\ (fst (get_conversation conversation_id w) = inr None -> db w' = db w)
    /\ (forall other, other <> conversation_id ->
                      fst (get_conversation other w')
                      = fst (get_conversation other w))
    /\ messages (db w') = messages (db w)
    /\ patient_memory (db w') = patient_memory (db w).
Proof.
  intros Hpending.
  unfold update_conversation_title, bind, now_utc, db_execute, db_commit, with_db.
  cbn. rewrite Hpending. cbn. eexists. split; [reflexivity|]. cbn.
  set (rows := map _ (conversations (db w))).
  assert (Hrows : rows
                  = map (fun c => if String.eqb (conv_id c) conversation_id
                                  then retitled title (clock ext (clock_reads w)) c
                                  else c)
                      (conversations (db w))) by reflexivity.
  clearbody rows. subst rows.
  unfold get_conversation, bind, db_rows, ret. cbn.
  split; [|split; [|split; [|now split]]].
  - intros c [= Hfound]. f_equal.
    rewrite find_renamed, Hfound. now rewrite String.eqb_refl.
  - intros [= Hnone]. rewrite (rename_absent _ _ _ _ Hnone).
    now destruct (db w).
  - intros other Hother. f_equal. rewrite find_renamed.
    destruct (find _ (conversations (db w))) as [c|]; [|reflexivity].
    destruct (String.eqb_spec other conversation_id); [contradiction|reflexivity].
Qed.

Lemma update_conversation_title_effect_witness :
  exists w',
    update_conversation_title local_externals "conv_1" "Fever" one_conversation
    = (inr tt, w')
    /\ fst (get_conversation "conv_1" w')
       = inr (Some (retitled "Fever" (clock local_externals 1) sample_conversation)).
Proof.
  destruct (update_conversation_title_effect local_externals "conv_1" "Fever"
              one_conversation eq_refl) as (w' & E & Hfound & _).
  exists w'. split; [exact E|]. now apply Hfound.
Defined.

(** ** The backfill of patient memory embeddings *)

(** [new] is [old] but for its embedding and its [updated_at]; it is [old]
    when [old] had an embedding, and when the backfill is limited to a user
    who is not the owner of [old]. *)
Definition memory_backfilled (user_id : option string) (old new : PatientMemory)
  : Prop :=
  mem_id new = mem_id old
  /\ mem_user_id new = mem_user_id old
  /\ mem_entity_type new = mem_entity_type old
  /\ mem_entity_name new = mem_entity_name old
  /\ mem_relationships new = mem_relationships old
  /\ mem_entity_metadata new = mem_entity_metadata old
  /\ mem_conversation_id new = mem_conversation_id old
  /\ mem_created_at new = mem_created_at old
  /\ (mem_content_embedding old <> None -> new = old)
  /\ (forall u, user_id = Some u -> u <> ""%string -> mem_user_id old <> u ->
                new = old).

(** What the query selects: rows without an embedding, of the user asked
    for. *)
Definition selectable (user_id : option string) (p : PatientMemory) : Prop :=
  mem_content_embedding p = None
  /\ forall u, user_id = Some u -> u <> ""%string -> mem_user_id p = u.

Lemma memory_backfilled_refl user_id p : memory_backfilled user_id p p.
Proof. now repeat split. Qed.

Lemma Forall2_memory_backfilled_refl user_id rows :
  Forall2 (memory_backfilled user_id) rows rows.
Proof.
  induction rows; constructor; [apply memory_backfilled_refl|assumption].
Qed.

Lemma set_memory_embedding_backfilled user_id original rows memory_id embedding updated :
  (forall o, In o original -> mem_id o = memory_id -> selectable user_id o) ->
  Forall2 (memory_backfilled user_id) original rows ->
  Forall2 (memory_backfilled user_id) original
    (map (set_memory_embedding memory_id embedding updated) rows).
Proof.
  intros Hsel H. induction H as [|o r original rows Hor H IH]; [constructor|].
  simpl. constructor.
  - unfold set_memory_embedding.
    destruct Hor as (Hid & Hu & Ht & Hn & Hr & Hm & Hc & Hcr & Hkeep & Hother).
    destruct (String.eqb_spec (mem_id r) memory_id) as [E|_];
      [|now repeat split].
    destruct (Hsel o (or_introl eq_refl)) as [Hnone Huser]; [congruence|].
    repeat split; simpl; try assumption.
    + intros Hsome. now exfalso.
    + intros u Hu' Hne Hneq. exfalso. apply Hneq. now apply Huser.
  - apply IH. intros o' Hin. apply Hsel. now right.
Qed.

Lemma flush_memory_backfilled user_id dirty : forall original rows,
  (forall change o, In change dirty -> In o original ->
                    mem_id o = fst (fst change) -> selectable user_id o) ->
  Forall2 (memory_backfilled user_id) original rows ->
  Forall2 (memory_backfilled user_id) original
    (fold_left
       (fun rows change =>
          map (set_memory_embedding (fst (fst change)) (snd (fst change))
                 (snd change)) rows)
       dirty rows).
Proof.
  induction dirty as [|change dirty IH]; intros original rows Hsel H; [exact H|].
  simpl. apply IH.
  - intros c o Hc. apply Hsel. now right.
  - apply set_memory_embedding_backfilled; [|exact H].
    intros o Hin. apply Hsel; [now left|exact Hin].
Qed.

Lemma memory_key_unique (rows : list PatientMemory) a b :
  NoDup (map mem_id rows) -> In a rows -> In b rows -> mem_id a = mem_id b -> a = b.
Proof.
  induction rows as [|r rows IH]; intros Hnd Ha Hb Hid; [destruct Ha|].
  inversion Hnd as [|? ? Hnotin Hnd']; subst.
  destruct Ha as [->|Ha], Hb as [->|Hb].
  - reflexivity.
  - exfalso. apply Hnotin. rewrite Hid. now apply in_map.
  - exfalso. apply Hnotin. rewrite <- Hid. now apply in_map.
  - now apply IH.
Qed.

Lemma memories_to_backfill_selectable batch_size user_id d p :
  In p (memories_to_backfill batch_size user_id d) ->
  In p (patient_memory d) /\ selectable user_id p.
Proof.
  unfold memories_to_backfill. intros H.
  apply in_firstn in H. apply filter_In in H.
  destruct H as [Hin Hf]. split; [exact Hin|].
  destruct (mem_content_embedding p) eqn:E; [discriminate|].
  split; [exact E|]. intros u -> Hne.
  destruct u as [|a u]; [contradiction|]. now apply String.eqb_eq in Hf.
Qed.

(** The loop never raises, writes nothing by itself, counts at most one per
    memory and sets attributes of memories it was given only. *)
Lemma backfill_memories_loop_spec ext self selected : forall updated_count dirty w,
  exists final extra w',
    backfill_memories_loop ext self selected updated_count dirty w
    = (inr (final, dirty ++ extra), w')
    /\ db w' = db w /\ pending w' = pending w
    /\ updated_count <= final <= updated_count + List.length selected
    /\ (forall change, In change extra ->
                       In (fst (fst change)) (map mem_id selected)).
Proof.
  induction selected as [|memory rest IH]; intros updated_count dirty w.
  - exists updated_count, [], w. rewrite app_nil_r. simpl.
    repeat split; [lia|lia|intros ? []].
  - cbn [backfill_memories_loop].
    destruct (truthy (mem_entity_name memory)
              && truthy (strip (mem_entity_name memory))).
    + unfold bind at 1, try_except, bind at 1, generate_patient_memory_embedding.
      pose proof (generate_embedding_only_calls self
                    (patient_memory_text (mem_entity_name memory)
                       (mem_entity_type memory) (mem_relationships memory)
                       (mem_entity_metadata memory)) w) as (Hdb & Hp & _).
      destruct (generate_embedding self _ w) as [[e|embedding] w1]; cbn in *.
      * destruct (IH updated_count dirty w1)
          as (final & extra & w' & E & Hd & Hq & Hn & Hin).
        exists final, extra, w'. split; [exact E|].
        split; [congruence|]. split; [congruence|]. split; [lia|].
        intros change Hch. right. now apply Hin.
      * match goal with
        | |- context [backfill_memories_loop ext self rest (S updated_count) ?d ?w2] =>
            destruct (IH (S updated_count) d w2)
              as (final & extra & w' & E & Hd & Hq & Hn & Hin);
            match d with
            | _ ++ [ ?c ] => exists final, (c :: extra), w'
            end
        end.
        split; [rewrite E; now rewrite <- app_assoc|].
        cbn in Hd, Hq.
        split; [congruence|]. split; [congruence|]. split; [lia|].
        intros change [<-|Hch]; [now left|right; now apply Hin].
    + destruct (IH updated_count dirty w)
        as (final & extra & w' & E & Hd & Hq & Hn & Hin).
      exists final, extra, w'. split; [exact E|]. split; [exact Hd|].
      split; [exact Hq|]. cbn [List.length]. split; [lia|].
      intros change Hch. right. now apply Hin.
Qed.

(** A run of the memory backfill in the model, where the store answers the
    query: it returns, and all it touches is memories without an
    embedding. *)
Lemma backfill_patient_memory_embeddings_effect ext batch_size user_id w :
  pending w = [] ->
  NoDup (map mem_id (patient_memory (db w))) ->
  exists updated_count w',
    backfill_patient_memory_embeddings ext batch_size user_id w
    = (inr updated_count, w')
    /\ updated_count <= batch_size
    /\ Forall2 (memory_backfilled user_id)
         (patient_memory (db w)) (patient_memory (db w'))
    /\ conversations (db w') = conversations (db w)
    /\ messages (db w') = messages (db w).
Proof.
  intros Hpending Hkey.
  unfold backfill_patient_memory_embeddings, bind at 1, db_rows.
  destruct (memories_to_backfill batch_size user_id (db w))
    as [|first selected] eqn:Esel.
  { exists 0, w.
    repeat split; [lia|apply Forall2_memory_backfilled_refl]. }
  assert (Hlen : List.length (first :: selected) <= batch_size).
  { rewrite <- Esel. unfold memories_to_backfill. rewrite length_firstn. lia. }
  assert (Hlack : forall p, In p (first :: selected) ->
                            In p (patient_memory (db w)) /\ selectable user_id p).
  { intros p Hp. rewrite <- Esel in Hp.
    now apply memories_to_backfill_selectable in Hp. }
  unfold try_except, bind at 1.
  pose proof (get_embedding_service_only_calls ext w) as H1.
  destruct (get_embedding_service ext w) as [[e|self] w1]; cbn in H1.
  - destruct H1 as (Hdb & Hp & _).
    unfold bind, db_rollback, ret. cbn. eexists. eexists.
    split; [reflexivity|]. cbn. rewrite Hdb.
    repeat split; [lia|apply Forall2_memory_backfilled_refl].
  - destruct (backfill_memories_loop_spec ext self (first :: selected) 0 [] w1)
      as (final & extra & w2 & E & Hdb2 & Hp2 & Hn & Hin).
    unfold bind at 1. rewrite E.
    destruct H1 as (Hdb & Hp & _).
    unfold bind at 1, db_flush_embeddings. cbn [fst snd app].
    destruct (forallb accepted (map (fun change => snd (fst change)) extra)).
    + unfold bind, db_execute, db_commit, with_db, ret. cbn.
      rewrite Hp2, Hp, Hpending, Hdb2, Hdb. cbn.
      eexists. eexists. split; [reflexivity|]. cbn.
      split; [lia|]. split; [|now repeat split].
      apply flush_memory_backfilled; [|apply Forall2_memory_backfilled_refl].
      intros change o Hchange Ho Hid.
      apply Hin in Hchange. apply in_map_iff in Hchange.
      destruct Hchange as (p & Hp' & Hsel). apply Hlack in Hsel.
      destruct Hsel as [Hpin Hselectable].
      now rewrite (memory_key_unique _ o p Hkey Ho Hpin) by congruence.
    + unfold raise, bind, db_rollback, ret. cbn.
      eexists. eexists. split; [reflexivity|]. cbn. rewrite Hdb2, Hdb.
      repeat split; [lia|apply Forall2_memory_backfilled_refl].
Qed.

(** X23. On a session with nothing pending and a memory table whose
    identifiers are all different, whatever
    [backfill_patient_memory_embeddings] answers, all it touches in the
    database is memories that had no embedding: every row keeps its place
    and all its fields but the embedding and [updated_at], a row that
    already had an embedding is left exactly as it was, and so is every row
    of another user when the backfill is limited to one user; conversations
    and messages are untouched. A count it returns is at most
    [batch_size]. *)
Theorem backfill_memories_only_fills_missing ext batch_size user_id w :
  pending w = [] ->
  NoDup (map mem_id (patient_memory (db w))) ->
  let outcome := backfill_patient_memory_embeddings ext batch_size user_id w in
  Forall2 (memory_backfilled user_id)
    (patient_memory (db w)) (patient_memory (db (snd outcome)))
  /\ conversations (db (snd outcome)) = conversations (db w)
  /\ messages (db (snd outcome)) = messages (db w)
  /\ (forall updated_count,
        fst outcome = inr updated_count -> updated_count <= batch_size).
Proof.
  intros Hpending Hkey.
  destruct (backfill_patient_memory_embeddings_effect ext batch_size user_id w
              Hpending Hkey) as (n & w' & E & Hn & Hrows & Hconv & Hmsg).
  cbv zeta. rewrite E. cbn [fst snd].
  repeat split; try assumption.
  now intros updated_count [= <-].
Qed.

Definition sample_memory (id owner : string) (embedding : option vector)
  : PatientMemory :=
  {| mem_id := id; mem_user_id := owner; mem_entity_type := "condition";
     mem_entity_name := "Asthma"; mem_relationships := None;
     mem_entity_metadata := None; mem_content_embedding := embedding;
     mem_conversation_id := Some "conv_1"%string;
     mem_created_at := 0%Z; mem_updated_at := 0%Z |}.

Definition three_memories : world :=
  {| calls := []; instance := None;
     db := {| conversations := [ sample_conversation ];
              messages := [ sample_message ];
              patient_memory :=
                [ sample_memory "mem_1" "user_1" None;
                  sample_memory "mem_2" "user_2" None;
                  sample_memory "mem_3" "user_1" (Some [ PyFloat.nth_float 3 ]) ] |};
     pending := []; ids_drawn := 0; clock_reads := 5 |}.

Lemma backfill_memories_only_fills_missing_witness :
  let outcome :=
    backfill_patient_memory_embeddings local_384 100 (Some "user_1"%string)
      three_memories in
  Forall2 (memory_backfilled (Some "user_1"%string))
    (patient_memory (db three_memories)) (patient_memory (db (snd outcome)))
  /\ fst outcome = inr 1.
Proof.
  destruct (backfill_memories_only_fills_missing local_384 100
              (Some "user_1"%string) three_memories) as (Hrows & _).
  - reflexivity.
  - repeat constructor; simpl; intuition discriminate.
  - split; [exact Hrows|reflexivity].
Defined.

(** What the backfill does on the sample: the memory of the user that lacked
    an embedding gets one and a new [updated_at]; the other user's memory
    and the one that had an embedding keep theirs. *)
Example backfill_memories_sample_run :
  let outcome :=
    backfill_patient_memory_embeddings local_384 100 (Some "user_1"%string)
      three_memories in
  fst outcome = inr 1
  /\ map mem_updated_at (patient_memory (db (snd outcome)))
     = [ clock local_384 5; 0%Z; 0%Z ]
  /\ map (fun p => match mem_content_embedding p with Some _ => true | None => false end)
       (patient_memory (db (snd outcome)))
     = [ true; false; true ].
Proof. repeat split; reflexivity. Qed.

(** ** The count of a backfill

    Where the store answers the query that selects the rows, a backfill
    returns, and its count is at most the batch size: every failure after
    the query is caught by its handler. *)



End DbMaintenanceExtras.

Module VectorSearchAdminExtras.
Import Py Types Run VectorSearch VectorSearchAdmin DbMaintenance DbMaintenanceExtras.

(** X24. The two backfill endpoints check [batch_size] (100 when the body
    has none) before they touch anything: a value below 1 or above 500 is
    answered 400 with the world unchanged, so no message or memory is read,
    no embedding is computed and nothing is written. *)
Theorem backfill_batch_size_checked ext user data w :
  (get (batch_size data) 100 < 1 \/ 500 < get (batch_size data) 100)%Z ->
  backfill_messages ext user data w
  = (inr {| backfill_body := BackfillError "batch_size must be between 1 and 500";
            backfill_status := 400 |}, w)
  /\ backfill_memories ext user data w
     = (inr {| backfill_body := BackfillError "batch_size must be between 1 and 500";
               backfill_status := 400 |}, w).
Proof.
  intros H.
  assert (E : negb ((1 <=? get (batch_size data) 100)%Z
                    && (get (batch_size data) 100 <=? 500)%Z) = true).
  { apply negb_true_iff, andb_false_iff.
    destruct H as [H|H]; [left|right]; apply Z.leb_gt; exact H. }
  unfold backfill_messages, backfill_memories, try_except. rewrite E.
  split; reflexivity.
Qed.

Lemma backfill_batch_size_checked_witness :
  backfill_messages EmbeddingFacts.local_externals {| id := "user_1" |}
    {| batch_size := Some 501%Z; backfill_conversation_id := None |}
    two_messages
  = (inr {| backfill_body := BackfillError "batch_size must be between 1 and 500";
            backfill_status := 400 |}, two_messages).
Proof.
  apply (backfill_batch_size_checked EmbeddingFacts.local_externals
           {| id := "user_1" |}
           {| batch_size := Some 501%Z; backfill_conversation_id := None |}
           two_messages).
  right. reflexivity.
Defined.



End VectorSearchAdminExtras.
